(* ===== verification/_CoqProject ===== *)
-Q . S2P
Prelude.v
Signaling.v
Transport.v
Browser.v
CallState.v
Media.v
Negotiation.v
Lifecycle.v
Session.v
NegotiationSpec.v
Refinement.v
Auth.v
Appointments.v
DoctorDash.v
PatientDash.v
Views.v
CallLink.v
