(* ===== verification/Prelude.v ===== *)
(** * A verification library for the HealthCareSystem frontend

    The repository ([src/src]) is a React single-page application for a
    clinic: patients book appointments with doctors, doctors confirm,
    complete or cancel them, and both join a peer-to-peer video call.
    Its parts and how they interact:
    - [context/AuthContext.js] holds the logged-in user and the token in
      [localStorage]; [App.jsx] routes every page, guarded by
      [components/ProtectedRoute.jsx]; [components/Navbar.jsx] navigates;
    - [pages/Appointments.jsx], [pages/DoctorDashboard.jsx] and
      [pages/PatientDashboard.jsx] call the REST backend with [fetch] and
      keep the answers in React state; each dashboard opens the call page
      with a link [/video-call/<appointment id>?role=..&userId=..&userName=..];
    - [components/VideoCall.jsx] reads those parameters, acquires camera
      and microphone, connects [services/WebSocketService.js] (a STOMP
      signaling client, one per tab) and runs the offer/answer/ICE
      exchange of an [RTCPeerConnection] with the other participant's tab
      through the relay.

    ** Files, in dependency order

    - [Prelude] (this file): the execution model.  JavaScript code that
      may throw is the state-and-exception monad
      [js S A := S -> S * result A] with stdpp's [MRet]/[MBind]: effects
      before a [throw] persist, a [try]/[catch] ([js_try]) does not roll
      back.  Also the [js_scope] notations, the hint databases [vc] and
      [vc_rw], the tactics ([js_unfold], [case_streq]), and string helpers
      ([truthy], [split_on], [has_char], [or_default]) with their lemmas.
    - [Signaling]: the JSON messages of the signaling protocol.
    - [Transport]: [WebSocketService.js], Module [WebSocketService]: the
      singleton's fields as a record, the STOMP relay as an explicit state
      (clients, subscriptions with FIFO queues), each method a state
      transformer.  What the call needs of it is the class
      [SignalingTransport] with the laws [TransportLaws]; the service is
      its instance, so the call's theorems hold for any lawful transport.
    - [Browser]: [MediaStreamTrack] and [RTCPeerConnection] as an
      environment model (JSEP signaling states, [InvalidStateError]).
    - [CallState]: [VideoCall]'s React state, refs and browser objects.
    - [Media], [Negotiation], [Lifecycle]: [VideoCall]'s functions
      ([requestMediaPermissions], toggles; [createPeerConnection],
      [startCall], [handleSignalingMessage]; the mount effect,
      [initializeCall], [onConnected], [cleanup], [endCall], [retryCall],
      one tab's event step [run_event], and what the page shows,
      [render]).  An [await] splits a function
      into the part before it and a continuation run when the browser
      resolves the promise.
    - [Session]: two tabs and the shared relay; [wstep] runs one event of
      any interleaving; the measure [queued] of the relay's frames.
    - [NegotiationSpec]: the specification's negotiation state machine
      (section 4.3) as a role-indexed step relation [nstep], stated
      without reference to the code.
    - [Refinement]: the abstraction [abs] from the component's state to
      that machine, the type invariant [inv], the reachable states
      ([reachable]: the mount effect, then any events the page offers),
      and a small program logic [moves] for the handlers.
    - [Auth]: [AuthContext.js], [ProtectedRoute.jsx], the route table of
      [App.jsx] with [react-router]'s matching (first match, and its
      ranked matching [ranked_resolve] by [computeScore]), and every
      control of [Navbar.jsx] ([nav_click], [nav_enabled]).
    - [Appointments]: the appointment data, [fetch] answers as inputs
      ([FOk], [FNotOk], [FReject]), the calendar page, [encodeURIComponent],
      the join link [join_url], and [Number.prototype.toString]
      ([z_digits], [z_to_string]).
    - [DoctorDash], [PatientDash]: Modules [Doctor] and [Patient], each
      dashboard's state record, mount effect, handlers, dialogs and row
      buttons.
    - [Views]: what the two dashboards and the calendar page show, as
      values: the alerts, the table's head and body (one record of cells
      and buttons per appointment, or the empty row), the booking
      dialog's doctor list and the medical-record dialog, each a function
      of the component's state in the order of its JSX.
    - [CallLink]: [URLSearchParams] and [useParams] reading the join link.

    ** What the theorems show

    - The call: the specification's scenario connects (C1, evaluated);
      [VideoCall.jsx] refines the specification's negotiation machine:
      from every reachable state every event moves the abstract state
      only along the transitions of its trigger and of the tab's role
      (C2), and the peer-connection store satisfies its type invariant in
      every reachable state (C3), both by induction on [reachable]; a
      doctor only offers and a patient only answers (C4); own messages
      are ignored (C5); offers, answers and candidates are handled as
      JSEP requires (C6-C8); [endCall] is idempotent and stops every
      track (C9, C13); the signaling exchange terminates: any schedule of
      relay deliveries is bounded by [queued] and the relay drains (C12);
      the toggles keep tracks and flags in step (C16); the relay keeps
      its ids fresh (C20).
    - Defects, proved as theorems about the code as written: a retry after
      a refused camera never connects, whatever follows (C10, an invariant
      over every event sequence); a doctor who joins first loses the offer
      (C11); unmounting without End Call leaves camera and microphone on
      (C14); a late grant after unmount still connects (C15); a retry
      after muting desyncs the flags (C17); resubscribing leaks (C18);
      unsubscribe after disconnect throws (C19).
    - The portal: access control (C21); first-match routing equals
      [react-router]'s ranked matching on [App]'s table, whose routes are
      pairwise disjoint (C22, an equivalence); every Navbar control but
      the profile chip lands on a page the user is shown (C23), while the
      chip's link is unrouted (C24); [checkAuth] and [register] (C25,
      C27), and a stale validation deleting a fresh token (C26); each
      dashboard's buttons and handlers (C28-C30, C33, C35); viewing a
      medical record opens the dialog on the first record or explains
      the failure, on both dashboards (C31); the patient's list always
      fails because [API_BASE_URLL] is unbound (C32); the booking's date
      fields have exactly two digits and read back (C34, bounds); the
      doctor's table prints "Invalid Date" for the appointments the
      patient's dashboard books, which carry no [startTime] (C36); the
      patient's empty table row spans 7 of its 8 columns (C37); the join
      link round-trips (C38) except for user ids that need escaping
      (C39); the calendar's one-hour events (C40).
    - Theorems kept beside the claims: [grant_connects],
      [media_error_messages_distinct], [sendMessage_routes],
      [toggleAudio_twice] (the toggles are involutions),
      [deliver_in_send_order] (the relay keeps frames in order),
      [patient_fetch_with_binding] (the patient's list would load if
      [API_BASE_URLL] were bound), [login_then_logout],
      [booked_then_banner].

    ** Environment and bounds

    The backend's answers, [new Date(s)], [setHours], [getFullYear] and
    friends and the clock are parameters of the Sections that need them,
    so each theorem holds for every answer.  No definition uses fuel
    except [z_digits], whose 64 digits cover every integer below [10^64]
    ([z_to_string_value]: they read back), beyond any JavaScript safe
    integer.  Event sequences are lists of any length; the evaluated
    scenarios (C1, C11) use [vm_compute] on concrete worlds.  The
    refinement assumes what the environment guarantees ([event_ok]): a
    delivered message is well formed, and the [connect] callback runs
    once the STOMP client is connected, so [subscribe] succeeds.  The
    relay's measure [queued] counts each queued frame once and an offer
    once more per subscription (the answers its delivery may publish).

    ** What is not modelled

    Styling (MUI props, CSS, the [theme] of [App.jsx]) and the markup
    of the Navbar and the calendar widget's own layout; the avatar's
    initial; [formatDate], [toLocaleDateString] and
    [toLocaleTimeString] (Intl, display only: parameters of [Views]);
    [console] logging and the effects that only log; the HTTP
    transport itself, SDP contents and ICE connectivity, the Notification
    provider and the login, register, landing and medical-record pages
    (imported by [App.jsx] but absent from the repository).
    [react-router] is modelled for the table's shapes (literal and
    [:param] segments).  [await]s that only log are not split: a handler
    runs to completion once its answers are known, and a fetch started
    without [await] (after booking) is run before the handler's
    [finally], which gives the same final state. *)

From stdpp Require Export base gmap strings list.
From Stdlib Require Export Lia.

Declare Scope js_scope.
Delimit Scope js_scope with js.
Open Scope js_scope.

(** ** JavaScript errors and the execution monad *)

(** A thrown value; the code only ever reads [err.name] and
    [err.message]. *)
Record js_error := mk_error { err_name : string; err_message : string }.

Inductive result (A : Type) : Type :=
| Ok (a : A)
| Thrown (e : js_error).
Arguments Ok {A} a.
Arguments Thrown {A} e.

(** A computation over a state [S]: the state changes made before a
    throw are kept. *)
Definition js (S A : Type) : Type := S -> S * result A.

#[export] Instance js_ret {S} : MRet (js S) := fun A a s => (s, Ok a).

#[export] Instance js_bind {S} : MBind (js S) :=
  fun A B f c s =>
    match c s with
    | (s', Ok a) => f a s'
    | (s', Thrown e) => (s', Thrown e)
    end.

Definition throw {S A} (e : js_error) : js S A := fun s => (s, Thrown e).

(** [try { c } catch (e) { h(e) }] *)
Definition js_try {S A} (c : js S A) (h : js_error -> js S A) : js S A :=
  fun s =>
    match c s with
    | (s', Ok a) => (s', Ok a)
    | (s', Thrown e) => h e s'
    end.

Definition get {S} : js S S := fun s => (s, Ok s).
Definition modify {S} (f : S -> S) : js S unit := fun s => (f s, Ok tt).
Definition gets {S A} (f : S -> A) : js S A := fun s => (s, Ok (f s)).

Definition skip {S} : js S unit := mret tt.

(** [xs.forEach(f)]. *)
Fixpoint forEach {S A} (f : A -> js S unit) (xs : list A) : js S unit :=
  match xs with
  | [] => skip
  | x :: xs => f x ;; forEach f xs
  end.

(** [if (b) { c }] *)
Notation "'when' b 'then' c" := (if b then c else skip)
  (at level 10, b at level 200, c at level 200) : js_scope.

(** Running a computation and keeping only the final state, as the
    event loop does with an [async] handler whose result is ignored. *)
Definition exec {S A} (c : js S A) (s : S) : S := fst (c s).

(** The exception constructors the code depends on. *)
Definition type_error (msg : string) : js_error := mk_error "TypeError" msg.
Definition invalid_state : js_error :=
  mk_error "InvalidStateError" "The object is in an invalid state".

(** ** Strings *)

(** JavaScript truthiness of an optional string field: [undefined] and
    [""] are falsy. *)
Definition truthy (o : option string) : bool :=
  match o with
  | Some s => negb (String.eqb s "")
  | None => false
  end.

(** [String.prototype.includes]. *)
Fixpoint str_includes (s pat : string) : bool :=
  String.prefix pat s ||
  match s with
  | EmptyString => false
  | String _ s' => str_includes s' pat
  end.

(** A possibly [null] string interpolated into a template literal or a
    URL: [null] prints as ["null"]. *)
Definition js_str (o : option string) : string :=
  match o with Some s => s | None => "null" end.

(** A value JSX renders as text: [null] and [undefined] render nothing. *)
Definition jsx_text (o : option string) : string := default "" o.

(** [a || b] on optional strings, as in [searchParams.get('x') || d]. *)
Definition or_default (o : option string) (d : string) : string :=
  match o with
  | Some s => if String.eqb s "" then d else s
  | None => d
  end.

(** [s.split(c)] for a one-character separator: the pieces between the
    separators, [[""]] for the empty string. *)
Fixpoint split_on (c : Ascii.ascii) (s : string) : list string :=
  match s with
  | EmptyString => [""%string]
  | String a r =>
      let rest := split_on c r in
      if Ascii.eqb a c then ""%string :: rest
      else match rest with
           | x :: xs => String a x :: xs
           | [] => [String a ""]
           end
  end.

(** Whether the character [c] occurs in [s]. *)
Fixpoint has_char (c : Ascii.ascii) (s : string) : bool :=
  match s with
  | EmptyString => false
  | String a r => Ascii.eqb a c || has_char c r
  end.

(** [s.toLowerCase()] on ASCII. *)
Definition ascii_lower (c : Ascii.ascii) : Ascii.ascii :=
  let n := Ascii.nat_of_ascii c in
  if (65 <=? n)%nat && (n <=? 90)%nat then Ascii.ascii_of_nat (n + 32) else c.

Fixpoint toLowerCase (s : string) : string :=
  match s with EmptyString => EmptyString | String c r => String (ascii_lower c) (toLowerCase r) end.


(** ** Tactics and hints *)

Create HintDb vc discriminated.
Create Rewrite HintDb vc_rw.

Ltac inv_clear H := inversion H; subst; clear H.

(** Case on every [String.eqb] test in the goal, keeping the equation. *)
Ltac case_streq :=
  repeat match goal with
  | |- context [String.eqb ?a ?b] =>
      destruct (String.eqb_spec a b); subst; try congruence
  end.

(** Unfold the monad's plumbing after the definitions have been
    unfolded. *)
Ltac js_unfold :=
  cbv [mbind mret js_bind js_ret throw js_try get modify gets skip exec] in *;
  simpl in *.

(** ** Generic lemmas *)

Lemma bind_ret_l {S A B} (a : A) (f : A -> js S B) (s : S) :
  (mret a ≫= f) s = f a s.
Proof. reflexivity. Qed.

Lemma bind_throw {S A B} (e : js_error) (f : A -> js S B) (s : S) :
  (throw e ≫= f) s = (s, Thrown e).
Proof. reflexivity. Qed.

Lemma bind_assoc {S A B C} (c : js S A) (f : A -> js S B) (g : B -> js S C)
  (s : S) : ((c ≫= f) ≫= g) s = (c ≫= (fun a => f a ≫= g)) s.
Proof. cbv [mbind js_bind]. destruct (c s) as [s' [a|e]]; reflexivity. Qed.

Lemma bind_ok {S A B} (c : js S A) (f : A -> js S B) s s' a :
  c s = (s', Ok a) -> (c ≫= f) s = f a s'.
Proof. intros E. cbv [mbind js_bind]. by rewrite E. Qed.

Lemma bind_thrown {S A B} (c : js S A) (f : A -> js S B) s s' e :
  c s = (s', Thrown e) -> (c ≫= f) s = (s', Thrown e).
Proof. intros E. cbv [mbind js_bind]. by rewrite E. Qed.

Lemma try_ok {S A} (c : js S A) h s s' a :
  c s = (s', Ok a) -> js_try c h s = (s', Ok a).
Proof. intros E. unfold js_try. by rewrite E. Qed.

Lemma try_thrown {S A} (c : js S A) h s s' e :
  c s = (s', Thrown e) -> js_try c h s = h e s'.
Proof. intros E. unfold js_try. by rewrite E. Qed.

Lemma truthy_some s : s <> ""%string -> truthy (Some s) = true.
Proof. intros H. simpl. by destruct (String.eqb_spec s ""). Qed.

Lemma prefix_refl s : String.prefix s s = true.
Proof. induction s as [|c s IH]; simpl; [done|]. by destruct (Ascii.ascii_dec c c). Qed.

Lemma str_includes_self s : str_includes s s = true.
Proof. destruct s as [|c s]; [done|]. unfold str_includes. by rewrite prefix_refl. Qed.

Lemma str_includes_app_r a b pat :
  str_includes b pat = true -> str_includes (a +:+ b) pat = true.
Proof.
  intros H. induction a as [|c a IH]; simpl; [done|].
  rewrite IH. apply orb_true_r.
Qed.

Lemma or_default_some s d : s <> ""%string -> or_default (Some s) d = s.
Proof. intros H. simpl. by destruct (String.eqb_spec s ""). Qed.

#[export] Hint Rewrite @bind_ret_l @bind_throw : vc_rw.
#[export] Hint Resolve str_includes_self prefix_refl truthy_some : vc.

Lemma split_on_nonempty c s : split_on c s <> [].
Proof.
  induction s as [|a s IH]; simpl; [done|].
  destruct (Ascii.eqb a c); [done|]. by destruct (split_on c s).
Qed.

Lemma split_on_no_sep c a : has_char c a = false -> split_on c a = [a].
Proof.
  induction a as [|x a IH]; simpl; [done|]. intros H.
  apply orb_false_iff in H as [Hx Ha]. rewrite Hx, IH by done. done.
Qed.

Lemma string_app_assoc a b c : (a +:+ b) +:+ c = a +:+ (b +:+ c).
Proof.
  induction a as [|x a IH]; [reflexivity|].
  change (String x ((a +:+ b) +:+ c) = String x (a +:+ (b +:+ c))). by rewrite IH.
Qed.

Lemma sum_list_with_fmap {A B} (f : B -> nat) (g : A -> B) l :
  sum_list_with f (g <$> l) = sum_list_with (fun x => f (g x)) l.
Proof. induction l as [|x l IH]; cbn; congruence. Qed.

(** A sum grows by at most [k] per element when each term does. *)
Lemma sum_list_with_le_plus {A} (f g : A -> nat) k l :
  (forall x, x ∈ l -> f x <= g x + k) -> sum_list_with f l <= sum_list_with g l + k * length l.
Proof.
  induction l as [|x l IH]; intros Hfg; cbn; [lia|].
  pose proof (Hfg x (list_elem_of_here x l)).
  assert (sum_list_with f l <= sum_list_with g l + k * length l)
    by (apply IH; intros y Hy; apply Hfg; by right).
  lia.
Qed.

(** A positive sum has a positive term. *)
Lemma sum_list_with_pos {A} (f : A -> nat) l :
  0 < sum_list_with f l -> exists x, x ∈ l /\ 0 < f x.
Proof.
  induction l as [|x l IH]; cbn; [lia|]. intros Hs.
  destruct (decide (0 < f x)) as [Hx|Hx]; [exists x; split; [left|done]|].
  destruct IH as (y & Hy & Hf); [lia|]. exists y. split; [by right|done].
Qed.

Lemma split_on_app_sep c a b :
  has_char c a = false -> split_on c (a +:+ String c b) = a :: split_on c b.
Proof.
  induction a as [|x a IH]; simpl; intros H.
  - by rewrite Ascii.eqb_refl.
  - apply orb_false_iff in H as [Hx Ha]. rewrite Hx, IH by done. done.
Qed.
