(* ===== verification/Signaling.v ===== *)
(** * Signaling data: the JSON messages of the video-call protocol

    [VideoCall.jsx] publishes three kinds of object literals through
    [WebSocketService.sendMessage] (offer, answer, ICE candidate) and
    receives them, after [JSON.parse], in [handleSignalingMessage].  A
    received message is any JSON object, so every field is optional and
    [type] is an arbitrary string.  Session descriptions and candidates
    are opaque browser objects; they carry the identity of the
    [RTCPeerConnection] that produced them and, for descriptions, the id
    of the local [MediaStream] whose tracks they announce. *)

From S2P Require Import Prelude.

Inductive sdp_type := SdpOffer | SdpAnswer.

#[export] Instance sdp_type_eq_dec : EqDecision sdp_type.
Proof. solve_decision. Defined.

(** An [RTCSessionDescriptionInit]: its [type], the peer connection that
    created it, and the stream whose tracks were added to that
    connection (what the remote [ontrack] event reports as
    [event.streams[0]]). *)
Record session_description := mk_sdp {
  sdp_kind : sdp_type;
  sdp_origin : nat;
  sdp_stream : option nat
}.

(** An [RTCIceCandidate]: the connection that gathered it and its index
    in the gathering order. *)
Record ice_candidate := mk_cand {
  cand_origin : nat;
  cand_index : nat
}.

(** A parsed signaling message.  [None] is a missing ([undefined])
    property; a [null] value ([from: userId] when the URL has no
    [userId]) is [None] as well. *)
Record signal := mk_signal {
  sig_type : string;
  sig_sdp : option session_description;
  sig_candidate : option ice_candidate;
  sig_from : option string;
  sig_userName : option string;
  sig_role : option string
}.

(** [{ type: 'offer', sdp: offer, from: userId, userName, role }]. *)
Definition offer_msg (offer : session_description)
  (userId : option string) (userName : string) (role : option string) : signal :=
  mk_signal "offer" (Some offer) None userId (Some userName) role.

(** [{ type: 'answer', sdp: answer, from: userId, userName, role }]. *)
Definition answer_msg (answer : session_description)
  (userId : option string) (userName : string) (role : option string) : signal :=
  mk_signal "answer" (Some answer) None userId (Some userName) role.

(** [{ type: 'ice-candidate', candidate: event.candidate, from: userId }]. *)
Definition ice_msg (c : ice_candidate) (userId : option string) : signal :=
  mk_signal "ice-candidate" None (Some c) userId None None.

(** The remote participant shown in the UI:
    [setRemoteUser({ id: message.from, name: message.userName,
    role: message.role })]. *)
Record remote_user := mk_remote_user {
  ru_id : option string;
  ru_name : option string;
  ru_role : option string
}.
