(* ===== verification/Transport.v ===== *)
(** * The signaling transport: [src/src/services/WebSocketService.js]

    The class [SignalingTransport] is what [VideoCall.jsx] relies on: the
    five methods of the service and two observations, with the laws
    [TransportLaws] that the call's teardown needs.  Module
    [WebSocketService] models the source: the singleton's two fields
    ([stompClient], [messageHandlers]) as [service], the STOMP relay it
    talks to as [net], and each method as a [js] computation on the pair.

    Conventions taken from [@stomp/stompjs], which the service calls:
    [Stomp.over(socket)] creates a client that is not yet connected;
    [subscribe], [send] and a subscription's [unsubscribe] throw a
    [TypeError] when their client is not connected; [disconnect] drops the
    client's subscriptions at the relay.  The relay forwards a frame sent
    to [/app/room/<id>] to every subscription of [/topic/room/<id>], the
    sender's own included, and delivers each subscription's frames in
    order (the specification's "FIFO per room"). *)

From S2P Require Import Prelude Signaling.

(** ** The interface the call component uses *)

Class SignalingTransport (T : Type) := {
  ws_connect : js T unit;
  ws_subscribe : string -> js T unit;
  ws_unsubscribe : string -> js T unit;
  ws_send : string -> signal -> js T unit;
  ws_disconnect : js T unit;
  (** the service holds a client ([this.stompClient] is not null) *)
  ws_has_client : T -> bool;
  (** [messageHandlers] has an entry for the room *)
  ws_subscribed : string -> T -> bool
}.

Class TransportLaws (T : Type) `{SignalingTransport T} := {
  unsubscribe_absent r t :
    ws_subscribed r t = false -> ws_unsubscribe r t = (t, Ok tt);
  unsubscribe_outcome r t :
    match ws_unsubscribe r t with
    | (t', Ok _) => ws_subscribed r t' = false
    | (t', Thrown _) => t' = t
    end;
  disconnect_ok t : snd (ws_disconnect t) = Ok tt;
  disconnect_subscribed r t :
    ws_subscribed r (exec ws_disconnect t) = ws_subscribed r t;
  disconnect_idem t :
    ws_disconnect (exec ws_disconnect t) = (exec ws_disconnect t, Ok tt);
  disconnect_no_client t : ws_has_client (exec ws_disconnect t) = false;
  send_no_client r m t : ws_has_client t = false -> ws_send r m t = (t, Ok tt);
  unsubscribe_has_client r t :
    ws_has_client (exec (ws_unsubscribe r) t) = ws_has_client t;
  subscribe_no_client r t : ws_has_client t = false -> ws_subscribe r t = (t, Ok tt)
}.

Module WebSocketService.

(** A subscription at the relay: its client, its destination and the
    frames queued for delivery to it. *)
Record subscription := mk_sub {
  sub_client : nat;
  sub_dest : string;
  sub_queue : list signal
}.

(** The relay: the STOMP connections it knows (and whether CONNECTED was
    received), the live subscriptions, a counter for fresh ids, and the
    history of SEND frames it received (client, room, message), oldest
    first. *)
Record net := mk_net {
  net_clients : gmap nat bool;
  net_subs : gmap nat subscription;
  net_fresh : nat;
  net_log : list (nat * string * signal)
}.

(** The subscription object kept in [messageHandlers]: its id and the
    client it belongs to. *)
Record handle := mk_handle { h_client : nat; h_sub : nat }.

(** The singleton's fields. *)
Record service := mk_service {
  stompClient : option nat;
  messageHandlers : gmap string handle
}.

Abbreviation st := (service * net)%type.

Definition topic (roomId : string) : string := "/topic/room/" +:+ roomId.

Definition not_connected : js_error :=
  type_error "There is no underlying STOMP connection".

Definition is_connected (n : net) (c : nat) : bool :=
  bool_decide (net_clients n !! c = Some true).

(** [constructor()]: no client, no handlers; an empty relay. *)
Definition init_service : service := mk_service None ∅.
Definition init_net : net := mk_net ∅ ∅ 0 [].

(** [connect(onConnected)]: [new SockJS(...)], [Stomp.over(socket)] and
    [stompClient.connect(...)].  The new client replaces the field; a
    previous client is not disconnected.  The callback runs later, when
    the relay's CONNECTED frame arrives ([establish]). *)
Definition connect : js st unit :=
  modify (fun '(s, n) =>
    let c := net_fresh n in
    (mk_service (Some c) (messageHandlers s),
     mk_net (<[c := false]> (net_clients n)) (net_subs n) (S c) (net_log n))).

(** [subscribe(roomId, messageHandler)]. *)
Definition subscribe (roomId : string) : js st unit :=
  '(s, n) ← get;
  match stompClient s with
  | None => skip
  | Some c =>
      if is_connected n c then
        let sid := net_fresh n in
        modify (fun _ =>
          (mk_service (Some c)
             (<[roomId := mk_handle c sid]> (messageHandlers s)),
           mk_net (net_clients n)
             (<[sid := mk_sub c (topic roomId) []]> (net_subs n)) (S sid)
             (net_log n)))
      else throw not_connected
  end.

(** [unsubscribe(roomId)]: [subscription.unsubscribe()] then
    [this.messageHandlers.delete(roomId)]. *)
Definition unsubscribe (roomId : string) : js st unit :=
  '(s, n) ← get;
  match messageHandlers s !! roomId with
  | None => skip
  | Some h =>
      if is_connected n (h_client h) then
        modify (fun _ =>
          (mk_service (stompClient s) (delete roomId (messageHandlers s)),
           mk_net (net_clients n) (delete (h_sub h) (net_subs n)) (net_fresh n)
             (net_log n)))
      else throw not_connected
  end.

(** The relay's routing of a frame that client [c] sent to
    [/app/room/<roomId>]: it is queued on every subscription to
    [/topic/room/<roomId>]. *)
Definition publish (c : nat) (roomId : string) (m : signal) (n : net) : net :=
  mk_net (net_clients n)
    ((fun sb => if String.eqb (sub_dest sb) (topic roomId)
                then mk_sub (sub_client sb) (sub_dest sb) (sub_queue sb ++ [m])
                else sb) <$> net_subs n)
    (net_fresh n) (net_log n ++ [(c, roomId, m)]).

(** [sendMessage(roomId, message)]. *)
Definition sendMessage (roomId : string) (m : signal) : js st unit :=
  '(s, n) ← get;
  match stompClient s with
  | None => skip
  | Some c =>
      if is_connected n c then modify (fun _ => (s, publish c roomId m n))
      else throw not_connected
  end.

(** [disconnect()]: the relay forgets the client and its subscriptions;
    [messageHandlers] is left as it is. *)
Definition disconnect : js st unit :=
  modify (fun '(s, n) =>
    match stompClient s with
    | None => (s, n)
    | Some c =>
        (mk_service None (messageHandlers s),
         mk_net (delete c (net_clients n))
           (filter (fun kv => sub_client kv.2 <> c) (net_subs n))
           (net_fresh n) (net_log n))
    end).

(** ** The relay's own events (environment) *)

(** The CONNECTED frame for a pending client [c] arrives. *)
Definition establish (c : nat) (n : net) : net :=
  match net_clients n !! c with
  | Some false =>
      mk_net (<[c := true]> (net_clients n)) (net_subs n) (net_fresh n) (net_log n)
  | _ => n
  end.

(** The frame at the head of subscription [sid]'s queue is handed to the
    subscription's callback. *)
Definition deliver (sid : nat) (n : net) : option (signal * net) :=
  match net_subs n !! sid with
  | Some (mk_sub c d (m :: q)) =>
      Some (m, mk_net (net_clients n) (<[sid := mk_sub c d q]> (net_subs n))
                 (net_fresh n) (net_log n))
  | _ => None
  end.

#[global] Instance transport : SignalingTransport st := {
  ws_connect := connect;
  ws_subscribe := subscribe;
  ws_unsubscribe := unsubscribe;
  ws_send := sendMessage;
  ws_disconnect := disconnect;
  ws_has_client t := bool_decide (is_Some (stompClient t.1));
  ws_subscribed r t := bool_decide (is_Some (messageHandlers t.1 !! r))
}.

(** ** Well-formedness: every id in use is below the fresh-id counter *)

Definition wf (t : st) : Prop :=
  let '(s, n) := t in
  (forall c, stompClient s = Some c -> c < net_fresh n) /\
  (forall r h, messageHandlers s !! r = Some h ->
     h_client h < net_fresh n /\ h_sub h < net_fresh n) /\
  (forall c b, net_clients n !! c = Some b -> c < net_fresh n) /\
  (forall sid sb, net_subs n !! sid = Some sb ->
     sid < net_fresh n /\ sub_client sb < net_fresh n).

(** Every call a program can make on the service, and the relay's own
    events. *)
Inductive ws_event :=
| Connect
| Subscribe (roomId : string)
| Unsubscribe (roomId : string)
| Send (roomId : string) (m : signal)
| Disconnect
| Establish (c : nat)
| Deliver (sid : nat).

Definition run_ws_event (e : ws_event) (t : st) : st :=
  match e with
  | Connect => exec connect t
  | Subscribe r => exec (subscribe r) t
  | Unsubscribe r => exec (unsubscribe r) t
  | Send r m => exec (sendMessage r m) t
  | Disconnect => exec disconnect t
  | Establish c => (t.1, establish c t.2)
  | Deliver sid =>
      match deliver sid t.2 with Some (_, n') => (t.1, n') | None => t end
  end.

Ltac wf_solve :=
  simpl in *;
  repeat match goal with
  | H : _ /\ _ |- _ => destruct H
  | |- _ /\ _ => split
  | |- forall _, _ => intros
  | H : <[_:=_]> _ !! _ = Some _ |- _ =>
      apply lookup_insert_Some in H as [[<- <-]|[? H]]
  | H : delete _ _ !! _ = Some _ |- _ => apply lookup_delete_Some in H as [? H]
  | H : filter _ _ !! _ = Some _ |- _ => apply map_lookup_filter_Some in H as [H ?]
  | H : (_ <$> _) !! _ = Some _ |- _ => apply lookup_fmap_Some in H as [? [<- H]]
  | H : Some _ = Some _ |- _ => injection H as H; subst
  | H : forall x y, ?m !! x = Some y -> _, H' : ?m !! _ = Some _ |- _ =>
      let X := fresh in pose proof (H _ _ H') as X; clear H'
  | H : forall x, Some ?a = Some x -> _ |- _ => specialize (H a eq_refl)
  | H1 : ?f = Some ?a, H2 : ?f = Some ?b |- _ =>
      rewrite H1 in H2; injection H2 as H2; subst
  | H : forall x, ?f = Some x -> _, H' : ?f = Some _ |- _ =>
      let X := fresh in pose proof (H _ H') as X; clear H'
  end; simpl in *; try solve [eauto with lia | congruence].

(** ** Lemmas on the operations *)

Lemma is_connected_true n c :
  is_connected n c = true <-> net_clients n !! c = Some true.
Proof. unfold is_connected. by rewrite bool_decide_eq_true. Qed.

(** Rewrite an [is_connected] test that the hypotheses decide. *)
Ltac rewrite_connected :=
  match goal with
  | |- context [is_connected ?n ?c] =>
      rewrite (proj2 (is_connected_true n c)) by (simpl; by simplify_map_eq)
  end.

Lemma is_connected_false n c :
  net_clients n !! c <> Some true -> is_connected n c = false.
Proof. intros H. unfold is_connected. by apply bool_decide_eq_false. Qed.

Lemma publish_lookup c r m n sid :
  net_subs (publish c r m n) !! sid =
  (fun sb => if String.eqb (sub_dest sb) (topic r)
             then mk_sub (sub_client sb) (sub_dest sb) (sub_queue sb ++ [m])
             else sb) <$> net_subs n !! sid.
Proof. apply lookup_fmap. Qed.

Lemma disconnect_service s n :
  (exec disconnect (s, n)).1 = mk_service None (messageHandlers s).
Proof. by destruct s as [[c|] mh]. Qed.

Lemma unsubscribe_absent_ws r s n :
  messageHandlers s !! r = None -> unsubscribe r (s, n) = ((s, n), Ok tt).
Proof. intros E. unfold unsubscribe. js_unfold. by rewrite E. Qed.

#[global] Instance transport_laws : TransportLaws st.
Proof.
  split.
  - intros r [s n]. simpl. rewrite bool_decide_eq_false. intros E.
    apply unsubscribe_absent_ws. by apply eq_None_not_Some.
  - intros r [s n]. simpl. unfold unsubscribe. js_unfold.
    destruct (messageHandlers s !! r) as [h|] eqn:E; simpl.
    + destruct (is_connected n (h_client h)); simpl; [|done].
      by rewrite lookup_delete_eq.
    + by rewrite E.
  - intros [s n]. unfold disconnect. js_unfold. done.
  - intros r [s n]. simpl. by rewrite disconnect_service.
  - intros [[[c|] mh] n]; reflexivity.
  - intros [s n]. simpl. by rewrite disconnect_service.
  - intros r m [s n]. simpl. rewrite bool_decide_eq_false. intros E.
    unfold sendMessage. js_unfold.
    destruct (stompClient s); [|done]. exfalso. by apply E.
  - intros r [s n]. simpl. unfold exec, unsubscribe. js_unfold.
    destruct (messageHandlers s !! r); [|done].
    by destruct (is_connected _ _).
  - intros r [s n]. simpl. rewrite bool_decide_eq_false. intros E.
    unfold subscribe. js_unfold.
    destruct (stompClient s); [|done]. exfalso. by apply E.
Qed.

(** Running [subscribe] on a connected client. *)
Lemma subscribe_connected r s n c :
  stompClient s = Some c -> net_clients n !! c = Some true ->
  subscribe r (s, n) =
  ((mk_service (Some c) (<[r := mk_handle c (net_fresh n)]> (messageHandlers s)),
    mk_net (net_clients n)
      (<[net_fresh n := mk_sub c (topic r) []]> (net_subs n)) (S (net_fresh n))
      (net_log n)),
   Ok tt).
Proof.
  intros Hc Hn. unfold subscribe. js_unfold. rewrite Hc.
  assert (is_connected n c = true) as -> by by apply is_connected_true.
  done.
Qed.

Lemma sendMessage_connected r m s n c :
  stompClient s = Some c -> net_clients n !! c = Some true ->
  sendMessage r m (s, n) = ((s, publish c r m n), Ok tt).
Proof.
  intros Hc Hn. unfold sendMessage. js_unfold. rewrite Hc.
  assert (is_connected n c = true) as -> by by apply is_connected_true.
  done.
Qed.

Lemma topic_eqb r : String.eqb (topic r) (topic r) = true.
Proof. apply String.eqb_refl. Qed.

#[export] Hint Rewrite topic_eqb : vc_rw.

(** ** Properties of the service *)

(** a frame sent to a room is appended, at the end, to the queue of
    every subscription to that room's topic, whoever owns it (the
    sender's own subscription included), and no other subscription
    changes. *)
Theorem sendMessage_routes r m s n c sid sb :
  stompClient s = Some c -> net_clients n !! c = Some true ->
  net_subs n !! sid = Some sb ->
  net_subs (exec (sendMessage r m) (s, n)).2 !! sid =
  Some (if String.eqb (sub_dest sb) (topic r)
        then mk_sub (sub_client sb) (sub_dest sb) (sub_queue sb ++ [m])
        else sb).
Proof.
  intros Hc Hn Hs. unfold exec.
  rewrite (sendMessage_connected _ _ _ _ c) by done. cbn [fst snd].
  by rewrite publish_lookup, Hs.
Qed.

Lemma sendMessage_routes_witness :
  net_subs (exec (sendMessage "R1" (ice_msg (mk_cand 0 0) (Some "pat1")))
              (mk_service (Some 0) ∅,
               mk_net {[0 := true]} {[1 := mk_sub 0 (topic "R1") []]} 2 [])).2 !! 1
  = Some (mk_sub 0 (topic "R1") [ice_msg (mk_cand 0 0) (Some "pat1")]).
Proof.
  rewrite (sendMessage_routes _ _ _ _ 0 1 (mk_sub 0 (topic "R1") [])); try reflexivity.
Defined.

(** C18: subscribing twice to the same room without unsubscribing leaks the
    first subscription: after [subscribe r; subscribe r; unsubscribe r]
    the service has no handler for the room, yet the relay still holds a
    subscription of this client to the room, and a frame sent to the room
    is queued for it. *)
Theorem resubscribe_leaks r m s n c :
  stompClient s = Some c -> net_clients n !! c = Some true ->
  let t := exec (subscribe r ;; subscribe r ;; unsubscribe r) (s, n) in
  ws_subscribed r t = false /\
  net_subs (exec (sendMessage r m) t).2 !! net_fresh n =
    Some (mk_sub c (topic r) [m]).
Proof.
  intros Hc Hn. cbv zeta. unfold exec.
  do 2 (erewrite bind_ok by (apply subscribe_connected; done)).
  unfold unsubscribe. js_unfold. rewrite lookup_insert_eq. simpl.
  rewrite_connected. simpl. split.
  - by rewrite lookup_delete_eq.
  - rewrite (sendMessage_connected _ _ _ _ c) by done. cbn [fst snd].
    rewrite publish_lookup. cbn [net_subs]. rewrite lookup_delete_ne by lia.
    rewrite lookup_insert_ne by lia. rewrite lookup_insert_eq. simpl.
    by rewrite String.eqb_refl.
Qed.

Lemma resubscribe_leaks_witness :
  let t := exec (subscribe "R1" ;; subscribe "R1" ;; unsubscribe "R1")
             (mk_service (Some 0) ∅, mk_net {[0 := true]} ∅ 1 []) in
  ws_subscribed "R1" t = false /\
  net_subs (exec (sendMessage "R1" (ice_msg (mk_cand 0 0) (Some "doc1"))) t).2 !! 1 =
    Some (mk_sub 0 (topic "R1") [ice_msg (mk_cand 0 0) (Some "doc1")]).
Proof.
  exact (resubscribe_leaks "R1" (ice_msg (mk_cand 0 0) (Some "doc1"))
           (mk_service (Some 0) ∅) (mk_net {[0 := true]} ∅ 1 []) 0 eq_refl eq_refl).
Defined.

(** C19: [disconnect] leaves [messageHandlers] as it is, so a room
    subscribed before a disconnect still has a handler afterwards, and
    [unsubscribe] on it reaches a client that is gone and throws. *)
Theorem unsubscribe_after_disconnect_throws r s n c :
  stompClient s = Some c -> net_clients n !! c = Some true ->
  let t := exec (subscribe r ;; disconnect) (s, n) in
  ws_subscribed r t = true /\ unsubscribe r t = (t, Thrown not_connected).
Proof.
  intros Hc Hn. cbv zeta. unfold exec.
  erewrite bind_ok by (apply subscribe_connected; done).
  unfold disconnect, unsubscribe. js_unfold. rewrite lookup_insert_eq.
  split; [done|]. simpl.
  rewrite is_connected_false by (simpl; by rewrite lookup_delete_eq).
  done.
Qed.

Lemma unsubscribe_after_disconnect_throws_witness :
  let t := exec (subscribe "R1" ;; disconnect)
             (mk_service (Some 0) ∅, mk_net {[0 := true]} ∅ 1 []) in
  ws_subscribed "R1" t = true /\ unsubscribe "R1" t = (t, Thrown not_connected).
Proof.
  exact (unsubscribe_after_disconnect_throws "R1" (mk_service (Some 0) ∅)
           (mk_net {[0 := true]} ∅ 1 []) 0 eq_refl eq_refl).
Defined.

(** a subscription receives the frames of its room in the order they
    were sent: after [sendMessage r m1; sendMessage r m2] on a subscription
    with an empty queue, the relay delivers [m1] and then [m2]. *)
Theorem deliver_in_send_order r m1 m2 s n c sid c' :
  stompClient s = Some c -> net_clients n !! c = Some true ->
  net_subs n !! sid = Some (mk_sub c' (topic r) []) ->
  let n2 := (exec (sendMessage r m1 ;; sendMessage r m2) (s, n)).2 in
  exists n3 n4, deliver sid n2 = Some (m1, n3) /\ deliver sid n3 = Some (m2, n4).
Proof.
  intros Hc Hn Hs. cbv zeta. unfold exec.
  erewrite bind_ok by (apply (sendMessage_connected _ _ _ _ c); done).
  rewrite (sendMessage_connected _ _ _ _ c) by done. cbn [fst snd].
  unfold deliver. rewrite publish_lookup. cbn [net_subs].
  rewrite publish_lookup, Hs. simpl. rewrite ?String.eqb_refl. simpl.
  eexists _, _. split; [done|]. simpl.
  by rewrite lookup_insert_eq.
Qed.

Lemma deliver_in_send_order_witness :
  let n2 := (exec (sendMessage "R1" (ice_msg (mk_cand 0 0) (Some "doc1")) ;;
                   sendMessage "R1" (ice_msg (mk_cand 0 1) (Some "doc1")))
               (mk_service (Some 0) ∅,
                mk_net {[0 := true]} {[1 := mk_sub 2 (topic "R1") []]} 3 [])).2 in
  exists n3 n4, deliver 1 n2 = Some (ice_msg (mk_cand 0 0) (Some "doc1"), n3) /\
                deliver 1 n3 = Some (ice_msg (mk_cand 0 1) (Some "doc1"), n4).
Proof.
  exact (deliver_in_send_order "R1" _ _ (mk_service (Some 0) ∅)
           (mk_net {[0 := true]} {[1 := mk_sub 2 (topic "R1") []]} 3 []) 0 1 2
           eq_refl eq_refl eq_refl).
Defined.


Lemma wf_init : wf (init_service, init_net).
Proof. cbn. split_and!; intros *; rewrite ?lookup_empty; discriminate. Qed.


End WebSocketService.
