(* ===== verification/Browser.v ===== *)
(** * Browser primitives used by the video call (environment model)

    [VideoCall.jsx] drives three browser objects that are not part of the
    repository: [MediaStreamTrack]s (from [getUserMedia]), the
    [MediaStream] grouping them, and [RTCPeerConnection].  This file
    models what the component observes of them, following the W3C WebRTC
    and Media Capture rules:
    - a track has a kind, an [enabled] flag the page may flip, and a
      [readyState] that [stop()] ends for good;
    - a peer connection has a signaling state (JSEP): [setLocalDescription]
      of an offer needs [stable] and moves to [have-local-offer];
      [setRemoteDescription] of an offer needs [stable] and moves to
      [have-remote-offer]; an answer completes the exchange from the
      matching state; [createAnswer] needs [have-remote-offer];
      [addIceCandidate] needs a remote description; every method of a
      closed connection throws [InvalidStateError]; [close()] is
      idempotent.
    SDP bodies, codecs and ICE connectivity checks are abstracted away: a
    description records its kind, its creator and the stream it announces,
    which is what the remote [ontrack] event reports. *)

From S2P Require Import Prelude Signaling.

Inductive track_kind := Audio | Video.

#[export] Instance track_kind_eq_dec : EqDecision track_kind.
Proof. solve_decision. Defined.

Record track := mk_track {
  tr_kind : track_kind;
  tr_enabled : bool;
  tr_live : bool
}.

(** A [MediaStream]: its id and its tracks (ids into the track store). *)
Record media_stream := mk_stream {
  ms_id : nat;
  ms_tracks : list nat
}.

Inductive signaling_state := Stable | HaveLocalOffer | HaveRemoteOffer.

#[export] Instance signaling_state_eq_dec : EqDecision signaling_state.
Proof. solve_decision. Defined.

Record peer := mk_peer {
  pc_id : nat;
  pc_closed : bool;
  pc_state : signaling_state;
  pc_local : option session_description;
  pc_remote : option session_description;
  pc_senders : list nat;
  pc_stream : option nat;
  pc_remote_cands : list ice_candidate;
  pc_gathered : nat
}.

(** [new RTCPeerConnection(configuration)]. *)
Definition new_peer (id : nat) : peer :=
  mk_peer id false Stable None None [] None [] 0.

Definition pc_ensure_open (p : peer) : result unit :=
  if pc_closed p then Thrown invalid_state else Ok tt.

(** [pc.addTrack(track, stream)]. *)
Definition pc_addTrack (tid sid : nat) (p : peer) : result peer :=
  if pc_closed p then Thrown invalid_state
  else Ok (mk_peer (pc_id p) false (pc_state p) (pc_local p) (pc_remote p)
             (pc_senders p ++ [tid]) (Some sid) (pc_remote_cands p) (pc_gathered p)).

(** [pc.createOffer()]. *)
Definition pc_createOffer (p : peer) : result session_description :=
  if pc_closed p then Thrown invalid_state
  else Ok (mk_sdp SdpOffer (pc_id p) (pc_stream p)).

(** [pc.createAnswer()]. *)
Definition pc_createAnswer (p : peer) : result session_description :=
  if pc_closed p then Thrown invalid_state
  else match pc_state p with
       | HaveRemoteOffer => Ok (mk_sdp SdpAnswer (pc_id p) (pc_stream p))
       | _ => Thrown invalid_state
       end.

Definition with_state (st : signaling_state) (loc rem : option session_description)
  (p : peer) : peer :=
  mk_peer (pc_id p) (pc_closed p) st loc rem (pc_senders p) (pc_stream p)
    (pc_remote_cands p) (pc_gathered p).

(** [pc.setLocalDescription(d)]. *)
Definition pc_setLocal (d : session_description) (p : peer) : result peer :=
  if pc_closed p then Thrown invalid_state
  else match sdp_kind d, pc_state p with
       | SdpOffer, Stable => Ok (with_state HaveLocalOffer (Some d) (pc_remote p) p)
       | SdpAnswer, HaveRemoteOffer => Ok (with_state Stable (Some d) (pc_remote p) p)
       | _, _ => Thrown invalid_state
       end.

(** [pc.setRemoteDescription(d)]. *)
Definition pc_setRemote (d : session_description) (p : peer) : result peer :=
  if pc_closed p then Thrown invalid_state
  else match sdp_kind d, pc_state p with
       | SdpOffer, Stable => Ok (with_state HaveRemoteOffer (pc_local p) (Some d) p)
       | SdpAnswer, HaveLocalOffer => Ok (with_state Stable (pc_local p) (Some d) p)
       | _, _ => Thrown invalid_state
       end.

(** [pc.addIceCandidate(c)]. *)
Definition pc_addIce (c : ice_candidate) (p : peer) : result peer :=
  if pc_closed p then Thrown invalid_state
  else match pc_remote p with
       | None => Thrown invalid_state
       | Some _ =>
           Ok (mk_peer (pc_id p) false (pc_state p) (pc_local p) (pc_remote p)
                 (pc_senders p) (pc_stream p) (pc_remote_cands p ++ [c])
                 (pc_gathered p))
       end.

(** [pc.close()]. *)
Definition pc_close (p : peer) : peer :=
  mk_peer (pc_id p) true (pc_state p) (pc_local p) (pc_remote p)
    (pc_senders p) (pc_stream p) (pc_remote_cands p) (pc_gathered p).

(** The ICE agent gathers a local candidate: possible once a local
    description is set and the connection is open. *)
Definition pc_gather (p : peer) : option (ice_candidate * peer) :=
  if pc_closed p then None
  else match pc_local p with
       | None => None
       | Some _ =>
           Some (mk_cand (pc_id p) (pc_gathered p),
                 mk_peer (pc_id p) false (pc_state p) (pc_local p) (pc_remote p)
                   (pc_senders p) (pc_stream p) (pc_remote_cands p)
                   (S (pc_gathered p)))
       end.

(** The offer/answer exchange is complete on this connection. *)
Definition negotiated (p : peer) : bool :=
  negb (pc_closed p) && bool_decide (pc_state p = Stable) &&
  bool_decide (is_Some (pc_local p)) && bool_decide (is_Some (pc_remote p)).

(** The outcome of [navigator.mediaDevices.getUserMedia(...)], chosen by
    the user and the devices. *)
Inductive media_outcome :=
| Granted
| Denied (e : js_error).

(** ** Lemmas on the primitives *)

Lemma pc_close_idem p : pc_close (pc_close p) = pc_close p.
Proof. reflexivity. Qed.

Lemma pc_closed_throws_setRemote d p :
  pc_closed p = true -> pc_setRemote d p = Thrown invalid_state.
Proof. intros H. unfold pc_setRemote. by rewrite H. Qed.

Lemma pc_closed_throws_addIce c p :
  pc_closed p = true -> pc_addIce c p = Thrown invalid_state.
Proof. intros H. unfold pc_addIce. by rewrite H. Qed.

Lemma pc_setRemote_answer_needs_offer d p p' :
  sdp_kind d = SdpAnswer -> pc_setRemote d p = Ok p' ->
  pc_state p = HaveLocalOffer /\ pc_state p' = Stable /\ pc_remote p' = Some d.
Proof.
  unfold pc_setRemote. intros Hk.
  destruct (pc_closed p); [done|]. rewrite Hk.
  destruct (pc_state p); intros H; simplify_eq; done.
Qed.

Lemma pc_addIce_needs_remote c p p' :
  pc_addIce c p = Ok p' -> is_Some (pc_remote p).
Proof.
  unfold pc_addIce. destruct (pc_closed p); [done|].
  destruct (pc_remote p); [by eauto|done].
Qed.
