(* ===== verification/CallState.v ===== *)
(** * The state of the [VideoCall] component

    [src/src/components/VideoCall.jsx] keeps its data in three places,
    all modelled here:
    - React state ([useState]): [localStream], [remoteStream], [error],
      [isAudioEnabled], [isVideoEnabled], [isLoading], [remoteUser]
      (record [react]); a setter called after the component unmounted does
      nothing ([set_react]);
    - a ref: [peerConnection.current] (an id into the store of peer
      connections);
    - browser objects reachable from those: the peer connections and the
      media tracks, stored by id, so that a track shared by the local
      stream and a peer connection's sender is one object.
    The component's parameters ([roomId], [role], [userId], [userName]
    from the URL, and [window.location]) are [props].  Pending
    asynchronous work is explicit: a [getUserMedia] promise the code
    awaits ([awaiting_media], with the caller's continuation) and the
    [onConnected] callback given to [WebSocketService.connect]
    ([awaiting_connect], with the stream it captured).  [nav] records
    [navigate(...)].

    Every operation of the component is a [js (local * T)] computation,
    generic in the signaling transport [T] (an instance of
    [Transport.SignalingTransport]); [tr] lifts a transport call. *)

From S2P Require Import Prelude Signaling Transport Browser.

(** The route and query parameters, and the page's location. *)
Record props := mk_props {
  p_roomId : option string;
  p_role : option string;
  p_userId : option string;
  p_userName : option string;
  p_protocol : string;
  p_hostname : string
}.

(** Who awaits [requestMediaPermissions()]: [initializeCall] or
    [retryCall]. *)
Inductive cont := AfterInit | AfterRetry.

Record react := mk_react {
  localStream : option media_stream;
  remoteStream : option nat;
  error : option string;
  isAudioEnabled : bool;
  isVideoEnabled : bool;
  isLoading : bool;
  remoteUser : option remote_user
}.

Record local := mk_local {
  ui : react;
  peerConnection : option nat;
  pcs : gmap nat peer;
  tracks : gmap nat track;
  fresh : nat;
  mounted : bool;
  awaiting_media : option cont;
  awaiting_connect : option media_stream;
  nav : option string
}.

Definition set_localStream (x : option media_stream) (r : react) : react :=
  mk_react x (remoteStream r) (error r) (isAudioEnabled r) (isVideoEnabled r) (isLoading r) (remoteUser r).
Definition set_remoteStream (x : option nat) (r : react) : react :=
  mk_react (localStream r) x (error r) (isAudioEnabled r) (isVideoEnabled r) (isLoading r) (remoteUser r).
Definition set_error (x : option string) (r : react) : react :=
  mk_react (localStream r) (remoteStream r) x (isAudioEnabled r) (isVideoEnabled r) (isLoading r) (remoteUser r).
Definition set_isAudioEnabled (x : bool) (r : react) : react :=
  mk_react (localStream r) (remoteStream r) (error r) x (isVideoEnabled r) (isLoading r) (remoteUser r).
Definition set_isVideoEnabled (x : bool) (r : react) : react :=
  mk_react (localStream r) (remoteStream r) (error r) (isAudioEnabled r) x (isLoading r) (remoteUser r).
Definition set_isLoading (x : bool) (r : react) : react :=
  mk_react (localStream r) (remoteStream r) (error r) (isAudioEnabled r) (isVideoEnabled r) x (remoteUser r).
Definition set_remoteUser (x : option remote_user) (r : react) : react :=
  mk_react (localStream r) (remoteStream r) (error r) (isAudioEnabled r) (isVideoEnabled r) (isLoading r) x.

Definition set_ui (x : react) (l : local) : local :=
  mk_local x (peerConnection l) (pcs l) (tracks l) (fresh l) (mounted l) (awaiting_media l) (awaiting_connect l) (nav l).
Definition set_peerConnection (x : option nat) (l : local) : local :=
  mk_local (ui l) x (pcs l) (tracks l) (fresh l) (mounted l) (awaiting_media l) (awaiting_connect l) (nav l).
Definition set_pcs (x : gmap nat peer) (l : local) : local :=
  mk_local (ui l) (peerConnection l) x (tracks l) (fresh l) (mounted l) (awaiting_media l) (awaiting_connect l) (nav l).
Definition set_tracks (x : gmap nat track) (l : local) : local :=
  mk_local (ui l) (peerConnection l) (pcs l) x (fresh l) (mounted l) (awaiting_media l) (awaiting_connect l) (nav l).
Definition set_fresh (x : nat) (l : local) : local :=
  mk_local (ui l) (peerConnection l) (pcs l) (tracks l) x (mounted l) (awaiting_media l) (awaiting_connect l) (nav l).
Definition set_mounted (x : bool) (l : local) : local :=
  mk_local (ui l) (peerConnection l) (pcs l) (tracks l) (fresh l) x (awaiting_media l) (awaiting_connect l) (nav l).
Definition set_awaiting_media (x : option cont) (l : local) : local :=
  mk_local (ui l) (peerConnection l) (pcs l) (tracks l) (fresh l) (mounted l) x (awaiting_connect l) (nav l).
Definition set_awaiting_connect (x : option media_stream) (l : local) : local :=
  mk_local (ui l) (peerConnection l) (pcs l) (tracks l) (fresh l) (mounted l) (awaiting_media l) x (nav l).
Definition set_nav (x : option string) (l : local) : local :=
  mk_local (ui l) (peerConnection l) (pcs l) (tracks l) (fresh l) (mounted l) (awaiting_media l) (awaiting_connect l) x.

(** The initial state (the [useState] initial values; [isLoading] starts
    [true]). *)
Definition init_react : react :=
  mk_react None None None true true true None.

Definition init_local : local :=
  mk_local init_react None ∅ ∅ 0 true None None None.

Section State.
Context {T : Type} `{SignalingTransport T}.

Abbreviation St := (local * T)%type.

(** A React state update: ignored once the component has unmounted. *)
Definition set_react (f : react -> react) : js St unit :=
  modify (fun '(l, t) =>
    (if mounted l then set_ui (f (ui l)) l else l, t)).

Definition upd (f : local -> local) : js St unit :=
  modify (fun '(l, t) => (f l, t)).

Definition read {A} (f : local -> A) : js St A := gets (fun '(l, _) => f l).

(** A call into the signaling transport. *)
Definition tr {A} (c : js T A) : js St A :=
  fun '(l, t) => let '(t', r) := c t in ((l, t'), r).

(** A fresh object id. *)
Definition alloc : js St nat :=
  '(l, t) ← get;
  upd (set_fresh (S (fresh l))) ;; mret (fresh l).

Definition null_access : js_error :=
  type_error "Cannot read properties of null".

(** The object [peerConnection.current]; reading a method of [null]
    throws. *)
Definition current_pc : js St peer :=
  '(l, _) ← get;
  match peerConnection l with
  | None => throw null_access
  | Some id =>
      match pcs l !! id with
      | Some p => mret p
      | None => throw null_access
      end
  end.

(** Store a result of a peer-connection method, or throw its error. *)
Definition lift_result {A} (r : result A) : js St A :=
  match r with Ok a => mret a | Thrown e => throw e end.

Definition store_pc (p : peer) : js St unit :=
  upd (fun l => set_pcs (<[pc_id p := p]> (pcs l)) l).

End State.

Lemma set_react_run {T} f l (t : T) :
  set_react f (l, t) = ((if mounted l then set_ui (f (ui l)) l else l, t), Ok tt).
Proof. reflexivity. Qed.

Lemma upd_run {T} f l (t : T) : upd f (l, t) = ((f l, t), Ok tt).
Proof. reflexivity. Qed.

(** ** Computations that do not touch the transport *)

Section Frame.
Context {T : Type}.

(** [c] leaves the transport state as it found it, whatever it does to
    the component (and whether or not it throws). *)
Definition local_only {A} (c : js (local * T) A) : Prop :=
  forall l t, (fst (c (l, t))).2 = t.

Lemma local_only_ret {A} (a : A) : local_only (mret a).
Proof. intros l t. reflexivity. Qed.

Lemma local_only_throw {A} e : local_only (@throw _ A e).
Proof. intros l t. reflexivity. Qed.

Lemma local_only_bind {A B} (c : js (local * T) A) (f : A -> js (local * T) B) :
  local_only c -> (forall a, local_only (f a)) -> local_only (c ≫= f).
Proof.
  intros Hc Hf l t. cbv [mbind js_bind].
  specialize (Hc l t). destruct (c (l, t)) as [[l' t'] [a|e]]; simpl in *; subst.
  - apply Hf.
  - reflexivity.
Qed.

Lemma local_only_try {A} (c : js (local * T) A) h :
  local_only c -> (forall e, local_only (h e)) -> local_only (js_try c h).
Proof.
  intros Hc Hh l t. unfold js_try.
  specialize (Hc l t). destruct (c (l, t)) as [[l' t'] [a|e]]; simpl in *; subst.
  - reflexivity.
  - apply Hh.
Qed.

Lemma local_only_get : local_only (@get (local * T)).
Proof. intros l t. reflexivity. Qed.

Lemma local_only_upd f : local_only (@upd T f).
Proof. intros l t. reflexivity. Qed.

Lemma local_only_set_react f : local_only (@set_react T f).
Proof. intros l t. reflexivity. Qed.

Lemma local_only_alloc : local_only (@alloc T).
Proof. intros l t. reflexivity. Qed.

Lemma local_only_current_pc : local_only (@current_pc T).
Proof.
  intros l t. unfold current_pc. cbv [mbind js_bind get].
  destruct (peerConnection l); [destruct (pcs l !! _)|]; reflexivity.
Qed.

Lemma local_only_lift_result {A} (r : result A) : local_only (@lift_result T A r).
Proof. intros l t. by destruct r. Qed.

Lemma local_only_store_pc pc : local_only (@store_pc T pc).
Proof. intros l t. reflexivity. Qed.

Lemma local_only_skip : local_only (@skip (local * T)).
Proof. intros l t. reflexivity. Qed.

Lemma local_only_forEach {A} (f : A -> js (local * T) unit) xs :
  (forall x, local_only (f x)) -> local_only (forEach f xs).
Proof.
  intros Hf. induction xs as [|x xs IH]; simpl;
    [apply local_only_skip|by apply local_only_bind].
Qed.

End Frame.

Create HintDb frame discriminated.
#[export] Hint Resolve local_only_ret local_only_throw local_only_bind local_only_try
  local_only_get local_only_upd local_only_set_react local_only_alloc
  local_only_current_pc local_only_lift_result local_only_store_pc local_only_skip
  local_only_forEach : frame.

(** Prove [local_only] of a composite computation. *)
Ltac solve_local :=
  repeat match goal with
  | |- local_only (match ?x with _ => _ end) => destruct x
  | |- local_only (if ?b then _ else _) => destruct b
  | |- local_only (_ ≫= _) => apply local_only_bind; [|intros ?]
  | |- local_only (js_try _ _) => apply local_only_try; [|intros ?]
  | |- local_only (forEach _ _) => apply local_only_forEach; intros ?
  | |- _ => progress (eauto with frame)
  end.
