(* ===== verification/Media.v ===== *)
(** * Local media: [requestMediaPermissions], [toggleAudio], [toggleVideo]

    From [src/src/components/VideoCall.jsx].  [requestMediaPermissions]
    is split at its [await]: [request_begin] runs up to the
    [getUserMedia] call (or through the [catch] block when the insecure
    context check throws first), [request_resume] runs from the resolution
    of the promise.  The browser's part, creating the stream and its two
    tracks when access is granted, is [acquire]. *)

From S2P Require Import Prelude Signaling Transport Browser CallState.

(** ** Messages *)

Definition msg_not_allowed : string :=
  "Please allow camera and microphone access in your browser settings and click Retry.".
Definition msg_not_found : string :=
  "No camera or microphone found. Please connect a device and click Retry.".
Definition msg_not_readable : string :=
  "Your camera or microphone is already in use by another application. Please close other applications and click Retry.".
Definition msg_https : string :=
  "Video calls require a secure HTTPS connection in production. Please ensure you are using HTTPS.".
Definition msg_media_failed (m : string) : string :=
  "Failed to access media devices: " +:+ m.

(** The error the insecure-context check throws. *)
Definition https_error : js_error :=
  mk_error "Error" "Video calls require HTTPS in production environment".

(** [window.location.protocol !== 'https:' &&
     window.location.hostname !== 'localhost']. *)
Definition insecure (p : props) : bool :=
  negb (String.eqb (p_protocol p) "https:") &&
  negb (String.eqb (p_hostname p) "localhost").

(** The chain of tests in the [catch] block of
    [requestMediaPermissions]. *)
Definition media_error_message (err : js_error) : string :=
  if String.eqb (err_name err) "NotAllowedError" then msg_not_allowed
  else if String.eqb (err_name err) "NotFoundError" then msg_not_found
  else if String.eqb (err_name err) "NotReadableError" then msg_not_readable
  else if str_includes (err_message err) "HTTPS" then msg_https
  else msg_media_failed (err_message err).

Section Media.
Context {T : Type} `{SignalingTransport T} (p : props).
Abbreviation St := (local * T)%type.

(** The [catch] block: [setIsLoading(false)], [setError(...)],
    [return null]. *)
Definition request_failed (err : js_error) : js St (option media_stream) :=
  set_react (set_isLoading false) ;;
  set_react (set_error (Some (media_error_message err))) ;;
  mret None.

(** From [setIsLoading(true)] to the [await]: [true] when the
    [getUserMedia] promise is now awaited, [false] when the function
    already returned [null]. *)
Definition request_begin : js St bool :=
  js_try
    (set_react (set_isLoading true) ;;
     if insecure p then throw https_error else mret true)
    (fun err => request_failed err ;; mret false).

(** The browser grants access: a fresh stream with a live, enabled audio
    track and a live, enabled video track. *)
Definition acquire : js St media_stream :=
  a ← alloc; v ← alloc; sid ← alloc;
  upd (fun l => set_tracks (<[v := mk_track Video true true]>
                             (<[a := mk_track Audio true true]> (tracks l))) l) ;;
  mret (mk_stream sid [a; v]).

(** From the resolution of [getUserMedia]: [setLocalStream(stream)],
    [setIsLoading(false)], [return stream]; or the [catch] block. *)
Definition request_resume (o : media_outcome) : js St (option media_stream) :=
  match o with
  | Granted =>
      s ← acquire;
      set_react (set_localStream (Some s)) ;;
      set_react (set_isLoading false) ;;
      mret (Some s)
  | Denied err => request_failed err
  end.

(** [track.enabled = !track.enabled] on one track of the stream, when it
    is of the kind that [getAudioTracks()] / [getVideoTracks()] select. *)
Definition flip_track (k : track_kind) (l : local) (tid : nat) : local :=
  match tracks l !! tid with
  | Some t =>
      if decide (tr_kind t = k)
      then set_tracks (<[tid := mk_track (tr_kind t) (negb (tr_enabled t))
                                  (tr_live t)]> (tracks l)) l
      else l
  | None => l
  end.

(** The [forEach] over the stream's tracks of that kind. *)
Definition flip_kind (k : track_kind) (s : media_stream) (l : local) : local :=
  foldl (flip_track k) l (ms_tracks s).

(** [toggleAudio]. *)
Definition toggleAudio : js St unit :=
  '(l, _) ← get;
  match localStream (ui l) with
  | None => skip
  | Some s =>
      upd (flip_kind Audio s) ;;
      set_react (set_isAudioEnabled (negb (isAudioEnabled (ui l))))
  end.

(** [toggleVideo]. *)
Definition toggleVideo : js St unit :=
  '(l, _) ← get;
  match localStream (ui l) with
  | None => skip
  | Some s =>
      upd (flip_kind Video s) ;;
      set_react (set_isVideoEnabled (negb (isVideoEnabled (ui l))))
  end.

End Media.

(** ** Lemmas on flipping tracks *)

Lemma set_tracks_twice m m' l : set_tracks m (set_tracks m' l) = set_tracks m l.
Proof. reflexivity. Qed.

Lemma set_tracks_same l : set_tracks (tracks l) l = l.
Proof. by destruct l. Qed.

Lemma tracks_set_tracks m l : tracks (set_tracks m l) = m.
Proof. reflexivity. Qed.

#[export] Hint Rewrite set_tracks_twice set_tracks_same tracks_set_tracks : vc_rw.

Lemma flip_track_tracks k l tid :
  flip_track k l tid = set_tracks (tracks (flip_track k l tid)) l.
Proof.
  unfold flip_track. destruct (tracks l !! tid); [case_decide|];
    by autorewrite with vc_rw.
Qed.

Lemma flip_track_invol k l tid : flip_track k (flip_track k l tid) tid = l.
Proof.
  unfold flip_track. destruct (tracks l !! tid) as [t|] eqn:E; [|by rewrite E].
  case_decide; [|by rewrite E, decide_False].
  simpl. rewrite lookup_insert_eq. simpl. rewrite decide_True by done.
  autorewrite with vc_rw. rewrite insert_insert_eq, negb_involutive.
  destruct t. simpl. rewrite insert_id by done. by autorewrite with vc_rw.
Qed.

Lemma flip_track_comm k l a b :
  flip_track k (flip_track k l a) b = flip_track k (flip_track k l b) a.
Proof.
  destruct (decide (a = b)) as [->|Hab]; [done|].
  unfold flip_track.
  destruct (tracks l !! a) as [ta|] eqn:Ea, (tracks l !! b) as [tb|] eqn:Eb;
    repeat (simpl; rewrite ?Ea, ?Eb, ?lookup_insert_ne by done;
            try case_decide); try done.
  simpl. by rewrite insert_insert_ne by done.
Qed.

Lemma flip_fold_comm k xs l a :
  foldl (flip_track k) (flip_track k l a) xs =
  flip_track k (foldl (flip_track k) l xs) a.
Proof.
  revert l. induction xs as [|x xs IH]; intros l; [done|].
  simpl. by rewrite flip_track_comm, IH.
Qed.

Lemma flip_kind_invol k s l : flip_kind k s (flip_kind k s l) = l.
Proof.
  unfold flip_kind. destruct s as [sid xs]. simpl.
  revert l. induction xs as [|x xs IH]; intros l; [done|].
  simpl. rewrite flip_fold_comm, IH. apply flip_track_invol.
Qed.

Lemma flip_kind_set k s l : flip_kind k s l = set_tracks (tracks (flip_kind k s l)) l.
Proof.
  unfold flip_kind. generalize (ms_tracks s) as xs. intros xs. revert l.
  induction xs as [|x xs IH]; intros l; simpl; [by rewrite set_tracks_same|].
  rewrite IH, (flip_track_tracks k l x). by autorewrite with vc_rw.
Qed.

Lemma flip_kind_ui k s l : ui (flip_kind k s l) = ui l.
Proof. by rewrite flip_kind_set. Qed.

Lemma flip_kind_mounted k s l : mounted (flip_kind k s l) = mounted l.
Proof. by rewrite flip_kind_set. Qed.

#[export] Hint Rewrite flip_kind_ui flip_kind_mounted : vc_rw.

(** [toggleAudio] flips the audio tracks and the flag, nothing else. *)
Lemma toggleAudio_run {T} l (t : T) s :
  localStream (ui l) = Some s ->
  toggleAudio (l, t) =
  ((let l' := flip_kind Audio s l in
    if mounted l then set_ui (set_isAudioEnabled (negb (isAudioEnabled (ui l))) (ui l)) l'
    else l', t), Ok tt).
Proof.
  intros E. unfold toggleAudio. js_unfold. rewrite E. simpl.
  unfold set_react. js_unfold. by autorewrite with vc_rw.
Qed.

Lemma toggleVideo_run {T} l (t : T) s :
  localStream (ui l) = Some s ->
  toggleVideo (l, t) =
  ((let l' := flip_kind Video s l in
    if mounted l then set_ui (set_isVideoEnabled (negb (isVideoEnabled (ui l))) (ui l)) l'
    else l', t), Ok tt).
Proof.
  intros E. unfold toggleVideo. js_unfold. rewrite E. simpl.
  unfold set_react. js_unfold. by autorewrite with vc_rw.
Qed.

Lemma flip_kind_set_ui k s u l :
  flip_kind k s (set_ui u l) = set_ui u (flip_kind k s l).
Proof.
  unfold flip_kind. generalize (ms_tracks s) as xs. intros xs. revert l.
  induction xs as [|x xs IH]; intros l; simpl; [done|].
  rewrite <- IH. f_equal. unfold flip_track. simpl.
  destruct (tracks l !! x); [case_decide|]; reflexivity.
Qed.

Lemma set_ui_same l : set_ui (ui l) l = l.
Proof. by destruct l. Qed.

Lemma set_ui_twice u u' l : set_ui u (set_ui u' l) = set_ui u l.
Proof. reflexivity. Qed.

Lemma set_isAudioEnabled_twice b b' r :
  set_isAudioEnabled b (set_isAudioEnabled b' r) = set_isAudioEnabled b r.
Proof. reflexivity. Qed.

Lemma set_isAudioEnabled_same r : set_isAudioEnabled (isAudioEnabled r) r = r.
Proof. by destruct r. Qed.

#[export] Hint Rewrite set_ui_same set_ui_twice set_isAudioEnabled_twice
  set_isAudioEnabled_same flip_kind_set_ui flip_kind_invol negb_involutive : vc_rw.

Lemma flip_kind_other k s l tid tk :
  tracks l !! tid = Some tk -> tr_kind tk <> k ->
  tracks (flip_kind k s l) !! tid = Some tk.
Proof.
  unfold flip_kind. generalize (ms_tracks s) as xs. intros xs. revert l.
  induction xs as [|x xs IH]; intros l Hl Hk; simpl; [done|].
  apply IH; [|done]. unfold flip_track.
  destruct (tracks l !! x) as [tx|] eqn:Ex; [|done].
  case_decide; [|done]. simpl.
  destruct (decide (x = tid)) as [->|Hne]; [congruence|].
  by rewrite lookup_insert_ne.
Qed.

Lemma toggle_none {T} k l (t : T) :
  localStream (ui l) = None ->
  (match k with Audio => toggleAudio | Video => toggleVideo end) (l, t) =
  ((l, t), Ok tt).
Proof. intros E. destruct k; unfold toggleAudio, toggleVideo; js_unfold; by rewrite E. Qed.

(** toggling the microphone twice gives back the component's state
    (tracks, flags, everything), and a toggle never changes
    [isVideoEnabled] nor any video track. *)
Theorem toggleAudio_twice {T} l (t : T) :
  exec (toggleAudio ;; toggleAudio) (l, t) = (l, t) /\
  isVideoEnabled (ui (exec toggleAudio (l, t)).1) = isVideoEnabled (ui l) /\
  (forall tid tk, tracks l !! tid = Some tk -> tr_kind tk = Video ->
     tracks (exec toggleAudio (l, t)).1 !! tid = Some tk).
Proof.
  unfold exec. destruct (localStream (ui l)) as [s|] eqn:E.
  - erewrite bind_ok by (apply toggleAudio_run; done).
    rewrite (toggleAudio_run l t s E).
    destruct (mounted l) eqn:M; simpl;
      (rewrite toggleAudio_run with (s := s);
       [|simpl; by autorewrite with vc_rw]); simpl; autorewrite with vc_rw;
      rewrite ?M; simpl; autorewrite with vc_rw;
      (split; [done|]); (split; [done|]);
      intros tid tk Htk Hv; apply flip_kind_other; congruence.
  - rewrite (bind_ok _ _ _ _ _ (toggle_none Audio l t E)).
    by rewrite (toggle_none Audio l t E).
Qed.

Lemma msg_media_failed_prefix m :
  String.prefix "Failed to access" (msg_media_failed m) = true.
Proof. reflexivity. Qed.

(** [requestMediaPermissions] gives each failure kind of the
    specification its own message: permission denied
    ([NotAllowedError]), no device ([NotFoundError]), device busy
    ([NotReadableError]), insecure context (the code's own HTTPS error),
    and any other error, whose message is repeated; the five messages are
    pairwise distinct. *)
Theorem media_error_messages_distinct m1 m2 m3 n m :
  n <> "NotAllowedError"%string -> n <> "NotFoundError"%string ->
  n <> "NotReadableError"%string -> str_includes m "HTTPS" = false ->
  media_error_message (mk_error "NotAllowedError" m1) = msg_not_allowed /\
  media_error_message (mk_error "NotFoundError" m2) = msg_not_found /\
  media_error_message (mk_error "NotReadableError" m3) = msg_not_readable /\
  media_error_message https_error = msg_https /\
  media_error_message (mk_error n m) = msg_media_failed m /\
  NoDup [msg_not_allowed; msg_not_found; msg_not_readable; msg_https;
         msg_media_failed m].
Proof.
  intros H1 H2 H3 Hm. unfold media_error_message. simpl.
  repeat split; try reflexivity.
  - case_streq. by rewrite Hm.
  - assert (Hp : forall x, x = msg_media_failed m ->
                 String.prefix "Failed to access" x = true)
      by (intros ? ->; apply msg_media_failed_prefix).
    repeat (apply NoDup_cons_2; [|]); [..|apply NoDup_nil_2];
      rewrite ?elem_of_cons, ?elem_of_nil; intros Hin;
      repeat destruct Hin as [Hin|Hin]; try discriminate; try done;
      first [apply eq_sym, Hp in Hin | apply Hp in Hin]; discriminate.
Qed.

Lemma media_error_messages_distinct_witness :
  media_error_message (mk_error "NotAllowedError" "denied") = msg_not_allowed /\
  media_error_message (mk_error "NotFoundError" "none") = msg_not_found /\
  media_error_message (mk_error "NotReadableError" "busy") = msg_not_readable /\
  media_error_message https_error = msg_https /\
  media_error_message (mk_error "AbortError" "aborted") = msg_media_failed "aborted" /\
  NoDup [msg_not_allowed; msg_not_found; msg_not_readable; msg_https;
         msg_media_failed "aborted"].
Proof.
  apply (media_error_messages_distinct "denied" "none" "busy" "AbortError" "aborted");
    [discriminate | discriminate | discriminate | reflexivity].
Defined.

(** ** The flags mirror the tracks *)

(** The invariant the specification states for the media session
    ("[audioEnabled]/[videoEnabled] mirror live track enablement"): every
    track of the local stream is enabled exactly when the flag of its kind
    is set. *)
Definition tracks_synced (l : local) : Prop :=
  match localStream (ui l) with
  | None => True
  | Some s =>
      NoDup (ms_tracks s) /\
      forall tid tk, tid ∈ ms_tracks s -> tracks l !! tid = Some tk ->
        tr_enabled tk = match tr_kind tk with
                        | Audio => isAudioEnabled (ui l)
                        | Video => isVideoEnabled (ui l)
                        end
  end.

Lemma flip_fold_lookup k xs l tid :
  NoDup xs ->
  tracks (foldl (flip_track k) l xs) !! tid =
  if decide (tid ∈ xs)
  then (fun tk => if decide (tr_kind tk = k)
                  then mk_track (tr_kind tk) (negb (tr_enabled tk)) (tr_live tk)
                  else tk) <$> tracks l !! tid
  else tracks l !! tid.
Proof.
  revert l. induction xs as [|x xs IH]; intros l Hnd; cbn [foldl].
  { rewrite decide_False by apply not_elem_of_nil. done. }
  apply NoDup_cons in Hnd as [Hx Hnd]. rewrite IH by done.
  unfold flip_track.
  destruct (decide (tid = x)) as [->|Hne].
  - rewrite decide_False by done. rewrite decide_True by (apply elem_of_cons; auto).
    destruct (tracks l !! x) as [tx|] eqn:E; [|by rewrite E].
    cbn [fmap option_fmap option_map].
    destruct (decide (tr_kind tx = k));
      [by rewrite tracks_set_tracks, lookup_insert_eq|by rewrite E].
  - assert (Hl : tracks (match tracks l !! x with
                         | Some t => if decide (tr_kind t = k) then
                             set_tracks (<[x := mk_track (tr_kind t) (negb (tr_enabled t))
                                                  (tr_live t)]> (tracks l)) l else l
                         | None => l end) !! tid = tracks l !! tid).
    { destruct (tracks l !! x) as [tx|]; [|done].
      destruct (decide (tr_kind tx = k)); [|done].
      rewrite tracks_set_tracks. by rewrite lookup_insert_ne by congruence. }
    rewrite Hl. repeat case_decide; try done; exfalso; set_solver.
Qed.

(** The flag of a kind, and the toggle of a kind. *)
Definition flag (k : track_kind) (r : react) : bool :=
  match k with Audio => isAudioEnabled r | Video => isVideoEnabled r end.

Definition set_flag (k : track_kind) (b : bool) (r : react) : react :=
  match k with Audio => set_isAudioEnabled b r | Video => set_isVideoEnabled b r end.

Definition toggle {T} (k : track_kind) : js (local * T) unit :=
  match k with Audio => toggleAudio | Video => toggleVideo end.

Lemma toggle_run {T} k l (t : T) s :
  localStream (ui l) = Some s ->
  toggle k (l, t) =
  ((if mounted l then set_ui (set_flag k (negb (flag k (ui l))) (ui l)) (flip_kind k s l)
    else flip_kind k s l, t), Ok tt).
Proof. intros E. destruct k; [apply toggleAudio_run|apply toggleVideo_run]; done. Qed.

Lemma toggle_keeps_synced {T} k l (t : T) :
  mounted l = true -> tracks_synced l -> tracks_synced (exec (toggle k) (l, t)).1.
Proof.
  intros M. unfold tracks_synced, exec.
  destruct (localStream (ui l)) as [s|] eqn:E.
  2:{ intros _. unfold toggle. rewrite (toggle_none k l t E). simpl. by rewrite E. }
  intros [Hnd Hs]. rewrite (toggle_run k l t s E), M. simpl.
  destruct k; simpl; rewrite E; (split; [done|]); intros tid tk Hin Htk;
    unfold flip_kind in Htk; rewrite flip_fold_lookup, decide_True in Htk by done;
    apply fmap_Some in Htk as [tk0 [Htk0 ->]];
    specialize (Hs tid tk0 Hin Htk0);
    destruct (tr_kind tk0) eqn:K; simpl; rewrite ?decide_True, ?decide_False by congruence;
    simpl; rewrite ?K, ?Hs; done.
Qed.

(** C16: while the component is mounted, [toggleAudio] and [toggleVideo]
    keep every track of the local stream enabled exactly when the flag of
    its kind is set. *)
Theorem toggles_keep_synced {T} l (t : T) :
  mounted l = true -> tracks_synced l ->
  tracks_synced (exec toggleAudio (l, t)).1 /\
  tracks_synced (exec toggleVideo (l, t)).1.
Proof.
  intros M H. split; [apply (toggle_keeps_synced Audio)|apply (toggle_keeps_synced Video)];
    done.
Qed.

(** [getUserMedia] granted: the new stream is the local stream, its audio
    and video tracks are fresh, live and enabled, and the flags are left as
    they were. *)
Lemma request_resume_granted {T} l (t : T) :
  mounted l = true ->
  let a := fresh l in let v := S (fresh l) in
  let l' := (exec (request_resume Granted) (l, t)).1 in
  localStream (ui l') = Some (mk_stream (S (S (fresh l))) [a; v]) /\
  tracks l' !! a = Some (mk_track Audio true true) /\
  tracks l' !! v = Some (mk_track Video true true) /\
  isAudioEnabled (ui l') = isAudioEnabled (ui l) /\
  isVideoEnabled (ui l') = isVideoEnabled (ui l) /\
  mounted l' = true.
Proof.
  intros M. unfold exec, request_resume, acquire, alloc, set_react, upd.
  js_unfold. simpl. repeat (rewrite M; simpl).
  rewrite lookup_insert_ne by lia. rewrite !lookup_insert_eq. done.
Qed.

(** C17: muting survives a new stream only in the flag: when
    [getUserMedia] resolves while [isAudioEnabled] is [false] (muted
    before a retry), the new local stream's audio track is live and
    enabled, so the flags no longer mirror the tracks and the UI shows
    the microphone as muted while it sends audio. *)
Theorem resume_after_mute_unsynced {T} l (t : T) :
  mounted l = true -> isAudioEnabled (ui l) = false ->
  let l' := (exec (request_resume Granted) (l, t)).1 in
  isAudioEnabled (ui l') = false /\
  (exists s a, localStream (ui l') = Some s /\ a ∈ ms_tracks s /\
               tracks l' !! a = Some (mk_track Audio true true)) /\
  ~ tracks_synced l'.
Proof.
  intros M Hmute. cbv zeta.
  destruct (request_resume_granted l t M) as (Hs & Ha & Hv & HA & _).
  cbv zeta in *. rewrite HA, Hmute. split; [done|]. split.
  - eexists _, _. split; [exact Hs|]. split; [apply elem_of_cons; by left|exact Ha].
  - unfold tracks_synced. rewrite Hs. intros [_ Hsync].
    specialize (Hsync _ _ (proj2 (elem_of_cons _ _ _) (or_introl eq_refl)) Ha).
    cbn [tr_enabled tr_kind] in Hsync. by rewrite HA, Hmute in Hsync.
Qed.

Lemma resume_after_mute_unsynced_witness :
  let l := set_ui (set_isAudioEnabled false init_react) init_local in
  let l' := (exec (request_resume Granted)
               (l, (WebSocketService.init_service, WebSocketService.init_net))).1 in
  isAudioEnabled (ui l') = false /\
  (exists s a, localStream (ui l') = Some s /\ a ∈ ms_tracks s /\
               tracks l' !! a = Some (mk_track Audio true true)) /\
  ~ tracks_synced l'.
Proof.
  exact (resume_after_mute_unsynced
           (set_ui (set_isAudioEnabled false init_react) init_local)
           (WebSocketService.init_service, WebSocketService.init_net)
           eq_refl eq_refl).
Defined.

Lemma toggles_keep_synced_witness :
  let t := (WebSocketService.init_service, WebSocketService.init_net) in
  let l := (exec (request_resume Granted) (init_local, t)).1 in
  mounted l = true /\ tracks_synced l /\
  (tracks_synced (exec toggleAudio (l, t)).1 /\ tracks_synced (exec toggleVideo (l, t)).1).
Proof.
  cbv zeta.
  assert (Hs : tracks_synced (exec (request_resume Granted)
                 (init_local, (WebSocketService.init_service, WebSocketService.init_net))).1).
  { unfold tracks_synced. simpl. split; [repeat constructor; set_solver|].
    intros tid tk Hin Hl. rewrite !elem_of_cons in Hin.
    destruct Hin as [->|[->|Hin]]; [| |set_solver]; simplify_map_eq; done. }
  split; [vm_compute; reflexivity|]. split; [exact Hs|].
  apply toggles_keep_synced; [vm_compute; reflexivity|exact Hs].
Defined.
