(* ===== verification/Negotiation.v ===== *)
(** * The offer/answer/ICE negotiation of [VideoCall.jsx]

    [createPeerConnection], [startCall] (the local tracks and, for the
    doctor, the offer) and [handleSignalingMessage] (the callback
    subscribed to the room), with the three callbacks the component
    installs on every peer connection: [ontrack], [onicecandidate] and
    [onconnectionstatechange] (which only logs).  The definitions are
    generic in the transport; [userName] is the value the component
    computed at render time. *)

From S2P Require Import Prelude Signaling Transport Browser CallState.

Section Negotiation.
Context {T : Type} `{SignalingTransport T} (p : props) (userName : string).
Abbreviation St := (local * T)%type.

(** [role === r]. *)
Definition role_is (r : string) : bool := bool_decide (p_role p = Some r).

(** [ontrack]: [setRemoteStream(event.streams[0])]. *)
Definition ontrack (sid : nat) : js St unit :=
  set_react (set_remoteStream (Some sid)).

(** [onicecandidate]: publish every gathered candidate to the room. *)
Definition onicecandidate (c : option ice_candidate) : js St unit :=
  match c with
  | Some c => tr (ws_send (js_str (p_roomId p)) (ice_msg c (p_userId p)))
  | None => skip
  end.

(** [createPeerConnection()]: a new connection becomes
    [peerConnection.current]; the previous one, if any, is not closed. *)
Definition createPeerConnection : js St unit :=
  id ← alloc;
  upd (fun l => set_peerConnection (Some id) (set_pcs (<[id := new_peer id]> (pcs l)) l)).

(** [peerConnection.current.m(...)] for a method that updates the
    connection. *)
Definition on_current (f : peer -> result peer) : js St unit :=
  pc ← current_pc; pc' ← lift_result (f pc); store_pc pc'.

(** [peerConnection.current.setRemoteDescription(d)]; a description that
    announces a stream fires [ontrack]. *)
Definition setRemoteDescription (d : session_description) : js St unit :=
  on_current (pc_setRemote d) ;;
  match sdp_stream d with Some sid => ontrack sid | None => skip end.

(** [new RTCSessionDescription(message.sdp)] and
    [new RTCIceCandidate(message.candidate)] on a missing field. *)
Definition rtc_description (o : option session_description) : js St session_description :=
  match o with
  | Some d => mret d
  | None => throw (type_error "Failed to construct 'RTCSessionDescription'")
  end.

Definition rtc_candidate (o : option ice_candidate) : js St ice_candidate :=
  match o with
  | Some c => mret c
  | None => throw (type_error "Failed to construct 'RTCIceCandidate'")
  end.

(** [startCall(stream)]. *)
Definition startCall (stream : option media_stream) : js St unit :=
  js_try
    (match stream with
     | None => skip
     | Some s =>
         createPeerConnection ;;
         forEach (fun tid => on_current (pc_addTrack tid (ms_id s))) (ms_tracks s) ;;
         when (role_is "doctor") then (
           pc ← current_pc;
           offer ← lift_result (pc_createOffer pc);
           on_current (pc_setLocal offer) ;;
           tr (ws_send (js_str (p_roomId p))
                 (offer_msg offer (p_userId p) userName (p_role p))))
     end)
    (fun err => set_react (set_error (Some ("Failed to start call: " +:+ err_message err)))).

(** [if (message.userName) setRemoteUser({...})]. *)
Definition update_remote_user (m : signal) : js St unit :=
  when (truthy (sig_userName m)) then
    set_react (set_remoteUser
      (Some (mk_remote_user (sig_from m) (sig_userName m) (sig_role m)))).

(** The [switch (message.type)] of [handleSignalingMessage]. *)
Definition dispatch (m : signal) : js St unit :=
  if String.eqb (sig_type m) "offer" then
    when (role_is "patient") then (
      _ ← current_pc;
      d ← rtc_description (sig_sdp m);
      setRemoteDescription d ;;
      pc ← current_pc;
      answer ← lift_result (pc_createAnswer pc);
      on_current (pc_setLocal answer) ;;
      tr (ws_send (js_str (p_roomId p))
            (answer_msg answer (p_userId p) userName (p_role p))))
  else if String.eqb (sig_type m) "answer" then
    when (role_is "doctor") then (
      _ ← current_pc;
      d ← rtc_description (sig_sdp m);
      setRemoteDescription d)
  else if String.eqb (sig_type m) "ice-candidate" then
    js_try
      (_ ← current_pc;
       c ← rtc_candidate (sig_candidate m);
       on_current (pc_addIce c))
      (fun _ => skip)
  else skip.

(** [handleSignalingMessage(message)]. *)
Definition handleSignalingMessage (m : signal) : js St unit :=
  js_try
    (if bool_decide (sig_from m = p_userId p) then skip
     else update_remote_user m ;; dispatch m)
    (fun _ => skip).

End Negotiation.

(** ** Running the building blocks *)

Section Run.
Context {T : Type} `{SignalingTransport T}.

(** The current connection is the stored object with that id. *)
Definition current_is (l : local) (id : nat) (pc : peer) : Prop :=
  peerConnection l = Some id /\ pcs l !! id = Some pc /\ pc_id pc = id.

Lemma current_pc_run l (t : T) id pc :
  current_is l id pc -> current_pc (l, t) = ((l, t), Ok pc).
Proof. intros (Hc & Hp & _). unfold current_pc. js_unfold. by rewrite Hc, Hp. Qed.

Lemma current_pc_null l (t : T) :
  peerConnection l = None -> current_pc (l, t) = ((l, t), Thrown null_access).
Proof. intros Hc. unfold current_pc. js_unfold. by rewrite Hc. Qed.

Lemma on_current_ok l (t : T) id pc f pc' :
  current_is l id pc -> f pc = Ok pc' -> pc_id pc' = id ->
  on_current f (l, t) = ((set_pcs (<[id := pc']> (pcs l)) l, t), Ok tt).
Proof.
  intros Hcur Hf Hid. unfold on_current.
  rewrite (bind_ok _ _ _ _ _ (current_pc_run l t id pc Hcur)).
  unfold lift_result. rewrite Hf. js_unfold. unfold store_pc, upd. js_unfold.
  by rewrite Hid.
Qed.

Lemma on_current_err l (t : T) id pc f e :
  current_is l id pc -> f pc = Thrown e -> on_current f (l, t) = ((l, t), Thrown e).
Proof.
  intros Hcur Hf. unfold on_current.
  rewrite (bind_ok _ _ _ _ _ (current_pc_run l t id pc Hcur)).
  unfold lift_result. by rewrite Hf.
Qed.

Lemma current_is_set_pcs l id pc pc' :
  current_is l id pc -> pc_id pc' = id ->
  current_is (set_pcs (<[id := pc']> (pcs l)) l) id pc'.
Proof.
  intros (Hc & Hp & Hid) Hid'. split; [done|]. split; [|done].
  simpl. apply lookup_insert_eq.
Qed.

Lemma tr_run {A} (c : js T A) l t :
  tr c (l, t) = ((l, (c t).1), (c t).2).
Proof. unfold tr. by destruct (c t). Qed.

End Run.

(** ** Properties of the handler *)

(** C5: loopback suppression: a message whose [from] is the component's
    own [userId] changes nothing (no state, no transport call, no error),
    whatever its type. *)
Theorem loopback_ignored {T} `{SignalingTransport T} p userName m (st : local * T) :
  sig_from m = p_userId p ->
  handleSignalingMessage p userName m st = (st, Ok tt).
Proof.
  intros E. unfold handleSignalingMessage, js_try.
  rewrite bool_decide_eq_true_2 by done. reflexivity.
Qed.

Lemma loopback_ignored_witness :
  let p := mk_props (Some "R1") (Some "patient") (Some "pat1") None "https:" "clinic" in
  let st := (init_local, (WebSocketService.init_service, WebSocketService.init_net)) in
  handleSignalingMessage p "Patient"
    (offer_msg (mk_sdp SdpOffer 7 None) (Some "pat1") "Patient" (Some "patient")) st
  = (st, Ok tt).
Proof. apply loopback_ignored. reflexivity. Defined.

(** The candidate list of a connection after [addIceCandidate(c)]. *)
Definition with_candidate (c : ice_candidate) (pc : peer) : peer :=
  mk_peer (pc_id pc) false (pc_state pc) (pc_local pc) (pc_remote pc)
    (pc_senders pc) (pc_stream pc) (pc_remote_cands pc ++ [c]) (pc_gathered pc).

Lemma pc_addIce_open c pc :
  pc_closed pc = false ->
  pc_addIce c pc = match pc_remote pc with
                   | Some _ => Ok (with_candidate c pc)
                   | None => Thrown invalid_state
                   end.
Proof. intros Hc. unfold pc_addIce. rewrite Hc. destruct (pc_remote pc) eqn:E; [unfold with_candidate; by rewrite E|done]. Qed.

(** C8: an [ice-candidate] message from the other participant reaches
    [addIceCandidate] on the current connection in every signaling state
    and for both roles: it is applied whenever the connection has a
    remote description; otherwise the failure is swallowed, nothing
    changes and no error escapes.  Nothing is sent. *)
Theorem ice_candidate_handled {T} `{SignalingTransport T} p userName l (t : T)
    id pc c from :
  from <> p_userId p -> current_is l id pc -> pc_closed pc = false ->
  handleSignalingMessage p userName (ice_msg c from) (l, t) =
  ((match pc_remote pc with
    | Some _ => set_pcs (<[id := with_candidate c pc]> (pcs l)) l
    | None => l
    end, t), Ok tt).
Proof.
  intros Hfrom Hcur Hopen. unfold handleSignalingMessage.
  apply try_ok. rewrite bool_decide_eq_false_2 by done.
  unfold update_remote_user, dispatch. simpl.
  unfold skip. rewrite bind_ret_l. unfold js_try.
  rewrite (bind_ok _ _ _ _ _ (current_pc_run l t id pc Hcur)), bind_ret_l.
  destruct (pc_remote pc) eqn:Hr.
  - rewrite (on_current_ok l t id pc _ (with_candidate c pc)); [done|done| |].
    + by rewrite pc_addIce_open, Hr.
    + by destruct Hcur as (_ & _ & ?).
  - rewrite (on_current_err l t id pc _ invalid_state); try done.
    by rewrite pc_addIce_open, Hr.
Qed.

Lemma ice_candidate_handled_witness :
  let p := mk_props (Some "R1") (Some "doctor") (Some "doc1") None "https:" "clinic" in
  let pc := mk_peer 0 false HaveLocalOffer (Some (mk_sdp SdpOffer 0 None)) None [] None [] 0 in
  let l := set_pcs {[0 := pc]} (set_peerConnection (Some 0) init_local) in
  handleSignalingMessage p "Doctor" (ice_msg (mk_cand 5 0) (Some "pat1"))
    (l, (WebSocketService.init_service, WebSocketService.init_net)) =
  ((l, (WebSocketService.init_service, WebSocketService.init_net)), Ok tt).
Proof.
  apply (ice_candidate_handled _ _ _ _ 0
           (mk_peer 0 false HaveLocalOffer (Some (mk_sdp SdpOffer 0 None)) None [] None [] 0));
    [discriminate | split; [reflexivity | split; reflexivity] | reflexivity].
Defined.


(** ** Running the handler *)

Section RunHandler.
Context {T : Type} `{SignalingTransport T} (p : props) (userName : string).

(** The state after [setRemoteUser(...)]. *)
Definition after_remote_user (m : signal) (l : local) : local :=
  if truthy (sig_userName m) && mounted l
  then set_ui (set_remoteUser (Some (mk_remote_user (sig_from m) (sig_userName m)
                                       (sig_role m))) (ui l)) l
  else l.

(** The state after the [ontrack] events of a remote description. *)
Definition after_track (d : session_description) (l : local) : local :=
  match sdp_stream d with
  | Some sid => if mounted l then set_ui (set_remoteStream (Some sid) (ui l)) l else l
  | None => l
  end.

Lemma handle_other m l (t : T) :
  sig_from m <> p_userId p ->
  handleSignalingMessage p userName m (l, t) =
  js_try (dispatch p userName m) (fun _ => skip) (after_remote_user m l, t).
Proof.
  intros Hf. unfold handleSignalingMessage, js_try.
  rewrite bool_decide_eq_false_2 by done. unfold update_remote_user, after_remote_user.
  destruct (truthy (sig_userName m)); simpl; [|done].
  by rewrite (bind_ok _ _ _ _ _ (set_react_run _ l t)).
Qed.

Lemma current_is_after_remote_user m l id pc :
  current_is l id pc -> current_is (after_remote_user m l) id pc.
Proof. unfold after_remote_user. by destruct (_ && _). Qed.

Lemma mounted_after_remote_user m l : mounted (after_remote_user m l) = mounted l.
Proof. unfold after_remote_user. by destruct (_ && _). Qed.

Lemma setRemoteDescription_run l (t : T) id pc d pc' :
  current_is l id pc -> pc_setRemote d pc = Ok pc' -> pc_id pc' = id ->
  setRemoteDescription d (l, t) =
  ((after_track d (set_pcs (<[id := pc']> (pcs l)) l), t), Ok tt).
Proof.
  intros Hcur Hs Hid. unfold setRemoteDescription.
  rewrite (bind_ok _ _ _ _ _ (on_current_ok l t id pc _ pc' Hcur Hs Hid)).
  unfold after_track, ontrack. by destruct (sdp_stream d).
Qed.

Lemma current_is_after_track d l id pc :
  current_is l id pc -> current_is (after_track d l) id pc.
Proof. unfold after_track. destruct (sdp_stream d); [by destruct (mounted l)|done]. Qed.

End RunHandler.

(** The connection after the answerer's exchange: the offer as remote
    description, its own answer as local description, [stable]. *)
Definition answered (d : session_description) (pc : peer) : peer :=
  with_state Stable (Some (mk_sdp SdpAnswer (pc_id pc) (pc_stream pc))) (Some d) pc.

Lemma js_try_skip_result {S} (s : S) (r : result unit) :
  (match r with Ok a => (s, Ok a) | Thrown _ => @skip S s end) = (s, Ok tt).
Proof. by destruct r as [[]|]. Qed.

(** C6: a patient whose connection is open and [stable] answers an offer
    from the other participant: the offer becomes the remote description
    (its stream is shown through [ontrack]), the answer, announcing the
    patient's own stream, the local one, the connection is [stable]
    again, and the only transport call is one [sendMessage] of that answer
    to the room; no error escapes even if the send fails. *)
Theorem patient_answers_offer {T} `{SignalingTransport T} p userName l (t : T)
    id pc d from un rl :
  role_is p "patient" = true -> Some from <> p_userId p ->
  current_is l id pc -> pc_closed pc = false -> pc_state pc = Stable ->
  sdp_kind d = SdpOffer ->
  let m := offer_msg d (Some from) un rl in
  let l0 := after_remote_user m l in
  let l1 := after_track d (set_pcs (<[id := with_state HaveRemoteOffer (pc_local pc)
                                              (Some d) pc]> (pcs l0)) l0) in
  handleSignalingMessage p userName m (l, t) =
  ((set_pcs (<[id := answered d pc]> (pcs l1)) l1,
    (ws_send (js_str (p_roomId p))
       (answer_msg (mk_sdp SdpAnswer id (pc_stream pc)) (p_userId p) userName
          (p_role p)) t).1), Ok tt).
Proof.
  intros Hrole Hfrom Hcur Hopen Hst Hk. cbv zeta.
  rewrite handle_other by done. unfold js_try, dispatch. simpl.
  rewrite Hrole.
  pose proof (current_is_after_remote_user (offer_msg d (Some from) un rl) l id pc Hcur)
    as Hcur0.
  rewrite (bind_ok _ _ _ _ _ (current_pc_run _ t id pc Hcur0)), bind_ret_l.
  assert (Hid : pc_id pc = id) by apply Hcur.
  set (pc2 := with_state HaveRemoteOffer (pc_local pc) (Some d) pc).
  assert (Hs : pc_setRemote d pc = Ok pc2)
    by (unfold pc_setRemote; by rewrite Hopen, Hk, Hst).
  rewrite (bind_ok _ _ _ _ _ (setRemoteDescription_run _ t id pc d pc2 Hcur0 Hs Hid)).
  pose proof (current_is_after_track d _ id pc2
                (current_is_set_pcs _ id pc pc2 Hcur0 Hid)) as Hcur1.
  rewrite (bind_ok _ _ _ _ _ (current_pc_run _ t id pc2 Hcur1)).
  unfold lift_result, pc_createAnswer. cbn [pc_closed pc_state pc2 with_state].
  rewrite Hopen, bind_ret_l.
  assert (Hl : pc_setLocal (mk_sdp SdpAnswer (pc_id pc2) (pc_stream pc2)) pc2 =
               Ok (answered d pc))
    by (unfold pc_setLocal, pc2, answered; simpl; by rewrite Hopen).
  rewrite (bind_ok _ _ _ _ _ (on_current_ok _ t id pc2 _ (answered d pc) Hcur1 Hl Hid)).
  rewrite tr_run. change (pc_id pc2) with (pc_id pc).
  change (pc_stream pc2) with (pc_stream pc). rewrite Hid.
  apply js_try_skip_result.
Qed.

Lemma patient_answers_offer_witness :
  let p := mk_props (Some "R1") (Some "patient") (Some "pat1") None "https:" "clinic" in
  let pc := new_peer 0 in
  let l := set_pcs {[0 := pc]} (set_peerConnection (Some 0) init_local) in
  let d := mk_sdp SdpOffer 9 (Some 4) in
  let m := offer_msg d (Some "doc1") "Doctor" (Some "doctor") in
  let l0 := after_remote_user m l in
  let l1 := after_track d (set_pcs (<[0 := with_state HaveRemoteOffer (pc_local pc)
                                              (Some d) pc]> (pcs l0)) l0) in
  let t := (WebSocketService.init_service, WebSocketService.init_net) in
  handleSignalingMessage p "Patient" m (l, t) =
  ((set_pcs (<[0 := answered d pc]> (pcs l1)) l1,
    (ws_send "R1" (answer_msg (mk_sdp SdpAnswer 0 (pc_stream pc)) (Some "pat1") "Patient"
                     (Some "patient")) t).1), Ok tt).
Proof.
  exact (patient_answers_offer
           (mk_props (Some "R1") (Some "patient") (Some "pat1") None "https:" "clinic")
           "Patient" (set_pcs {[0 := new_peer 0]} (set_peerConnection (Some 0) init_local))
           (WebSocketService.init_service, WebSocketService.init_net) 0 (new_peer 0)
           (mk_sdp SdpOffer 9 (Some 4)) "doc1" "Doctor" (Some "doctor")
           eq_refl ltac:(discriminate) (conj eq_refl (conj eq_refl eq_refl))
           eq_refl eq_refl eq_refl).
Defined.

(** ** What each role sends *)

Section Sends.
Context {T : Type} `{SignalingTransport T}.

Lemma local_only_on_current f : local_only (@on_current T f).
Proof. unfold on_current. solve_local. Qed.

Lemma local_only_setRemoteDescription d : local_only (@setRemoteDescription T d).
Proof.
  unfold setRemoteDescription, ontrack. apply local_only_bind; [apply local_only_on_current|].
  intros _. destruct (sdp_stream d); solve_local.
Qed.

Lemma local_only_rtc_description o : local_only (@rtc_description T o).
Proof. destruct o; solve_local. Qed.

Lemma local_only_rtc_candidate o : local_only (@rtc_candidate T o).
Proof. destruct o; solve_local. Qed.

Lemma local_only_createPeerConnection : local_only (@createPeerConnection T).
Proof. unfold createPeerConnection. solve_local. Qed.

#[local] Hint Resolve local_only_on_current local_only_setRemoteDescription
  local_only_rtc_description local_only_rtc_candidate local_only_createPeerConnection : frame.

(** [c] sends at most one message, to room [r], and that message
    satisfies [P]; otherwise the transport is untouched. *)
Definition sends_only (r : string) (P : signal -> Prop) {A} (c : js (local * T) A) : Prop :=
  forall l t, (fst (c (l, t))).2 = t \/
              exists m, P m /\ (fst (c (l, t))).2 = (ws_send r m t).1.

Lemma sends_only_local r P {A} (c : js (local * T) A) :
  local_only c -> sends_only r P c.
Proof. intros Hc l t. left. apply Hc. Qed.

Lemma sends_only_send r P m : P m -> sends_only r P (tr (ws_send r m)).
Proof. intros Hm l t. right. exists m. split; [done|]. by rewrite tr_run. Qed.

Lemma sends_only_bind_l r P {A B} (c : js (local * T) A) (f : A -> js (local * T) B) :
  local_only c -> (forall a, sends_only r P (f a)) -> sends_only r P (c ≫= f).
Proof.
  intros Hc Hf l t. cbv [mbind js_bind].
  specialize (Hc l t). destruct (c (l, t)) as [[l' t'] [a|e]]; simpl in *; subst.
  - apply Hf.
  - by left.
Qed.

Lemma sends_only_try r P {A} (c : js (local * T) A) h :
  sends_only r P c -> (forall e, local_only (h e)) -> sends_only r P (js_try c h).
Proof.
  intros Hc Hh l t. unfold js_try.
  specialize (Hc l t). destruct (c (l, t)) as [[l' t'] [a|e]]; simpl in *.
  - done.
  - rewrite (Hh e l' t'). done.
Qed.

Lemma sends_only_lift r P {A B} (res : result A) (f : A -> js (local * T) B) :
  (forall a, res = Ok a -> sends_only r P (f a)) -> sends_only r P (lift_result res ≫= f).
Proof.
  intros Hf l t. destruct res as [a|e]; simpl.
  - by apply Hf.
  - by left.
Qed.

End Sends.

#[export] Hint Resolve local_only_on_current local_only_setRemoteDescription
  local_only_rtc_description local_only_rtc_candidate local_only_createPeerConnection : frame.

Lemma pc_createAnswer_kind pc a : pc_createAnswer pc = Ok a -> sdp_kind a = SdpAnswer.
Proof.
  unfold pc_createAnswer. destruct (pc_closed pc); [done|].
  destruct (pc_state pc); intros H; simplify_eq; done.
Qed.

Lemma pc_createOffer_kind pc a : pc_createOffer pc = Ok a -> sdp_kind a = SdpOffer.
Proof. unfold pc_createOffer. destruct (pc_closed pc); intros H; simplify_eq; done. Qed.

Lemma role_is_other p r r' : role_is p r = true -> r <> r' -> role_is p r' = false.
Proof.
  unfold role_is. intros Hr Hne. apply bool_decide_eq_true in Hr.
  apply bool_decide_eq_false. rewrite Hr. congruence.
Qed.

Lemma handler_roles {T} `{SignalingTransport T} p userName m :
  (role_is p "doctor" = true -> local_only (handleSignalingMessage p userName m)) /\
  (role_is p "patient" = true ->
   sends_only (js_str (p_roomId p))
     (fun msg => exists a, sdp_kind a = SdpAnswer /\
                 msg = answer_msg a (p_userId p) userName (p_role p))
     (handleSignalingMessage p userName m)).
Proof.
  split; intros Hrole.
  - assert (Hp : role_is p "patient" = false) by (by apply (role_is_other _ "doctor")).
    unfold handleSignalingMessage, update_remote_user, dispatch. rewrite Hp.
    solve_local.
  - assert (Hd : role_is p "doctor" = false) by (by apply (role_is_other _ "patient")).
    unfold handleSignalingMessage. apply sends_only_try; [|solve_local].
    destruct (bool_decide _); [apply sends_only_local; solve_local|].
    apply sends_only_bind_l; [unfold update_remote_user; solve_local|].
    intros ?. unfold dispatch. rewrite Hd, Hrole.
    destruct (String.eqb _ "offer"); [|apply sends_only_local; solve_local].
    apply sends_only_bind_l; [solve_local|]. intros ?.
    apply sends_only_bind_l; [solve_local|]. intros ?.
    apply sends_only_bind_l; [solve_local|]. intros ?.
    apply sends_only_bind_l; [solve_local|]. intros pc.
    apply sends_only_lift. intros ans Ha.
    apply sends_only_bind_l; [solve_local|]. intros ?.
    apply sends_only_send. exists ans. split; [|done].
    by apply (pc_createAnswer_kind pc).
Qed.

Lemma startCall_roles {T} `{SignalingTransport T} p userName s :
  (role_is p "doctor" = true ->
   sends_only (js_str (p_roomId p))
     (fun msg => exists o, sdp_kind o = SdpOffer /\
                 msg = offer_msg o (p_userId p) userName (p_role p))
     (startCall p userName s)) /\
  (role_is p "doctor" = false -> local_only (startCall p userName s)).
Proof.
  split; intros Hrole.
  - unfold startCall. apply sends_only_try; [|solve_local].
    destruct s as [s|]; [|apply sends_only_local; solve_local].
    apply sends_only_bind_l; [solve_local|]. intros ?.
    apply sends_only_bind_l; [solve_local|]. intros ?.
    rewrite Hrole. apply sends_only_bind_l; [solve_local|]. intros pc.
    apply sends_only_lift. intros o Ho.
    apply sends_only_bind_l; [solve_local|]. intros ?.
    apply sends_only_send. exists o. split; [|done].
    by apply (pc_createOffer_kind pc).
  - unfold startCall. rewrite Hrole. solve_local.
Qed.

Lemma sends_only_weaken {T} `{SignalingTransport T} r (P Q : signal -> Prop) {A}
    (c : js (local * T) A) :
  sends_only r P c -> (forall m, P m -> Q m) -> sends_only r Q c.
Proof. intros Hc HPQ l t. destruct (Hc l t) as [?|(m & Hm & ?)]; [by left|]. right. eauto. Qed.

(** Whatever the role, only an offer makes the handler call the
    transport, and it then sends at most one message, an answer, to the
    component's room. *)
Lemma handler_sends {T} `{SignalingTransport T} p userName m :
  sends_only (js_str (p_roomId p)) (fun msg => sig_type msg = "answer"%string)
    (handleSignalingMessage p userName m) /\
  (String.eqb (sig_type m) "offer" = false -> local_only (handleSignalingMessage p userName m)).
Proof.
  split.
  - unfold handleSignalingMessage. apply sends_only_try; [|solve_local].
    destruct (bool_decide _); [apply sends_only_local; solve_local|].
    apply sends_only_bind_l; [unfold update_remote_user; solve_local|]. intros _.
    unfold dispatch. destruct (String.eqb (sig_type m) "offer"); [|apply sends_only_local; solve_local].
    destruct (role_is p "patient"); try (apply sends_only_local; solve [solve_local]);
      repeat (apply sends_only_bind_l; [solve [solve_local]|intros ?]);
      apply sends_only_send; reflexivity.
  - intros Ho. unfold handleSignalingMessage, update_remote_user, dispatch. rewrite Ho.
    solve_local.
Qed.

(** C4: role exclusivity.  The doctor only ever sends offers (from
    [startCall]) and its [handleSignalingMessage] never calls the
    transport; the patient's [startCall] never calls the transport and its
    handler sends only answers.  Each of these calls sends at most one
    message, to the component's own room, and an offer (answer) message
    carries a description of kind offer (answer). *)
Theorem role_exclusive {T} `{SignalingTransport T} p userName m s :
  (role_is p "doctor" = true ->
   local_only (handleSignalingMessage p userName m) /\
   sends_only (js_str (p_roomId p))
     (fun msg => exists o, sdp_kind o = SdpOffer /\
                 msg = offer_msg o (p_userId p) userName (p_role p))
     (startCall p userName s)) /\
  (role_is p "patient" = true ->
   local_only (startCall p userName s) /\
   sends_only (js_str (p_roomId p))
     (fun msg => exists a, sdp_kind a = SdpAnswer /\
                 msg = answer_msg a (p_userId p) userName (p_role p))
     (handleSignalingMessage p userName m)).
Proof.
  destruct (handler_roles p userName m) as [Hd Hp].
  destruct (startCall_roles p userName s) as [Sd Sp].
  split; intros Hr; split; auto.
  apply Sp. by apply (role_is_other _ "patient").
Qed.

Lemma role_exclusive_witness :
  let p := mk_props (Some "R1") (Some "doctor") (Some "doc1") None "https:" "clinic" in
  local_only (handleSignalingMessage (T := WebSocketService.st) p "Doctor"
                (ice_msg (mk_cand 1 0) (Some "pat1"))) /\
  sends_only (js_str (p_roomId p))
    (fun msg => exists o, sdp_kind o = SdpOffer /\
                msg = offer_msg o (p_userId p) "Doctor" (p_role p))
    (startCall (T := WebSocketService.st) p "Doctor" None).
Proof.
  exact (proj1 (role_exclusive
                  (mk_props (Some "R1") (Some "doctor") (Some "doc1") None "https:" "clinic")
                  "Doctor" (ice_msg (mk_cand 1 0) (Some "pat1")) None) eq_refl).
Defined.

(** C7: the doctor applies an answer from the other participant exactly
    when it has an outstanding offer ([have-local-offer]): the answer
    becomes the remote description, the connection is [stable] and the
    answerer's stream is shown; in any other signaling state (an answer it
    did not solicit) the connection is left as it was and the error is
    swallowed.  The transport is not used. *)
Theorem doctor_handles_answer {T} `{SignalingTransport T} p userName l (t : T)
    id pc d from un rl :
  role_is p "doctor" = true -> Some from <> p_userId p ->
  current_is l id pc -> pc_closed pc = false -> sdp_kind d = SdpAnswer ->
  let m := answer_msg d (Some from) un rl in
  let l0 := after_remote_user m l in
  handleSignalingMessage p userName m (l, t) =
  ((if decide (pc_state pc = HaveLocalOffer)
    then after_track d (set_pcs (<[id := with_state Stable (pc_local pc) (Some d) pc]>
                                   (pcs l0)) l0)
    else l0, t), Ok tt).
Proof.
  intros Hrole Hfrom Hcur Hopen Hk. cbv zeta.
  rewrite handle_other by done. unfold js_try, dispatch. simpl.
  rewrite Hrole.
  pose proof (current_is_after_remote_user (answer_msg d (Some from) un rl) l id pc Hcur)
    as Hcur0.
  rewrite (bind_ok _ _ _ _ _ (current_pc_run _ t id pc Hcur0)), bind_ret_l.
  assert (Hid : pc_id pc = id) by apply Hcur.
  case_decide as Hst.
  - rewrite (setRemoteDescription_run _ t id pc d
               (with_state Stable (pc_local pc) (Some d) pc) Hcur0); [done| |done].
    unfold pc_setRemote. by rewrite Hopen, Hk, Hst.
  - assert (Hs : pc_setRemote d pc = Thrown invalid_state).
    { unfold pc_setRemote. rewrite Hopen, Hk. by destruct (pc_state pc). }
    unfold setRemoteDescription.
    by rewrite (bind_thrown _ _ _ _ invalid_state
                  (on_current_err _ t id pc _ invalid_state Hcur0 Hs)).
Qed.

Lemma doctor_handles_answer_witness :
  let p := mk_props (Some "R1") (Some "doctor") (Some "doc1") None "https:" "clinic" in
  let pc := mk_peer 0 false HaveLocalOffer (Some (mk_sdp SdpOffer 0 (Some 3))) None [1; 2]
              (Some 3) [] 0 in
  let l := set_pcs {[0 := pc]} (set_peerConnection (Some 0) init_local) in
  let d := mk_sdp SdpAnswer 8 (Some 11) in
  let m := answer_msg d (Some "pat1") "Patient" (Some "patient") in
  let l0 := after_remote_user m l in
  let t := (WebSocketService.init_service, WebSocketService.init_net) in
  handleSignalingMessage p "Doctor" m (l, t) =
  ((if decide (pc_state pc = HaveLocalOffer)
    then after_track d (set_pcs (<[0 := with_state Stable (pc_local pc) (Some d) pc]>
                                   (pcs l0)) l0)
    else l0, t), Ok tt).
Proof.
  exact (doctor_handles_answer
           (mk_props (Some "R1") (Some "doctor") (Some "doc1") None "https:" "clinic")
           "Doctor"
           (set_pcs {[0 := mk_peer 0 false HaveLocalOffer (Some (mk_sdp SdpOffer 0 (Some 3)))
                             None [1; 2] (Some 3) [] 0]} (set_peerConnection (Some 0) init_local))
           (WebSocketService.init_service, WebSocketService.init_net) 0
           (mk_peer 0 false HaveLocalOffer (Some (mk_sdp SdpOffer 0 (Some 3))) None [1; 2]
              (Some 3) [] 0)
           (mk_sdp SdpAnswer 8 (Some 11)) "pat1" "Patient" (Some "patient")
           eq_refl ltac:(discriminate) (conj eq_refl (conj eq_refl eq_refl)) eq_refl eq_refl).
Defined.

(** ** Running [startCall] *)

(** The connection after [addTrack] of each track of a stream. *)
Definition add_one (sid : nat) (pc : peer) (tid : nat) : peer :=
  mk_peer (pc_id pc) false (pc_state pc) (pc_local pc) (pc_remote pc)
    (pc_senders pc ++ [tid]) (Some sid) (pc_remote_cands pc) (pc_gathered pc).

Definition add_tracks (xs : list nat) (sid : nat) (pc : peer) : peer :=
  foldl (add_one sid) pc xs.

Lemma add_tracks_id xs sid pc : pc_id (add_tracks xs sid pc) = pc_id pc.
Proof. revert pc. induction xs; intros pc; simpl; [done|]. by rewrite IHxs. Qed.

Lemma add_tracks_state xs sid pc :
  pc_state (add_tracks xs sid pc) = pc_state pc /\
  pc_local (add_tracks xs sid pc) = pc_local pc /\
  pc_remote (add_tracks xs sid pc) = pc_remote pc.
Proof.
  revert pc. induction xs as [|x xs IH]; intros pc; [done|].
  destruct (IH (add_one sid pc x)) as (A & B & C). unfold add_tracks in *.
  cbn [foldl]. by rewrite A, B, C.
Qed.

Lemma add_tracks_closed xs sid pc :
  pc_closed pc = false -> pc_closed (add_tracks xs sid pc) = false.
Proof. revert pc. induction xs; intros pc H; simpl; [done|]. by apply IHxs. Qed.

Lemma forEach_addTrack_run {T} xs sid l (t : T) id pc :
  current_is l id pc -> pc_closed pc = false ->
  forEach (fun tid => on_current (pc_addTrack tid sid)) xs (l, t) =
  ((set_pcs (<[id := add_tracks xs sid pc]> (pcs l)) l, t), Ok tt).
Proof.
  revert l pc. induction xs as [|x xs IH]; intros l pc Hcur Hopen; simpl.
  - destruct Hcur as (_ & Hp & _). unfold skip. js_unfold.
    rewrite insert_id by done. by destruct l.
  - assert (Hid : pc_id (add_one sid pc x) = id) by (simpl; apply Hcur).
    assert (Ha : pc_addTrack x sid pc = Ok (add_one sid pc x))
      by (unfold pc_addTrack; by rewrite Hopen).
    rewrite (bind_ok _ _ _ _ _ (on_current_ok l t id pc _ (add_one sid pc x) Hcur Ha Hid)).
    rewrite (IH _ (add_one sid pc x)); [|by apply (current_is_set_pcs _ _ pc)|done].
    simpl. by rewrite insert_insert_eq.
Qed.

(** The component right after [createPeerConnection()]. *)
Definition with_new_pc (l : local) : local :=
  set_peerConnection (Some (fresh l))
    (set_pcs (<[fresh l := new_peer (fresh l)]> (pcs l)) (set_fresh (S (fresh l)) l)).

Lemma createPeerConnection_run {T} l (t : T) :
  createPeerConnection (l, t) = ((with_new_pc l, t), Ok tt).
Proof. reflexivity. Qed.

Lemma current_is_with_new_pc l :
  current_is (with_new_pc l) (fresh l) (new_peer (fresh l)).
Proof. split; [done|]. split; [apply lookup_insert_eq|done]. Qed.

(** [startCall(stream)] on a granted stream: a new connection carrying
    the stream's tracks; the doctor then creates its offer, sets it as
    local description and sends it, and a failed send is reported through
    [setError]. *)
Lemma startCall_run {T} `{SignalingTransport T} p userName l (t : T) s :
  let id := fresh l in
  let l1 := with_new_pc l in
  let pc1 := add_tracks (ms_tracks s) (ms_id s) (new_peer id) in
  let l2 := set_pcs (<[id := pc1]> (pcs l1)) l1 in
  startCall p userName (Some s) (l, t) =
  if role_is p "doctor" then
    let offer := mk_sdp SdpOffer id (pc_stream pc1) in
    let l3 := set_pcs (<[id := with_state HaveLocalOffer (Some offer) (pc_remote pc1) pc1]>
                         (pcs l2)) l2 in
    match ws_send (js_str (p_roomId p)) (offer_msg offer (p_userId p) userName (p_role p)) t with
    | (t', Ok _) => ((l3, t'), Ok tt)
    | (t', Thrown e) =>
        ((if mounted l3
          then set_ui (set_error (Some ("Failed to start call: " +:+ err_message e)) (ui l3)) l3
          else l3, t'), Ok tt)
    end
  else ((l2, t), Ok tt).
Proof.
  cbv zeta. unfold startCall, js_try.
  rewrite (bind_ok _ _ _ _ _ (createPeerConnection_run l t)).
  pose proof (current_is_with_new_pc l) as Hcur.
  rewrite (bind_ok _ _ _ _ _ (forEach_addTrack_run _ _ _ t _ _ Hcur eq_refl)).
  set (pc1 := add_tracks (ms_tracks s) (ms_id s) (new_peer (fresh l))).
  assert (Hid : pc_id pc1 = fresh l) by (unfold pc1; by rewrite add_tracks_id).
  assert (Hopen : pc_closed pc1 = false) by (by apply add_tracks_closed).
  destruct (role_is p "doctor"); [|done].
  pose proof (current_is_set_pcs _ _ _ pc1 Hcur Hid) as Hcur1.
  rewrite (bind_ok _ _ _ _ _ (current_pc_run _ t _ _ Hcur1)).
  unfold lift_result, pc_createOffer. rewrite Hopen, bind_ret_l, Hid.
  assert (Hs : pc_setLocal (mk_sdp SdpOffer (fresh l) (pc_stream pc1)) pc1 =
               Ok (with_state HaveLocalOffer (Some (mk_sdp SdpOffer (fresh l) (pc_stream pc1)))
                     (pc_remote pc1) pc1)).
  { assert (Hst : pc_state pc1 = Stable)
      by (unfold pc1; by rewrite (proj1 (add_tracks_state _ _ _))).
    unfold pc_setLocal. rewrite Hopen. simpl. by rewrite Hst. }
  rewrite (bind_ok _ _ _ _ _ (on_current_ok _ t _ _ _ _ Hcur1 Hs Hid)), tr_run.
  destruct (ws_send _ _ t) as [t' [[]|e]]; [done|].
  simpl. done.
Qed.
