(* ===== verification/Lifecycle.v ===== *)
(** * The call lifecycle of [VideoCall.jsx]

    The component's mount effect ([useEffect]: the parameter check and
    [initializeCall]), the [onConnected] callback given to
    [WebSocketService.connect], [cleanup], [endCall] and [retryCall], the
    [userName] computed at render time, and the events one browser tab
    reacts to, as a step function [run_event] with the guards the
    rendered UI imposes ([enabled]); what the page shows ([render]).

    [initializeCall] and [retryCall] await [requestMediaPermissions()]:
    the part before the [await] runs at once, the rest
    ([initializeCall_resume], or [startCall] for a retry) when the browser
    resolves [getUserMedia] ([media_resolved]).  The effect's cleanup
    ([unmount]) is the closure created at the first render, so it sees
    [localStream] as [null]. *)

From S2P Require Import Prelude Signaling Transport Browser CallState Media Negotiation.

(** ** [userName] *)

(** [String.prototype.toUpperCase] on one character (ASCII letters). *)
Definition ascii_upper (c : Ascii.ascii) : Ascii.ascii :=
  let n := Ascii.nat_of_ascii c in
  if (97 <=? n) && (n <=? 122) then Ascii.ascii_of_nat (n - 32) else c.

(** [role.charAt(0).toUpperCase() + role.slice(1)]. *)
Definition capitalize (s : string) : string :=
  match s with
  | EmptyString => EmptyString
  | String c r => String (ascii_upper c) r
  end.

(** [searchParams.get('userName') || `${role.charAt(0)...}`]: reading
    [charAt] of a [null] role throws, and the component does not render. *)
Definition compute_userName (p : props) : result string :=
  if truthy (p_userName p) then Ok (js_str (p_userName p))
  else match p_role p with
       | Some r => Ok (capitalize r)
       | None => Thrown (type_error "Cannot read properties of null (reading 'charAt')")
       end.

(** [!roomId || !role || !userId]. *)
Definition params_missing (p : props) : bool :=
  negb (truthy (p_roomId p) && truthy (p_role p) && truthy (p_userId p)).

Section Lifecycle.
Context {T : Type} `{SignalingTransport T} (p : props) (userName : string).
Abbreviation St := (local * T)%type.

Definition init_failed (err : js_error) : js St unit :=
  set_react (set_error (Some ("Failed to initialize call: " +:+ err_message err))).

(** [initializeCall()] up to [await requestMediaPermissions()]. *)
Definition initializeCall : js St unit :=
  js_try
    (awaited ← request_begin p;
     if (awaited : bool) then upd (set_awaiting_media (Some AfterInit)) else skip)
    init_failed.

(** The rest of [initializeCall()]: [if (!stream) return;], the second
    insecure-context check, and [WebSocketService.connect(callback)]. *)
Definition initializeCall_resume (stream : option media_stream) : js St unit :=
  js_try
    (match stream with
     | None => skip
     | Some s =>
         if insecure p then throw https_error
         else tr ws_connect ;; upd (set_awaiting_connect (Some s))
     end)
    init_failed.

(** The effect of [useEffect(..., [roomId, role, userId])]. *)
Definition mount_effect : js St unit :=
  if params_missing p then set_react (set_error (Some "Missing required parameters"))
  else initializeCall.

(** The [onConnected] callback: [subscribe(roomId, handleSignalingMessage)]
    then [startCall(stream)]. *)
Definition onConnected : js St unit :=
  '(l, _) ← get;
  match awaiting_connect l with
  | None => skip
  | Some s =>
      upd (set_awaiting_connect None) ;;
      tr (ws_subscribe (js_str (p_roomId p))) ;;
      startCall p userName (Some s)
  end.

(** [getUserMedia] resolves: [requestMediaPermissions] finishes and its
    caller continues. *)
Definition media_resolved (o : media_outcome) : js St unit :=
  '(l, _) ← get;
  match awaiting_media l with
  | None => skip
  | Some k =>
      upd (set_awaiting_media None) ;;
      stream ← request_resume o;
      match k with
      | AfterInit => initializeCall_resume stream
      | AfterRetry => when (bool_decide (is_Some stream)) then startCall p userName stream
      end
  end.

(** [retryCall()]: [setError(null)], then [requestMediaPermissions()]. *)
Definition retryCall : js St unit :=
  set_react (set_error None) ;;
  awaited ← request_begin p;
  if (awaited : bool) then upd (set_awaiting_media (Some AfterRetry)) else skip.

(** [track.stop()]. *)
Definition stop_track (tid : nat) : js St unit :=
  upd (fun l => match tracks l !! tid with
                | Some tk => set_tracks (<[tid := mk_track (tr_kind tk) (tr_enabled tk) false]>
                                          (tracks l)) l
                | None => l
                end).

(** [cleanup()], with the [localStream] the closure sees. *)
Definition cleanup (ls : option media_stream) : js St unit :=
  (match ls with Some s => forEach stop_track (ms_tracks s) | None => skip end) ;;
  ('(l, _) ← get;
   match peerConnection l with
   | Some id =>
       upd (fun l => match pcs l !! id with
                     | Some pc => set_pcs (<[id := pc_close pc]> (pcs l)) l
                     | None => l
                     end)
   | None => skip
   end) ;;
  tr (ws_unsubscribe (js_str (p_roomId p))) ;;
  tr ws_disconnect.

(** [endCall()]: [cleanup()] and [navigate] to the role's dashboard. *)
Definition endCall : js St unit :=
  '(l, _) ← get;
  cleanup (localStream (ui l)) ;;
  upd (set_nav (Some (if role_is p "patient" then "/patient-dashboard"
                      else "/doctor-dashboard"))).

(** The component unmounts: the effect's cleanup, created at the first
    render, runs with [localStream] = [null].  React unmounts the
    component even when the cleanup throws (the error is reported). *)
Definition unmount : js St unit :=
  js_try (cleanup None) (fun e => upd (set_mounted false) ;; throw e) ;;
  upd (set_mounted false).

(** ** Events of one browser tab *)

Inductive event :=
| UiToggleAudio | UiToggleVideo | UiEndCall | UiRetry | Unmount
| MediaResolved (o : media_outcome)
| Connected
| Message (m : signal)
| IceGathered (id : nat).

(** A peer connection's ICE agent finds a candidate: [onicecandidate]. *)
Definition ice_gathered (id : nat) : js St unit :=
  '(l, _) ← get;
  match pcs l !! id with
  | Some pc =>
      match pc_gather pc with
      | Some (c, pc') => store_pc pc' ;; onicecandidate p (Some c)
      | None => skip
      end
  | None => skip
  end.

Definition run_event (e : event) : js St unit :=
  match e with
  | UiToggleAudio => toggleAudio
  | UiToggleVideo => toggleVideo
  | UiEndCall => endCall
  | UiRetry => retryCall
  | Unmount => unmount
  | MediaResolved o => media_resolved o
  | Connected => onConnected
  | Message m => handleSignalingMessage p userName m
  | IceGathered id => ice_gathered id
  end.

(** A sequence of events, each handled to completion; an exception thrown
    by one handler does not stop the page. *)
Fixpoint run_events (es : list event) (s : St) : St :=
  match es with
  | [] => s
  | e :: es => run_events es (exec (run_event e) s)
  end.

End Lifecycle.

(** What the rendered page offers: the call controls while there is no
    error, the Retry button when there is one; nothing once unmounted.
    Environment events need something pending. *)
Definition enabled (e : event) (l : local) : bool :=
  match e with
  | UiToggleAudio | UiToggleVideo | UiEndCall =>
      mounted l && bool_decide (error (ui l) = None)
  | UiRetry => mounted l && bool_decide (is_Some (error (ui l)))
  | Unmount => mounted l
  | MediaResolved _ => bool_decide (is_Some (awaiting_media l))
  | Connected => bool_decide (is_Some (awaiting_connect l))
  | Message _ => true
  | IceGathered id => bool_decide (is_Some (pcs l !! id))
  end.

(** ** What the page shows *)

(** The rendered page: the error panel (the message and a Retry button),
    or the call view: the room, the local label (the user's name and
    role, the camera-off and microphone-off indicators), the loading
    prompt, the remote label (the other participant's name and role, or
    [None] for "Waiting for other participant..."), and the captions of
    the Mute and Hide Video buttons beside End Call. *)
Inductive screen :=
| ErrorPanel (message : string)
| CallView (room local_name local_role : string) (camera_off mic_off loading : bool)
    (remote_label : option (string * string)) (mute_caption video_caption : string).

Definition render (p : props) (userName : string) (l : local) : screen :=
  let r := ui l in
  if truthy (error r) then ErrorPanel (jsx_text (error r))
  else CallView (jsx_text (p_roomId p)) userName (jsx_text (p_role p))
         (negb (isVideoEnabled r)) (negb (isAudioEnabled r)) (isLoading r)
         ((fun u => (jsx_text (ru_name u), jsx_text (ru_role u))) <$> remoteUser r)
         (if isAudioEnabled r then "Mute" else "Unmute")
         (if isVideoEnabled r then "Hide Video" else "Show Video").

(** ** Teardown *)

(** A track after [stop()]: its [readyState] is [ended]. *)
Definition stopped (tk : track) : track := mk_track (tr_kind tk) (tr_enabled tk) false.

(** The effect of [track.stop()] on the component's store. *)
Definition stop_one (l : local) (tid : nat) : local :=
  match tracks l !! tid with
  | Some tk => set_tracks (<[tid := stopped tk]> (tracks l)) l
  | None => l
  end.

Definition stop_all (ls : option media_stream) (l : local) : local :=
  match ls with Some s => foldl stop_one l (ms_tracks s) | None => l end.

(** The effect of [peerConnection.current.close()]. *)
Definition close_current (l : local) : local :=
  match peerConnection l with
  | Some id =>
      match pcs l !! id with
      | Some pc => set_pcs (<[id := pc_close pc]> (pcs l)) l
      | None => l
      end
  | None => l
  end.

Lemma forEach_stop_run {T} xs l (t : T) :
  forEach stop_track xs (l, t) = ((foldl stop_one l xs, t), Ok tt).
Proof.
  revert l. induction xs as [|x xs IH]; intros l; [reflexivity|].
  cbn [forEach foldl]. rewrite (bind_ok _ _ _ _ _ (upd_run (fun l => stop_one l x) l t)).
  apply IH.
Qed.

Lemma cleanup_run {T} `{SignalingTransport T} p ls l (t : T) :
  cleanup p ls (l, t) =
  let l' := close_current (stop_all ls l) in
  match ws_unsubscribe (js_str (p_roomId p)) t with
  | (t1, Ok _) => let '(t2, r) := ws_disconnect t1 in ((l', t2), r)
  | (t1, Thrown e) => ((l', t1), Thrown e)
  end.
Proof.
  cbv zeta. unfold cleanup.
  assert (E : (match ls with Some s => forEach stop_track (ms_tracks s) | None => skip end)
                (l, t) = ((stop_all ls l, t), Ok tt))
    by (destruct ls; [apply forEach_stop_run|reflexivity]).
  rewrite (bind_ok _ _ _ _ _ E). clear E.
  assert (E : ('(l0, _) ← get;
               match peerConnection l0 with
               | Some id => upd (fun l => match pcs l !! id with
                                          | Some pc => set_pcs (<[id := pc_close pc]> (pcs l)) l
                                          | None => l end)
               | None => skip
               end) (stop_all ls l, t) = ((close_current (stop_all ls l), t), Ok tt)).
  { unfold close_current. js_unfold. by destruct (peerConnection _). }
  rewrite (bind_ok _ _ _ _ _ E). clear E.
  cbv [mbind js_bind]. rewrite tr_run.
  destruct (ws_unsubscribe _ t) as [t1 [[]|e]]; cbn [fst snd]; [|done].
  rewrite tr_run. by destruct (ws_disconnect t1).
Qed.

Lemma stop_one_idem l a : stop_one (stop_one l a) a = stop_one l a.
Proof.
  unfold stop_one. destruct (tracks l !! a) as [tk|] eqn:E; rewrite ?E; [|done].
  cbn [tracks set_tracks]. rewrite lookup_insert_eq. cbn.
  by rewrite insert_insert_eq.
Qed.

Lemma stop_one_comm l a b : stop_one (stop_one l a) b = stop_one (stop_one l b) a.
Proof.
  destruct (decide (a = b)) as [->|Hne]; [done|].
  unfold stop_one.
  destruct (tracks l !! a) as [ta|] eqn:Ea, (tracks l !! b) as [tb|] eqn:Eb;
    cbn [tracks set_tracks]; rewrite ?Ea, ?Eb, ?lookup_insert_ne by done;
    rewrite ?Ea, ?Eb; try done.
  cbn. by rewrite insert_insert_ne by done.
Qed.

Lemma stop_fold_comm xs l a :
  foldl stop_one (stop_one l a) xs = stop_one (foldl stop_one l xs) a.
Proof.
  revert l. induction xs as [|x xs IH]; intros l; [done|].
  cbn [foldl]. by rewrite stop_one_comm, IH.
Qed.

Lemma stop_all_idem ls l : stop_all ls (stop_all ls l) = stop_all ls l.
Proof.
  destruct ls as [s|]; [|done]. unfold stop_all.
  generalize (ms_tracks s) as xs. intros xs. revert l.
  induction xs as [|x xs IH]; intros l; [done|]. cbn [foldl].
  by rewrite !stop_fold_comm, stop_one_idem, IH.
Qed.

Lemma stop_one_pcs l a : pcs (stop_one l a) = pcs l /\ peerConnection (stop_one l a) = peerConnection l.
Proof. unfold stop_one. by destruct (tracks l !! a). Qed.

Lemma stop_one_close l a : stop_one (close_current l) a = close_current (stop_one l a).
Proof.
  unfold close_current. destruct (stop_one_pcs l a) as [-> ->].
  destruct (peerConnection l) as [id|]; [|done]. destruct (pcs l !! id); [|done].
  unfold stop_one. destruct l; cbn. by case_match.
Qed.

Lemma stop_all_close ls l : stop_all ls (close_current l) = close_current (stop_all ls l).
Proof.
  destruct ls as [s|]; [|done]. unfold stop_all.
  generalize (ms_tracks s) as xs. intros xs. revert l.
  induction xs as [|x xs IH]; intros l; [done|]. cbn [foldl].
  by rewrite stop_one_close, IH.
Qed.

Lemma close_current_idem l : close_current (close_current l) = close_current l.
Proof.
  unfold close_current. destruct (peerConnection l) as [id|] eqn:E; simpl; rewrite ?E; [|done].
  destruct (pcs l !! id) as [pc|] eqn:Epc; simpl; rewrite ?E, ?Epc; [|done].
  rewrite lookup_insert_eq. simpl. by rewrite insert_insert_eq.
Qed.

Lemma cleanup_local_idem ls l :
  close_current (stop_all ls (close_current (stop_all ls l))) = close_current (stop_all ls l).
Proof. by rewrite stop_all_close, stop_all_idem, close_current_idem. Qed.

Section Teardown.
Context {T : Type} `{TransportLaws T} (p : props).

(** [cleanup()] is idempotent (the specification's "calling [endCall]
    twice is safe"): running it again from the state it produced leaves
    that state unchanged and gives the same outcome, an error of the first
    run included.  Proved for every transport satisfying [TransportLaws]. *)
Theorem cleanup_idempotent ls (s : local * T) :
  cleanup p ls (exec (cleanup p ls) s) = cleanup p ls s.
Proof.
  destruct s as [l t]. unfold exec. rewrite !cleanup_run. cbv zeta.
  pose proof (unsubscribe_outcome (js_str (p_roomId p)) t) as Hu.
  destruct (ws_unsubscribe _ t) as [t1 [[]|e]] eqn:Eu.
  - pose proof (disconnect_ok t1) as Hd. pose proof (disconnect_idem t1) as Hi.
    pose proof (disconnect_subscribed (js_str (p_roomId p)) t1) as Hs.
    unfold exec in Hi, Hs. destruct (ws_disconnect t1) as [t2 r] eqn:Ed.
    cbn in Hd, Hi, Hs |- *. subst r.
    rewrite cleanup_run, unsubscribe_absent by congruence. cbv zeta.
    by rewrite Hi, cleanup_local_idem.
  - subst t1. cbn. by rewrite cleanup_run, Eu, cleanup_local_idem.
Qed.

End Teardown.

(** ** Invariants of whole handlers

    [keeps I c]: from a state satisfying [I], [c] ends (returning or
    throwing) in a state satisfying [I].  The combinators below let a
    handler's proof follow its code. *)

Section Keeps.
Context {T : Type} `{SignalingTransport T} (I : local * T -> Prop).

Definition keeps {A} (c : js (local * T) A) : Prop := forall s, I s -> I (exec c s).

Lemma keeps_ret {A} (a : A) : keeps (mret a).
Proof. by intros s. Qed.

Lemma keeps_skip : keeps skip.
Proof. by intros s. Qed.

Lemma keeps_throw {A} e : keeps (@throw _ A e).
Proof. by intros s. Qed.

Lemma keeps_bind {A B} (c : js (local * T) A) (f : A -> js (local * T) B) :
  keeps c -> (forall a, keeps (f a)) -> keeps (c ≫= f).
Proof.
  intros Hc Hf s Hs. specialize (Hc s Hs). unfold exec in *. cbv [mbind js_bind].
  destruct (c s) as [s' [a|e]]; [by apply Hf|done].
Qed.

Lemma keeps_get_bind {B} (f : local * T -> js (local * T) B) :
  (forall s, I s -> keeps (f s)) -> keeps (get ≫= f).
Proof. intros Hf s Hs. by apply Hf. Qed.

Lemma keeps_try {A} (c : js (local * T) A) h :
  keeps c -> (forall e, keeps (h e)) -> keeps (js_try c h).
Proof.
  intros Hc Hh s Hs. specialize (Hc s Hs). unfold exec, js_try in *.
  destruct (c s) as [s' [a|e]]; [done|by apply Hh].
Qed.

Lemma keeps_forEach {A} (f : A -> js (local * T) unit) xs :
  (forall x, keeps (f x)) -> keeps (forEach f xs).
Proof.
  intros Hf. induction xs as [|x xs IH]; [apply keeps_ret|by apply keeps_bind].
Qed.

Lemma keeps_upd f : (forall l t, I (l, t) -> I (f l, t)) -> keeps (upd f).
Proof. intros Hf [l t]. apply Hf. Qed.

Lemma keeps_set_react f :
  (forall l t x, I (l, t) -> I (set_ui x l, t)) -> keeps (set_react f).
Proof. intros Hf [l t] Hs. unfold exec. cbn. destruct (mounted l); auto. Qed.

Lemma keeps_tr {A} (c : js T A) :
  (forall l t, I (l, t) -> I (l, exec c t)) -> keeps (tr c).
Proof. intros Hc [l t] Hs. unfold exec. rewrite tr_run. apply Hc, Hs. Qed.

Lemma keeps_local {A} (c : js (local * T) A) :
  local_only c -> (forall l l' t, I (l, t) -> I (l', t)) -> keeps c.
Proof.
  intros Hc HI [l t] Hs. unfold exec. specialize (Hc l t).
  destruct (c (l, t)) as [[l' t'] r]. cbn in *. subst. by eapply HI.
Qed.

End Keeps.

(** Descend through a handler's code; what is left are the effects of
    [upd], [set_react] and [tr] on the invariant. *)
Ltac keeps_step :=
  match goal with
  | |- keeps _ (match ?x with _ => _ end) => destruct x
  | |- keeps _ (if ?b then _ else _) => destruct b
  | |- keeps _ (get ≫= _) => apply keeps_get_bind; intros [? ?] ?
  | |- keeps _ (_ ≫= _) => apply keeps_bind; [|intros ?]
  | |- keeps _ (js_try _ _) => apply keeps_try; [|intros ?]
  | |- keeps _ (forEach _ _) => apply keeps_forEach; intros ?
  | |- keeps _ (mret _) => apply keeps_ret
  | |- keeps _ (throw _) => apply keeps_throw
  | |- keeps _ (upd _) => apply keeps_upd
  | |- keeps _ (set_react _) => apply keeps_set_react
  | |- keeps _ (tr _) => apply keeps_tr
  | |- keeps _ skip => apply keeps_skip
  | |- keeps _ (alloc) => unfold alloc
  | |- keeps _ (current_pc) => unfold current_pc
  | |- keeps _ (store_pc _) => unfold store_pc
  | |- keeps _ (lift_result ?r) => destruct r; cbn [lift_result]
  | |- keeps _ (on_current _) => unfold on_current
  | |- keeps _ (setRemoteDescription _) => unfold setRemoteDescription
  | |- keeps _ (rtc_description _) => unfold rtc_description
  | |- keeps _ (rtc_candidate _) => unfold rtc_candidate
  | |- keeps _ (ontrack _) => unfold ontrack
  | |- keeps _ (onicecandidate _ _) => unfold onicecandidate
  | |- keeps _ (createPeerConnection) => unfold createPeerConnection
  | |- keeps _ (startCall _ _ _) => unfold startCall
  | |- keeps _ (update_remote_user _) => unfold update_remote_user
  | |- keeps _ (dispatch _ _ _) => unfold dispatch
  | |- keeps _ (handleSignalingMessage _ _ _) => unfold handleSignalingMessage
  | |- keeps _ (request_failed _) => unfold request_failed
  | |- keeps _ (request_begin _) => unfold request_begin
  | |- keeps _ (request_resume _) => unfold request_resume
  | |- keeps _ (acquire) => unfold acquire
  | |- keeps _ (toggleAudio) => unfold toggleAudio
  | |- keeps _ (toggleVideo) => unfold toggleVideo
  | |- keeps _ (stop_track _) => unfold stop_track
  | |- keeps _ (cleanup _ _) => unfold cleanup
  end.

Tactic Notation "solve_keeps" tactic3(side) := repeat keeps_step; try side.

(** ** After the first acquisition fails, signaling never starts *)

Lemma flip_kind_awaiting_media k s l : awaiting_media (flip_kind k s l) = awaiting_media l.
Proof. by rewrite flip_kind_set. Qed.

Lemma flip_kind_awaiting_connect k s l :
  awaiting_connect (flip_kind k s l) = awaiting_connect l.
Proof. by rewrite flip_kind_set. Qed.

Section Offline.
Context {T : Type} `{TransportLaws T} (p : props) (userName : string).

(** No acquisition of the initial [initializeCall] is pending, no
    [connect] callback is pending, and the service holds no client. *)
Definition offline (s : local * T) : Prop :=
  awaiting_media s.1 <> Some AfterInit /\ awaiting_connect s.1 = None /\
  ws_has_client s.2 = false.

Lemma offline_tr_send r m : forall l t, offline (l, t) -> offline (l, exec (ws_send r m) t).
Proof. intros l t (?&?&Hc). unfold exec. by rewrite send_no_client. Qed.

Lemma offline_tr_subscribe r : forall l t, offline (l, t) -> offline (l, exec (ws_subscribe r) t).
Proof. intros l t (?&?&Hc). unfold exec. by rewrite subscribe_no_client. Qed.

Lemma offline_tr_unsubscribe r :
  forall l t, offline (l, t) -> offline (l, exec (ws_unsubscribe r) t).
Proof. intros l t (?&?&Hc). split_and!; [done|done|]. cbn. by rewrite unsubscribe_has_client. Qed.

Lemma offline_tr_disconnect : forall l t, offline (l, t) -> offline (l, exec ws_disconnect t).
Proof. intros l t (?&?&Hc). split_and!; [done|done|]. apply disconnect_no_client. Qed.

End Offline.

Ltac offline_side :=
  first
    [ apply offline_tr_send | apply offline_tr_subscribe
    | apply offline_tr_unsubscribe | apply offline_tr_disconnect
    | intros *; intros (?&?&?); cbn in *; repeat case_match;
      unfold offline; cbn; rewrite ?flip_kind_awaiting_media, ?flip_kind_awaiting_connect;
      split_and!; done ].

Section OfflineRun.
Context {T : Type} `{TransportLaws T} (p : props) (userName : string).

Lemma offline_media_resolved o : keeps offline (media_resolved p userName o).
Proof.
  unfold media_resolved. apply keeps_get_bind. intros [l t] (Ha & ? & ?).
  destruct (awaiting_media l) as [[]|] eqn:E; cbn in Ha; [done| |].
  - solve_keeps offline_side.
  - solve_keeps offline_side.
Qed.

Lemma offline_onConnected : keeps offline (onConnected p userName).
Proof.
  unfold onConnected. apply keeps_get_bind. intros [l t] (? & Hc & ?).
  cbn in Hc. rewrite Hc. apply keeps_ret.
Qed.

Lemma offline_run_event e : keeps offline (run_event p userName e).
Proof.
  destruct e; cbn [run_event].
  - solve_keeps offline_side.
  - solve_keeps offline_side.
  - unfold endCall. solve_keeps offline_side.
  - unfold retryCall. solve_keeps offline_side.
  - unfold unmount. solve_keeps offline_side.
  - apply offline_media_resolved.
  - apply offline_onConnected.
  - solve_keeps offline_side.
  - unfold ice_gathered. solve_keeps offline_side.
Qed.

End OfflineRun.

Lemma offline_run_events {T} `{TransportLaws T} p userName es (s : local * T) :
  offline s -> offline (run_events p userName es s).
Proof.
  revert s. induction es as [|e es IH]; intros s Hs; [done|].
  apply IH, offline_run_event, Hs.
Qed.

Lemma offline_after_denied {T} `{TransportLaws T} p userName err (t : T) :
  ws_has_client t = false ->
  offline (exec (mount_effect p ;; media_resolved p userName (Denied err)) (init_local, t)).
Proof.
  intros Ht. unfold mount_effect, initializeCall, request_begin.
  destruct (params_missing p), (insecure p); js_unfold; split_and!; done.
Qed.


(** C10: after a first [getUserMedia] failure, nothing the user or the
    browser does ever gives the page a signaling client: [retryCall] only
    calls [startCall], never [WebSocketService.connect], so the Retry
    button (the specification's "Retry after failure re-acquires media and
    reconnects") cannot bring the call back.  Holds for every transport
    satisfying [TransportLaws] and every sequence of events. *)
Theorem retry_never_connects {T} `{TransportLaws T} p userName err (t : T) es :
  ws_has_client t = false ->
  ws_has_client
    (run_events p userName es
       (exec (mount_effect p ;; media_resolved p userName (Denied err)) (init_local, t))).2
  = false.
Proof.
  intros Ht. apply offline_run_events, offline_after_denied, Ht.
Qed.

Lemma retry_never_connects_witness :
  let p := mk_props (Some "42") (Some "patient") (Some "7") (Some "Pat") "https:" "clinic.example" in
  let err := mk_error "NotAllowedError" "Permission denied" in
  let s1 := exec (mount_effect p ;; media_resolved p "Pat" (Denied err))
              (init_local, (WebSocketService.init_service, WebSocketService.init_net)) in
  enabled UiRetry s1.1 = true /\
  ws_has_client (WebSocketService.init_service, WebSocketService.init_net) = false /\
  ws_has_client (run_events p "Pat" [UiRetry; MediaResolved Granted; Connected] s1).2 = false.
Proof.
  cbv zeta. split; [vm_compute; reflexivity|]. split; [reflexivity|].
  exact (retry_never_connects _ "Pat" _ (WebSocketService.init_service, WebSocketService.init_net)
           [UiRetry; MediaResolved Granted; Connected] eq_refl).
Defined.

(** the successful path does connect: with all parameters present
    in a secure context, once the first [getUserMedia] call is granted,
    [initializeCall] has called [WebSocketService.connect] (the service
    holds a client) and waits for its [onConnected] callback with the new
    stream. *)
Theorem grant_connects p userName (s : WebSocketService.st) :
  params_missing p = false -> insecure p = false ->
  let s1 := exec (mount_effect p ;; media_resolved p userName Granted) (init_local, s) in
  ws_has_client s1.2 = true /\ is_Some (awaiting_connect s1.1).
Proof.
  intros Hp Hi. unfold mount_effect, initializeCall, request_begin.
  rewrite Hp. destruct s as [sv n].
  unfold media_resolved, request_resume, acquire, alloc, initializeCall_resume.
  revert Hi. destruct (insecure p); intros Hi; [done|]. js_unfold.
  split; [reflexivity|eauto].
Qed.

Lemma grant_connects_witness :
  let p := mk_props (Some "42") (Some "doctor") (Some "3") (Some "Doc") "http:" "localhost" in
  params_missing p = false /\ insecure p = false /\
  (let s1 := exec (mount_effect p ;; media_resolved p "Doc" Granted)
               (init_local, (WebSocketService.init_service, WebSocketService.init_net)) in
   ws_has_client s1.2 = true /\ is_Some (awaiting_connect s1.1)).
Proof.
  cbv zeta. split; [reflexivity|]. split; [reflexivity|].
  apply grant_connects; reflexivity.
Defined.

(** ** [endCall] and the effect's cleanup *)

Lemma stop_one_nav l a x : stop_one (set_nav x l) a = set_nav x (stop_one l a).
Proof. unfold stop_one. destruct l; cbn. by case_match. Qed.

Lemma stop_all_nav ls l x : stop_all ls (set_nav x l) = set_nav x (stop_all ls l).
Proof.
  destruct ls as [s|]; [|done]. unfold stop_all.
  generalize (ms_tracks s) as xs. intros xs. revert l.
  induction xs as [|y xs IH]; intros l; [done|]. cbn [foldl].
  by rewrite stop_one_nav, IH.
Qed.

Lemma close_current_nav l x : close_current (set_nav x l) = set_nav x (close_current l).
Proof. unfold close_current. destruct l; cbn. by repeat case_match. Qed.

Lemma stop_one_ui l a : ui (stop_one l a) = ui l.
Proof. unfold stop_one. by case_match. Qed.

Lemma stop_all_ui ls l : ui (stop_all ls l) = ui l.
Proof.
  destruct ls as [s|]; [|done]. unfold stop_all.
  generalize (ms_tracks s) as xs. intros xs. revert l.
  induction xs as [|y xs IH]; intros l; [done|]. cbn [foldl].
  by rewrite IH, stop_one_ui.
Qed.

Lemma close_current_ui l : ui (close_current l) = ui l.
Proof. unfold close_current. by repeat case_match. Qed.

Lemma close_current_tracks l : tracks (close_current l) = tracks l.
Proof. unfold close_current. by repeat case_match. Qed.

Lemma close_current_mounted l : mounted (close_current l) = mounted l.
Proof. unfold close_current. by repeat case_match. Qed.

Definition dashboard (p : props) : string :=
  if role_is p "patient" then "/patient-dashboard" else "/doctor-dashboard".

Lemma endCall_run {T} `{SignalingTransport T} p l (t : T) :
  endCall p (l, t) =
  match cleanup p (localStream (ui l)) (l, t) with
  | ((l', t'), Ok _) => ((set_nav (Some (dashboard p)) l', t'), Ok tt)
  | (s', Thrown e) => (s', Thrown e)
  end.
Proof.
  unfold endCall. cbv [mbind js_bind get]. by destruct (cleanup _ _ _) as [[l' t'] []].
Qed.

Lemma cleanup_nav {T} `{SignalingTransport T} p ls l x (t : T) :
  cleanup p ls (set_nav x l, t) =
  match cleanup p ls (l, t) with ((l', t'), r) => ((set_nav x l', t'), r) end.
Proof.
  rewrite !cleanup_run. cbv zeta. rewrite stop_all_nav, close_current_nav.
  destruct (ws_unsubscribe _ t) as [t1 []]; [|done]. by destruct (ws_disconnect t1).
Qed.

Lemma cleanup_ui {T} `{SignalingTransport T} p ls l (t : T) :
  ui (exec (cleanup p ls) (l, t)).1 = ui l.
Proof.
  unfold exec. rewrite cleanup_run. cbv zeta.
  destruct (ws_unsubscribe _ t) as [t1 []]; [destruct (ws_disconnect t1)|];
    cbn; by rewrite close_current_ui, stop_all_ui.
Qed.

Lemma set_nav_twice x y l : set_nav x (set_nav y l) = set_nav x l.
Proof. by destruct l. Qed.

(** C9: [endCall] is idempotent (the specification's "calling [endCall]
    twice is safe"): a second [endCall] from the state the first produced
    leaves it unchanged and has the same outcome.  Tracks stay stopped,
    the connection stays closed, the service stays disconnected and the
    navigation target is the same; an error of the first run (unsubscribing
    through a client that is not connected) is raised again. *)
Theorem endCall_idempotent {T} `{TransportLaws T} p (s : local * T) :
  endCall p (exec (endCall p) s) = endCall p s.
Proof.
  destruct s as [l t].
  pose proof (cleanup_idempotent p (localStream (ui l)) (l, t)) as Hi.
  pose proof (cleanup_ui p (localStream (ui l)) l t) as Hu.
  unfold exec in Hi, Hu |- *. rewrite (endCall_run p l t).
  destruct (cleanup p _ (l, t)) as [[l' t'] [[]|e]] eqn:E; cbn in Hi, Hu |- *.
  - rewrite endCall_run. cbn. rewrite Hu, cleanup_nav, Hi. cbn.
    by rewrite set_nav_twice.
  - by rewrite endCall_run, Hu, Hi.
Qed.

Lemma stop_one_lookup l a i :
  tracks (stop_one l a) !! i = if decide (i = a) then stopped <$> tracks l !! i else tracks l !! i.
Proof.
  unfold stop_one. destruct (decide (i = a)) as [->|Hne].
  - destruct (tracks l !! a) eqn:E; cbn; [by rewrite lookup_insert_eq|by rewrite E].
  - case_match; cbn; [by rewrite lookup_insert_ne by congruence|done].
Qed.

Lemma stopped_idem tk : stopped (stopped tk) = stopped tk.
Proof. done. Qed.

Lemma stop_all_lookup s l i :
  tracks (stop_all (Some s) l) !! i =
  if decide (i ∈ ms_tracks s) then stopped <$> tracks l !! i else tracks l !! i.
Proof.
  unfold stop_all. generalize (ms_tracks s) as xs. intros xs. revert l.
  induction xs as [|x xs IH]; intros l; [done|]. cbn [foldl].
  rewrite stop_fold_comm, stop_one_lookup, IH.
  destruct (decide (i = x)) as [->|Hne].
  - rewrite (decide_True (P := x ∈ x :: xs)) by (rewrite elem_of_cons; by left).
    destruct (decide (x ∈ xs)); [|done]. by destruct (tracks l !! x).
  - destruct (decide (i ∈ xs)) as [Hin|Hin].
    + by rewrite (decide_True (P := i ∈ x :: xs)) by (rewrite elem_of_cons; by right).
    + rewrite (decide_False (P := i ∈ x :: xs)); [done|].
      rewrite elem_of_cons. tauto.
Qed.

Lemma cleanup_tracks {T} `{SignalingTransport T} p ls l (t : T) :
  tracks (exec (cleanup p ls) (l, t)).1 = tracks (stop_all ls l).
Proof.
  unfold exec. rewrite cleanup_run. cbv zeta.
  destruct (ws_unsubscribe _ t) as [t1 []]; [destruct (ws_disconnect t1)|];
    cbn; by rewrite close_current_tracks.
Qed.

(** C13: [endCall] stops every track of the local stream, whether or not
    the transport calls that follow succeed, and leaves the other tracks
    of the store as they were. *)
Theorem endCall_stops_tracks {T} `{SignalingTransport T} p l (t : T) s i :
  localStream (ui l) = Some s ->
  tracks (exec (endCall p) (l, t)).1 !! i =
  if decide (i ∈ ms_tracks s) then stopped <$> tracks l !! i else tracks l !! i.
Proof.
  intros Hs. unfold exec. rewrite endCall_run.
  pose proof (cleanup_tracks p (localStream (ui l)) l t) as Ht. unfold exec in Ht.
  rewrite Hs in Ht |- *.
  destruct (cleanup p _ (l, t)) as [[l' t'] [[]|e]]; cbn [fst snd tracks set_nav] in Ht |- *;
    by rewrite Ht, stop_all_lookup.
Qed.

(** C14: the effect's cleanup runs when the component unmounts (the user
    navigates away without pressing End Call), but it is the closure of the
    first render, where [localStream] is [null]: no track is stopped, so
    the camera and microphone stay on. *)
Theorem unmount_leaves_tracks {T} `{SignalingTransport T} p (s : local * T) :
  tracks (exec (unmount p) s).1 = tracks s.1 /\ mounted (exec (unmount p) s).1 = false.
Proof.
  destruct s as [l t]. pose proof (cleanup_tracks p None l t) as Ht.
  unfold unmount, exec in *. cbv [mbind js_bind js_try throw].
  destruct (cleanup p None (l, t)) as [[l' t'] [[]|e]] eqn:E;
    cbn [fst snd] in Ht |- *; rewrite ?upd_run; cbn [fst tracks mounted set_mounted];
    by rewrite Ht.
Qed.

(** C15: an acquisition that resolves after the component has unmounted
    is still carried through: the stream's tracks are created live and are
    never stopped, and [initializeCall] still calls
    [WebSocketService.connect] for a page that is gone. *)
Theorem late_grant_after_unmount p userName :
  params_missing p = false -> insecure p = false ->
  let s1 := run_events p userName [Unmount; MediaResolved Granted]
              (exec (mount_effect p)
                 (init_local, (WebSocketService.init_service, WebSocketService.init_net))) in
  mounted s1.1 = false /\ ws_has_client s1.2 = true /\
  tracks s1.1 <> ∅ /\ map_Forall (fun _ tk => tr_live tk = true) (tracks s1.1).
Proof.
  intros Hp Hi. cbv zeta. cbn [run_events run_event].
  unfold mount_effect, initializeCall, request_begin. rewrite Hp.
  unfold media_resolved, request_resume, acquire, alloc, initializeCall_resume.
  revert Hi. destruct (insecure p); intros Hi; [done|]. js_unfold.
  split_and!; [done|done| |].
  - apply insert_non_empty.
  - apply map_Forall_insert_2; [done|]. apply map_Forall_insert_2; [done|].
    apply map_Forall_empty.
Qed.

Lemma late_grant_after_unmount_witness :
  let p := mk_props (Some "42") (Some "patient") (Some "7") None "https:" "clinic.example" in
  params_missing p = false /\ insecure p = false /\
  (let s1 := run_events p "Patient" [Unmount; MediaResolved Granted]
               (exec (mount_effect p)
                  (init_local, (WebSocketService.init_service, WebSocketService.init_net))) in
   mounted s1.1 = false /\ ws_has_client s1.2 = true /\
   tracks s1.1 <> ∅ /\ map_Forall (fun _ tk => tr_live tk = true) (tracks s1.1)).
Proof.
  cbv zeta. split; [reflexivity|]. split; [reflexivity|].
  apply late_grant_after_unmount; reflexivity.
Defined.

Lemma endCall_idempotent_witness :
  let p := mk_props (Some "42") (Some "doctor") (Some "3") (Some "Doc") "https:" "clinic.example" in
  let s0 := exec (mount_effect p ;; media_resolved p "Doc" Granted)
              (init_local, (WebSocketService.init_service, WebSocketService.init_net)) in
  endCall p (exec (endCall p) s0) = endCall p s0.
Proof. cbv zeta. apply (endCall_idempotent (T := WebSocketService.st)). Defined.

Lemma endCall_stops_tracks_witness :
  let p := mk_props (Some "42") (Some "doctor") (Some "3") (Some "Doc") "https:" "clinic.example" in
  let s0 := exec (mount_effect p ;; media_resolved p "Doc" Granted)
              (init_local, (WebSocketService.init_service, WebSocketService.init_net)) in
  localStream (ui s0.1) = Some (mk_stream 2 [0; 1]) /\
  tracks (exec (endCall p) s0).1 !! 1 =
  if decide (1 ∈ [0; 1]) then stopped <$> tracks s0.1 !! 1 else tracks s0.1 !! 1.
Proof.
  cbv zeta. split; [vm_compute; reflexivity|].
  remember (exec (_ ≫= _) _) as s0 eqn:E. destruct s0 as [l t].
  apply (endCall_stops_tracks (T := WebSocketService.st) _ l t (mk_stream 2 [0; 1])).
  change l with (fst (l, t)). rewrite E. vm_compute. reflexivity.
Defined.
