(* ===== verification/Session.v ===== *)
(** * A call between two browser tabs

    The doctor's tab and the patient's tab each run their own
    [VideoCall.jsx] component and their own [WebSocketService] singleton;
    they share the STOMP relay ([WebSocketService.net]).  A [world] holds
    the two components, the two services, the relay, and which tab owns
    each STOMP client.  [wstep] runs one event: a tab mounts, a tab
    handles one of its events ([Lifecycle.run_event]), the relay's
    CONNECTED frame reaches a client (the callback given to
    [WebSocketService.connect] runs [onConnected]), or the relay hands the
    head of a subscription's queue to the tab that subscribed (its
    [handleSignalingMessage]).  Any interleaving of these events is a
    schedule the browsers and the network may produce.  The last part
    proves that the signaling exchange terminates: the measure [queued]
    of the relay's frames drops with every delivery. *)

From S2P Require Import Prelude Signaling Transport Browser CallState Media Negotiation Lifecycle.

Inductive side := Doc | Pat.

#[export] Instance side_eq_dec : EqDecision side.
Proof. solve_decision. Defined.

Record world := mk_world {
  w_doc : local;
  w_doc_svc : WebSocketService.service;
  w_pat : local;
  w_pat_svc : WebSocketService.service;
  w_net : WebSocketService.net;
  w_owner : gmap nat side
}.

Inductive wevent :=
| Mount (s : side)
| Ev (s : side) (e : event)
| NetConnected (c : nat)
| NetDeliver (sid : nat).

Definition init_world : world :=
  mk_world init_local WebSocketService.init_service init_local WebSocketService.init_service
    WebSocketService.init_net ∅.

Section World.
Context (pd pp : props) (ud up : string).

Definition b_props (s : side) : props := match s with Doc => pd | Pat => pp end.
Definition b_name (s : side) : string := match s with Doc => ud | Pat => up end.

Definition b_local (s : side) (w : world) : local :=
  match s with Doc => w_doc w | Pat => w_pat w end.
Definition b_svc (s : side) (w : world) : WebSocketService.service :=
  match s with Doc => w_doc_svc w | Pat => w_pat_svc w end.

Definition set_browser (s : side) (l : local) (svc : WebSocketService.service)
    (n : WebSocketService.net) (o : gmap nat side) (w : world) : world :=
  match s with
  | Doc => mk_world l svc (w_pat w) (w_pat_svc w) n o
  | Pat => mk_world (w_doc w) (w_doc_svc w) l svc n o
  end.

Definition set_net (n : WebSocketService.net) (w : world) : world :=
  mk_world (w_doc w) (w_doc_svc w) (w_pat w) (w_pat_svc w) n (w_owner w).

(** A client the tab's service did not hold before belongs to the tab. *)
Definition claim (s : side) (old new : WebSocketService.service) (o : gmap nat side) :
  gmap nat side :=
  match WebSocketService.stompClient new with
  | Some c => if decide (WebSocketService.stompClient old = Some c) then o else <[c := s]> o
  | None => o
  end.

(** Run code of tab [s] on its component, its service and the relay. *)
Definition run_browser (s : side) (c : js (local * WebSocketService.st) unit) (w : world) : world :=
  let '(l', (svc', n')) := exec c (b_local s w, (b_svc s w, w_net w)) in
  set_browser s l' svc' n' (claim s (b_svc s w) svc' (w_owner w)) w.

Definition wstep (e : wevent) (w : world) : world :=
  match e with
  | Mount s => run_browser s (mount_effect (b_props s)) w
  | Ev s e => run_browser s (run_event (b_props s) (b_name s) e) w
  | NetConnected c =>
      match WebSocketService.net_clients (w_net w) !! c with
      | Some false =>
          let w1 := set_net (WebSocketService.establish c (w_net w)) w in
          match w_owner w !! c with
          | Some s => run_browser s (onConnected (b_props s) (b_name s)) w1
          | None => w1
          end
      | _ => w
      end
  | NetDeliver sid =>
      match WebSocketService.deliver sid (w_net w), WebSocketService.net_subs (w_net w) !! sid with
      | Some (m, n'), Some sb =>
          let w1 := set_net n' w in
          match w_owner w !! WebSocketService.sub_client sb with
          | Some s => run_browser s (handleSignalingMessage (b_props s) (b_name s) m) w1
          | None => w1
          end
      | _, _ => w
      end
  end.

Fixpoint run_world (es : list wevent) (w : world) : world :=
  match es with [] => w | e :: es => run_world es (wstep e w) end.

End World.

(** The tab's current [RTCPeerConnection] has completed the offer/answer
    exchange and the remote stream is shown. *)
Definition tab_connected (l : local) : bool :=
  match peerConnection l with
  | Some id =>
      match pcs l !! id with
      | Some pc => negotiated pc && bool_decide (is_Some (remoteStream (ui l)))
      | None => false
      end
  | None => false
  end.

Definition call_connected (w : world) : bool := tab_connected (w_doc w) && tab_connected (w_pat w).

(** ** The specification's scenario (room [R1], [doc1] and [pat1]) *)

Definition doc_props : props :=
  mk_props (Some "R1") (Some "doctor") (Some "doc1") (Some "Dr. Who") "https:" "clinic.example".
Definition pat_props : props :=
  mk_props (Some "R1") (Some "patient") (Some "pat1") (Some "Pat") "https:" "clinic.example".

Definition run_scenario (es : list wevent) : world :=
  run_world doc_props pat_props "Dr. Who" "Pat" es init_world.

(** The patient's tab is ready first: both get their media, the
    patient's client connects and subscribes, then the doctor's, whose
    [startCall] publishes the offer; the relay delivers it to the patient,
    whose answer is then delivered to the doctor (after the doctor's own
    offer, which it ignores); the patient finally receives its own answer. *)
Definition patient_first : list wevent :=
  [Mount Pat; Mount Doc; Ev Pat (MediaResolved Granted); Ev Doc (MediaResolved Granted);
   NetConnected 0; NetConnected 1; NetDeliver 2; NetDeliver 3; NetDeliver 3; NetDeliver 2].

(** The doctor's tab is ready first: its offer is published while the
    patient's tab has not subscribed yet. *)
Definition doctor_first : list wevent :=
  [Mount Doc; Ev Doc (MediaResolved Granted); NetConnected 0; NetDeliver 1;
   Mount Pat; Ev Pat (MediaResolved Granted); NetConnected 2].

Definition sent (w : world) : list (string * string * option string) :=
  (fun '(_, r, m) => (r, sig_type m, sig_from m)) <$> WebSocketService.net_log (w_net w).

Definition queues_empty (w : world) : bool :=
  bool_decide (map_Forall (fun _ sb => WebSocketService.sub_queue sb = [])
                 (WebSocketService.net_subs (w_net w))).



(** ** The relay drains *)

Import WebSocketService.

(** What the frames queued at the relay may still cause: each counts one,
    and an offer also counts the answers its delivery may publish, at
    most one frame per subscription. *)
Definition frame_weight (S : nat) (m : signal) : nat :=
  if String.eqb (sig_type m) "offer" then S + 1 else 1.

Definition sub_weight (S : nat) (sb : subscription) : nat :=
  sum_list_with (frame_weight S) (sub_queue sb).

Definition queued (n : net) : nat :=
  sum_list_with (fun kv => sub_weight (size (net_subs n)) kv.2) (map_to_list (net_subs n)).

(** A schedule in which every event is a relay delivery that hands a
    frame to a subscription. *)
Fixpoint delivers (pd pp : props) (ud up : string) (sids : list nat) (w : world) : Prop :=
  match sids with
  | [] => True
  | sid :: sids' =>
      is_Some (deliver sid (w_net w)) /\ delivers pd pp ud up sids' (wstep pd pp ud up (NetDeliver sid) w)
  end.

Lemma deliver_some sid n m n' :
  deliver sid n = Some (m, n') ->
  exists c d q, net_subs n !! sid = Some (mk_sub c d (m :: q)) /\
    n' = mk_net (net_clients n) (<[sid := mk_sub c d q]> (net_subs n)) (net_fresh n) (net_log n).
Proof.
  unfold deliver. destruct (net_subs n !! sid) as [[c d [|m0 q]]|]; intros H; try done.
  injection H as <- <-. eauto.
Qed.

Lemma queued_deliver sid n m n' :
  deliver sid n = Some (m, n') ->
  size (net_subs n') = size (net_subs n) /\
  queued n' + frame_weight (size (net_subs n)) m = queued n.
Proof.
  intros (c & d & q & Hs & ->)%deliver_some. unfold queued. cbn [net_subs].
  assert (Hsz : size (<[sid := mk_sub c d q]> (net_subs n)) = size (net_subs n))
    by (apply map_size_insert_Some; eauto).
  split; [done|]. rewrite Hsz.
  rewrite <- (map_to_list_delete (net_subs n) sid _ Hs).
  rewrite <- (map_to_list_delete (<[sid := mk_sub c d q]> (net_subs n)) sid (mk_sub c d q))
    by apply lookup_insert_eq.
  rewrite delete_insert_eq. cbn. unfold sub_weight. cbn. lia.
Qed.

Lemma queued_publish c r a n :
  sig_type a = "answer"%string ->
  size (net_subs (publish c r a n)) = size (net_subs n) /\
  queued (publish c r a n) <= queued n + size (net_subs n).
Proof.
  intros Ha. unfold queued, publish. cbn [net_subs]. rewrite map_size_fmap.
  split; [done|]. rewrite map_to_list_fmap, sum_list_with_fmap.
  set (S := size (net_subs n)).
  etransitivity; [apply (sum_list_with_le_plus _ (fun kv => sub_weight S kv.2) 1)|];
    [|rewrite length_map_to_list; lia].
  intros [k sb] _. cbn. unfold sub_weight.
  case_match; cbn; [|lia]. rewrite sum_list_with_app. cbn.
  unfold frame_weight at 2. rewrite Ha. cbn. lia.
Qed.

Lemma w_net_set_browser s l svc n o w : w_net (set_browser s l svc n o w) = n.
Proof. by destruct s. Qed.

Lemma frame_weight_pos S m : 1 <= frame_weight S m.
Proof. unfold frame_weight. case_match; lia. Qed.

Lemma sendMessage_net r a s n :
  (exec (sendMessage r a) (s, n)).2 = n \/
  exists c, (exec (sendMessage r a) (s, n)).2 = publish c r a n.
Proof.
  unfold sendMessage. js_unfold. destruct (stompClient s) as [c|]; [|by left].
  destruct (is_connected n c); cbn; [right; by exists c | by left].
Qed.

(** The relay after a tab handles a delivered message: unchanged, or, for
    an offer, with one answer published. *)
Lemma handler_net p userName m l s n :
  let n' := (exec (handleSignalingMessage p userName m) (l, (s, n))).2.2 in
  n' = n \/
  (String.eqb (sig_type m) "offer" = true /\
   exists c r a, sig_type a = "answer"%string /\ n' = publish c r a n).
Proof.
  cbv zeta. destruct (handler_sends (T := st) p userName m) as [Hs Hl].
  destruct (String.eqb (sig_type m) "offer") eqn:Ho.
  - unfold exec. destruct (Hs l (s, n)) as [-> | (a & Ha & ->)]; [by left|].
    change (ws_send (js_str (p_roomId p)) a (s, n)).1 with (exec (sendMessage (js_str (p_roomId p)) a) (s, n)).
    destruct (sendMessage_net (js_str (p_roomId p)) a s n) as [-> | [c ->]]; [by left|].
    right. split; [done|]. eauto.
  - left. unfold exec. by rewrite (Hl eq_refl l (s, n)).
Qed.

Section Drain.
Context (pd pp : props) (ud up : string).

(** Each delivery lowers the relay's measure. *)
Lemma queued_wstep_deliver w sid :
  is_Some (deliver sid (w_net w)) ->
  queued (w_net (wstep pd pp ud up (NetDeliver sid) w)) < queued (w_net w).
Proof.
  intros [[m n'] Ed]. pose proof (queued_deliver _ _ _ _ Ed) as [Hsz Hq].
  pose proof (frame_weight_pos (size (net_subs (w_net w))) m).
  destruct (deliver_some _ _ _ _ Ed) as (c & d & q & Hs & _).
  unfold wstep. rewrite Ed, Hs. cbn [sub_client].
  destruct (w_owner w !! c) as [s|]; [|cbn; lia].
  unfold run_browser.
  pose proof (handler_net (b_props pd pp s) (b_name ud up s) m (b_local s (set_net n' w))
                (b_svc s (set_net n' w)) n') as Hn.
  destruct (exec _ _) as [l' [svc' n'']]. rewrite w_net_set_browser. cbn [fst snd] in Hn.
  destruct Hn as [-> | (Ho & c' & r & a & Ha & ->)]; [lia|].
  destruct (queued_publish c' r a n' Ha) as [_ Hp]. rewrite Hsz in Hp.
  unfold frame_weight in Hq. rewrite Ho in Hq. lia.
Qed.

(** C12: termination of the signaling exchange.  However the relay
    interleaves its deliveries, a schedule made only of deliveries is no
    longer than the measure [queued] of the relay: an answer or an ICE
    candidate makes no tab send anything, and an offer makes at most one
    tab publish one answer.  While a frame is queued, some delivery is
    possible, so delivering until no subscription has a frame left always
    ends, with every queue empty. *)
Theorem relay_drains w :
  (forall sids, delivers pd pp ud up sids w -> length sids <= queued (w_net w)) /\
  (0 < queued (w_net w) -> exists sid, is_Some (deliver sid (w_net w))).
Proof.
  split.
  - intros sids. revert w. induction sids as [|sid sids IH]; intros w; cbn [delivers length]; [lia|].
    intros [Hd Hr]. pose proof (queued_wstep_deliver w sid Hd). specialize (IH _ Hr). lia.
  - unfold queued. intros ([sid [c d q]] & Hin & Hpos)%sum_list_with_pos.
    apply elem_of_map_to_list in Hin. exists sid. unfold deliver. rewrite Hin.
    destruct q; [cbn in Hpos; lia|]. by eexists.
Qed.

End Drain.

(** Both tabs subscribed, the doctor's offer queued on both
    subscriptions: the four deliveries of [patient_first] follow. *)
Definition offer_queued : world :=
  run_scenario [Mount Pat; Mount Doc; Ev Pat (MediaResolved Granted);
                Ev Doc (MediaResolved Granted); NetConnected 0; NetConnected 1].

Lemma relay_drains_witness :
  queued (w_net offer_queued) = 6 /\
  delivers doc_props pat_props "Dr. Who" "Pat" [2; 3; 3; 2] offer_queued /\
  length [2; 3; 3; 2] <= queued (w_net offer_queued).
Proof.
  assert (Hd : delivers doc_props pat_props "Dr. Who" "Pat" [2; 3; 3; 2] offer_queued)
    by (vm_compute; split_and!; eexists; reflexivity).
  split; [vm_compute; reflexivity|]. split; [exact Hd|].
  exact (proj1 (relay_drains doc_props pat_props "Dr. Who" "Pat" offer_queued) _ Hd).
Defined.
