(* ===== verification/NegotiationSpec.v ===== *)
(** * The negotiation state machine of the specification

    Section 4.3 of the specification describes one negotiation instance
    per call attempt, with the states [Idle], [AwaitingLocalMedia],
    [SignalingConnected], [OfferSent], [OfferReceived], [AnswerSent],
    [Connected] and [Failed], and transitions that depend on the
    participant's role (the doctor initiates, the patient responds).
    Section 4.4 adds teardown, which discards the instance from any
    state.  This file states that machine abstractly: [nstep r k a a']
    is a transition of a participant of role [r], triggered by [k], from
    [a] to [a'] ([None] is a discarded instance).  Nothing here refers
    to the code; [Refinement] proves that [VideoCall.jsx] implements it. *)

From S2P Require Import Prelude.

Inductive nstate :=
| Idle | AwaitingLocalMedia | SignalingConnected | OfferSent | OfferReceived
| AnswerSent | Connected | Failed.

#[export] Instance nstate_eq_dec : EqDecision nstate.
Proof. solve_decision. Defined.

(** The participant's role: initiator (doctor), responder (patient), or
    neither (a role the specification does not know). *)
Inductive arole := Initiator | Responder | Observer.

#[export] Instance arole_eq_dec : EqDecision arole.
Proof. solve_decision. Defined.

(** What triggers a transition: the call start, local media and the
    transport being ready, an inbound offer, answer or ICE candidate, the
    manual retry, teardown, or a purely local action (mute, camera,
    candidate discovery). *)
Inductive trigger := TStart | TReady | TOffer | TAnswer | TIce | TRetry | TTeardown | TLocal.

#[export] Instance trigger_eq_dec : EqDecision trigger.
Proof. solve_decision. Defined.

(** "Any state -> Failed on unrecoverable acquisition or transport
    error": the triggers that acquire media or use the transport. *)
Definition may_fail (k : trigger) : bool :=
  match k with TStart | TReady | TRetry => true | _ => false end.

Inductive nstep : arole -> trigger -> option nstate -> option nstate -> Prop :=
| n_start r : nstep r TStart (Some Idle) (Some AwaitingLocalMedia)
| n_ready r : nstep r TReady (Some AwaitingLocalMedia) (Some SignalingConnected)
| n_offer_sent : nstep Initiator TReady (Some SignalingConnected) (Some OfferSent)
| n_offer_received : nstep Responder TOffer (Some SignalingConnected) (Some OfferReceived)
| n_answer_sent : nstep Responder TOffer (Some OfferReceived) (Some AnswerSent)
| n_connected : nstep Initiator TAnswer (Some OfferSent) (Some Connected)
| n_fail r k a : may_fail k = true -> nstep r k (Some a) (Some Failed)
| n_retry r : nstep r TRetry (Some Failed) (Some AwaitingLocalMedia)
| n_teardown r a : nstep r TTeardown a None.

(** The transitions one event may cause: any number of steps with its
    trigger (none: the state is unchanged). *)
Definition nsteps (r : arole) (k : trigger) : relation (option nstate) := rtc (nstep r k).

#[export] Hint Constructors nstep : vc.

Lemma nsteps_one r k a a' : nstep r k a a' -> nsteps r k a a'.
Proof. apply rtc_once. Qed.

Lemma nsteps_two r k a a' a'' : nstep r k a a' -> nstep r k a' a'' -> nsteps r k a a''.
Proof. intros H1 H2. eapply rtc_l; [exact H1|]. by apply rtc_once. Qed.

Lemma nsteps_fail r k a : may_fail k = true -> nsteps r k (Some a) (Some Failed).
Proof. intros Hk. apply nsteps_one. by constructor. Qed.

#[export] Hint Resolve nsteps_one nsteps_fail rtc_refl : vc.

(** The role's lane: only an initiator sends an offer or is connected by
    an answer, only a responder receives an offer or answers it. *)
Definition in_lane (r : arole) (a : option nstate) : Prop :=
  (a = Some OfferSent \/ a = Some Connected -> r = Initiator) /\
  (a = Some OfferReceived \/ a = Some AnswerSent -> r = Responder).

Lemma nstep_in_lane r k a a' : nstep r k a a' -> in_lane r a'.
Proof. intros H. inversion H; subst; split; intros [?|?]; congruence. Qed.

Lemma nsteps_in_lane r k a a' : in_lane r a -> nsteps r k a a' -> in_lane r a'.
Proof. intros Ha Hs. induction Hs as [|a b c Hab _ IH]; [done|]. apply IH, (nstep_in_lane _ _ _ _ Hab). Qed.

#[export] Instance nsteps_refl r k : Reflexive (nsteps r k).
Proof. intros a. apply rtc_refl. Qed.

#[export] Instance nsteps_trans r k : Transitive (nsteps r k).
Proof. intros a b c. apply rtc_trans. Qed.
