(* ===== verification/Refinement.v ===== *)
(** * [VideoCall.jsx] refines the negotiation state machine

    The abstraction [abs] reads the negotiation state off the component:
    an unmounted component holds no instance; a shown error is [Failed];
    a pending [getUserMedia] or [connect] callback is
    [AwaitingLocalMedia]; otherwise the current [RTCPeerConnection]
    decides: [have-local-offer] is [OfferSent], [have-remote-offer] is
    [OfferReceived] (or [AnswerSent] while a renegotiating offer is
    applied), [stable] is [SignalingConnected] before any description,
    [Connected] once the doctor's offer is answered and [AnswerSent] once
    the patient's answer is set; a closed connection is a discarded
    instance.

    The states the page can reach ([reachable]) are those after the mount
    effect and any sequence of events the page offers ([Lifecycle.enabled])
    with well-formed signaling messages (the [sdp] of an ["answer"] is an
    answer, that of an ["offer"] an offer, as the specification's tagged
    union has it) and a [connect] callback that runs once the client is
    connected ([event_ok]).  On them the type invariant [inv] holds
    ([reachable_inv]), and every event moves [abs] along the
    specification's transitions for the event's trigger only
    ([negotiation_refinement]).  The handlers are proved with [moves]
    (the message handler) or with their run lemmas ([startCall_run],
    [endCall_run], [cleanup_run]); [event_refines] combines them. *)

From S2P Require Import Prelude Signaling Transport Browser CallState Media Negotiation Lifecycle NegotiationSpec.

(** ** Abstraction *)

Definition nstate_of_pc (pc : peer) : option nstate :=
  if pc_closed pc then None
  else match pc_state pc, pc_local pc with
       | HaveLocalOffer, _ => Some OfferSent
       | HaveRemoteOffer, Some d =>
           match sdp_kind d with SdpAnswer => Some AnswerSent | SdpOffer => Some OfferReceived end
       | HaveRemoteOffer, None => Some OfferReceived
       | Stable, None => Some SignalingConnected
       | Stable, Some d =>
           match sdp_kind d with SdpOffer => Some Connected | SdpAnswer => Some AnswerSent end
       end.

(** The negotiation state of the current connection. *)
Definition abs_pc (l : local) : option nstate :=
  match peerConnection l with
  | None => Some Idle
  | Some id => match pcs l !! id with Some pc => nstate_of_pc pc | None => Some Idle end
  end.

(** What the component's own state says before the connection is
    consulted. *)
Definition abs_with (l : local) (a : option nstate) : option nstate :=
  if negb (mounted l) then None
  else if bool_decide (is_Some (error (ui l))) then Some Failed
  else if bool_decide (is_Some (awaiting_media l)) || bool_decide (is_Some (awaiting_connect l))
  then Some AwaitingLocalMedia
  else a.

Definition abs (l : local) : option nstate := abs_with l (abs_pc l).

Definition arole_of (p : props) : arole :=
  if role_is p "doctor" then Initiator
  else if role_is p "patient" then Responder
  else Observer.

(** The trigger of each event of a tab. *)
Definition trigger_of (e : event) : trigger :=
  match e with
  | UiToggleAudio | UiToggleVideo | IceGathered _ => TLocal
  | UiEndCall | Unmount => TTeardown
  | UiRetry => TRetry
  | MediaResolved _ | Lifecycle.Connected => TReady
  | Message m =>
      if String.eqb (sig_type m) "offer" then TOffer
      else if String.eqb (sig_type m) "answer" then TAnswer
      else TIce
  end.

(** A message whose [sdp] agrees with its [type]. *)
Definition msg_wf (m : signal) : Prop :=
  forall d, sig_sdp m = Some d ->
  (sig_type m = "offer"%string -> sdp_kind d = SdpOffer) /\
  (sig_type m = "answer"%string -> sdp_kind d = SdpAnswer).

(** What the environment guarantees when it delivers an event: a message
    is well formed, and the [connect] callback only runs once the client
    is connected, so that [subscribe] succeeds (specification 4.1:
    [onReady] is invoked "only after the underlying channel reports
    connected"). *)
Definition event_ok {T} `{SignalingTransport T} (e : event) (t : T) : Prop :=
  match e with
  | Message m => msg_wf m
  | Lifecycle.Connected => forall r, (ws_subscribe r t).2 = Ok tt
  | _ => True
  end.

(** ** The type invariant *)

(** [peerConnection.current] names a stored connection, every stored
    connection is stored under its own id, a connection in
    [have-local-offer] holds a local offer (JSEP), and a participant who
    is not the doctor never holds a local offer. *)
Definition inv (p : props) (l : local) : Prop :=
  (forall id, peerConnection l = Some id -> is_Some (pcs l !! id)) /\
  (forall id pc, pcs l !! id = Some pc -> pc_id pc = id) /\
  (forall id pc, pcs l !! id = Some pc -> pc_state pc = HaveLocalOffer ->
     exists d, pc_local pc = Some d /\ sdp_kind d = SdpOffer) /\
  (role_is p "doctor" = false ->
   forall id pc d, pcs l !! id = Some pc -> pc_local pc = Some d -> sdp_kind d = SdpAnswer).

(** ** Reachable states *)

Section Reach.
Context {T : Type} `{SignalingTransport T} (p : props) (userName : string).

Inductive reachable : local * T -> Prop :=
| reach_mount t : reachable (exec (mount_effect p) (init_local, t))
| reach_step s e :
    reachable s -> enabled e s.1 = true -> event_ok e s.2 ->
    reachable (exec (run_event p userName e) s).

End Reach.

Lemma abs_with_set_pcs x l a : abs_with (set_pcs x l) a = abs_with l a.
Proof. reflexivity. Qed.

(** ** A small program logic for the handlers

    [moves p r k Q c]: from a state satisfying [inv], [c] ends (returning or
    throwing) in a state satisfying [inv] whose abstraction is reached
    from the initial one by transitions of role [r] triggered by [k], and
    a returned value satisfies [Q]. *)

Section Moves.
Context {T : Type} (p : props) (r : arole) (k : trigger).
Local Abbreviation R := (nsteps r k).

Definition moves {A} (Q : A -> Prop) (c : js (local * T) A) : Prop :=
  forall l t, inv p l ->
  match c (l, t) with
  | ((l', _), Ok a) => R (abs l) (abs l') /\ inv p l' /\ Q a
  | ((l', _), Thrown _) => R (abs l) (abs l') /\ inv p l'
  end.

Lemma abs_with_mono l a a' : R a a' -> R (abs_with l a) (abs_with l a').
Proof. intros Ha. unfold abs_with. repeat case_match; done. Qed.

(** Replacing the current connection [pc] by [pc']. *)
Lemma moves_on_current (f : peer -> result peer) :
  (forall pc pc', f pc = Ok pc' -> pc_id pc' = pc_id pc) ->
  (forall l id pc pc', inv p l -> current_is l id pc -> f pc = Ok pc' ->
     inv p (set_pcs (<[id := pc']> (pcs l)) l) /\ R (nstate_of_pc pc) (nstate_of_pc pc')) ->
  moves (fun _ => True) (on_current f).
Proof.
  intros Hid Hf l t Hi. unfold on_current, current_pc. js_unfold.
  destruct (peerConnection l) as [id|] eqn:Ec; [|done].
  destruct (pcs l !! id) as [pc|] eqn:Ep; [|done].
  assert (Hcur : current_is l id pc) by (split_and!; [done|done|by eapply Hi]).
  destruct (f pc) as [pc'|e] eqn:Ef; cbn; [|done].
  unfold store_pc, upd. js_unfold. rewrite (Hid _ _ Ef), (proj2 (proj2 Hcur)).
  destruct (Hf l id pc pc' Hi Hcur Ef) as [Hi' HR]. split; [|done].
  unfold abs, abs_pc. rewrite abs_with_set_pcs. cbn. rewrite Ec, Ep, lookup_insert_eq.
  by apply abs_with_mono.
Qed.

Lemma moves_ret {A} (Q : A -> Prop) a : Q a -> moves Q (mret a).
Proof. intros HQ l t Hi. cbn. done. Qed.

Lemma moves_throw {A} (Q : A -> Prop) e : moves Q (throw e).
Proof. intros l t Hi. cbn. done. Qed.

Lemma moves_weaken {A} (Q Q' : A -> Prop) c :
  moves Q c -> (forall a, Q a -> Q' a) -> moves Q' c.
Proof.
  intros Hc HQ l t Hi. specialize (Hc l t Hi).
  destruct (c (l, t)) as [[l' t'] [a|e]]; naive_solver.
Qed.

Lemma moves_bind {A B} (Q : A -> Prop) (Q' : B -> Prop) c (f : A -> js (local * T) B) :
  moves Q c -> (forall a, Q a -> moves Q' (f a)) -> moves Q' (c ≫= f).
Proof.
  intros Hc Hf l t Hi. specialize (Hc l t Hi). cbv [mbind js_bind].
  destruct (c (l, t)) as [[l1 t1] [a|e]]; [|done].
  destruct Hc as (HR & Hi1 & HQ). specialize (Hf a HQ l1 t1 Hi1).
  destruct (f a (l1, t1)) as [[l2 t2] [b|e]]; destruct Hf as (HR2 & ?); split;
    [etrans; eauto|done|etrans; eauto|done].
Qed.

Lemma moves_try {A} (Q : A -> Prop) c h :
  moves Q c -> (forall e, moves Q (h e)) -> moves Q (js_try c h).
Proof.
  intros Hc Hh l t Hi. specialize (Hc l t Hi). unfold js_try.
  destruct (c (l, t)) as [[l1 t1] [a|e]]; [done|].
  destruct Hc as (HR & Hi1). specialize (Hh e l1 t1 Hi1).
  destruct (h e (l1, t1)) as [[l2 t2] [b|e']]; destruct Hh as (HR2 & ?); split;
    [etrans; eauto|done|etrans; eauto|done].
Qed.

(** Steps that leave the abstraction and the invariant alone. *)
Lemma moves_frame {A} (c : js (local * T) A) :
  (forall l t, inv p l -> abs (c (l, t)).1.1 = abs l /\ inv p (c (l, t)).1.1) ->
  moves (fun _ => True) c.
Proof.
  intros Hc l t Hi. specialize (Hc l t Hi).
  destruct (c (l, t)) as [[l' t'] [a|e]]; cbn in Hc; destruct Hc as [-> ?]; done.
Qed.

Lemma moves_set_react f :
  (forall r, error (f r) = error r) -> moves (fun _ => True) (set_react f).
Proof.
  intros Hf. apply moves_frame. intros l t Hi. cbn.
  destruct (mounted l) eqn:Em; [|done]. unfold abs, abs_with, abs_pc. cbn. by rewrite Em, Hf.
Qed.

Lemma moves_current_pc : moves (fun _ => True) current_pc.
Proof.
  apply moves_frame. intros l t Hi. unfold current_pc. js_unfold. by repeat case_match.
Qed.

Lemma moves_tr {A} (c : js T A) : moves (fun _ => True) (tr c).
Proof. apply moves_frame. intros l t Hi. by rewrite tr_run. Qed.

Lemma moves_skip : moves (fun _ => True) skip.
Proof. by apply moves_ret. Qed.

Lemma moves_lift {A} (res : result A) : moves (fun a => res = Ok a) (lift_result res).
Proof. destruct res; [by apply moves_ret|apply moves_throw]. Qed.

End Moves.

(** ** The connection-level steps of the handlers *)

(** Replacing or installing the connection stored under [id]. *)
Lemma inv_install p l id pc' cur :
  inv p l -> (cur = Some id \/ cur = peerConnection l) -> pc_id pc' = id ->
  (pc_state pc' = HaveLocalOffer -> exists d, pc_local pc' = Some d /\ sdp_kind d = SdpOffer) ->
  (role_is p "doctor" = false -> forall d, pc_local pc' = Some d -> sdp_kind d = SdpAnswer) ->
  forall l', peerConnection l' = cur -> pcs l' = <[id := pc']> (pcs l) -> inv p l'.
Proof.
  intros (Hc & Hid & Hhlo & Hrole) Hcur Hid' Hhlo' Hrole' l' Hp' Hs'.
  split_and!; rewrite ?Hp', ?Hs'.
  - intros j Hj. destruct (decide (j = id)) as [->|]; [by rewrite lookup_insert_eq|].
    rewrite lookup_insert_ne by done. destruct Hcur as [-> | ->]; [congruence|by apply Hc].
  - intros j q Hq. destruct (decide (j = id)) as [->|Hne].
    + rewrite lookup_insert_eq in Hq. by simplify_eq.
    + rewrite lookup_insert_ne in Hq by done. by eapply Hid.
  - intros j q Hq Hs. destruct (decide (j = id)) as [->|Hne].
    + rewrite lookup_insert_eq in Hq. simplify_eq. by apply Hhlo'.
    + rewrite lookup_insert_ne in Hq by done. by eapply Hhlo.
  - intros Hd j q d Hq Hl. destruct (decide (j = id)) as [->|Hne].
    + rewrite lookup_insert_eq in Hq. simplify_eq. by eapply Hrole'.
    + rewrite lookup_insert_ne in Hq by done. by eapply Hrole.
Qed.

Lemma inv_set_current p l id pc pc' :
  inv p l -> current_is l id pc -> pc_id pc' = id ->
  (pc_state pc' = HaveLocalOffer -> exists d, pc_local pc' = Some d /\ sdp_kind d = SdpOffer) ->
  (role_is p "doctor" = false -> forall d, pc_local pc' = Some d -> sdp_kind d = SdpAnswer) ->
  inv p (set_pcs (<[id := pc']> (pcs l)) l).
Proof.
  intros Hi _ Hid Hh Hr.
  by apply (inv_install p l id pc' (peerConnection l) Hi (or_intror eq_refl) Hid Hh Hr).
Qed.

(** The patient applies an offer: [stable] becomes [have-remote-offer]. *)
Lemma setRemote_offer_step pc d pc' :
  (forall d', pc_local pc = Some d' -> sdp_kind d' = SdpAnswer) ->
  sdp_kind d = SdpOffer -> pc_setRemote d pc = Ok pc' ->
  nsteps Responder TOffer (nstate_of_pc pc) (nstate_of_pc pc').
Proof.
  intros Hl Hk. unfold pc_setRemote. rewrite Hk.
  destruct (pc_closed pc) eqn:Ec; [done|]. destruct (pc_state pc) eqn:Es; intros E; simplify_eq.
  unfold nstate_of_pc. cbn. rewrite Ec, Es.
  destruct (pc_local pc) as [d'|]; [rewrite (Hl d') by done; reflexivity|].
  apply nsteps_one. constructor.
Qed.

(** The patient sets its answer: [have-remote-offer] becomes [stable]. *)
Lemma setLocal_answer_step pc a pc' :
  sdp_kind a = SdpAnswer -> pc_setLocal a pc = Ok pc' ->
  nsteps Responder TOffer (nstate_of_pc pc) (nstate_of_pc pc').
Proof.
  intros Hk. unfold pc_setLocal. rewrite Hk.
  destruct (pc_closed pc) eqn:Ec; [done|]. destruct (pc_state pc) eqn:Es; intros E; simplify_eq.
  unfold nstate_of_pc. cbn. rewrite Ec, Es, Hk.
  destruct (pc_local pc) as [d'|]; [destruct (sdp_kind d'); [|reflexivity]|];
    apply nsteps_one; constructor.
Qed.

(** The doctor applies the answer: [have-local-offer] becomes [stable]. *)
Lemma setRemote_answer_step pc d pc' :
  (pc_state pc = HaveLocalOffer -> exists o, pc_local pc = Some o /\ sdp_kind o = SdpOffer) ->
  sdp_kind d = SdpAnswer -> pc_setRemote d pc = Ok pc' ->
  nsteps Initiator TAnswer (nstate_of_pc pc) (nstate_of_pc pc').
Proof.
  intros Hl Hk. unfold pc_setRemote. rewrite Hk.
  destruct (pc_closed pc) eqn:Ec; [done|]. destruct (pc_state pc) eqn:Es; intros E; simplify_eq.
  destruct (Hl eq_refl) as (o & Ho & Hko).
  unfold nstate_of_pc. cbn. rewrite Ec, Es, Ho, Hko. apply nsteps_one. constructor.
Qed.

Lemma addIce_same pc c pc' :
  pc_addIce c pc = Ok pc' -> nstate_of_pc pc' = nstate_of_pc pc /\
  pc_id pc' = pc_id pc /\ pc_state pc' = pc_state pc /\ pc_local pc' = pc_local pc.
Proof.
  unfold pc_addIce. destruct (pc_closed pc) eqn:Ec; [done|].
  destruct (pc_remote pc); intros E; simplify_eq. unfold nstate_of_pc. cbn. by rewrite Ec.
Qed.

Lemma pc_setRemote_shape d pc pc' :
  pc_setRemote d pc = Ok pc' ->
  pc_id pc' = pc_id pc /\ pc_local pc' = pc_local pc /\ pc_state pc' <> HaveLocalOffer.
Proof.
  unfold pc_setRemote. destruct (pc_closed pc); [done|].
  destruct (sdp_kind d), (pc_state pc); intros E; simplify_eq; done.
Qed.

Lemma pc_setLocal_shape a pc pc' :
  pc_setLocal a pc = Ok pc' ->
  pc_id pc' = pc_id pc /\ pc_local pc' = Some a /\
  (pc_state pc' = HaveLocalOffer -> sdp_kind a = SdpOffer).
Proof.
  unfold pc_setLocal. destruct (pc_closed pc); [done|].
  destruct (sdp_kind a) eqn:Ek, (pc_state pc); intros E; simplify_eq; done.
Qed.

(** ** The message handler refines the machine *)

Section Handler.
Context {T : Type} `{SignalingTransport T} (p : props) (userName : string).

Lemma moves_rtc_description r k o :
  moves p r k (fun d => o = Some d) (@rtc_description T o).
Proof. destruct o; [by apply moves_ret|apply moves_throw]. Qed.

Lemma moves_rtc_candidate r k o : moves p r k (fun _ => True) (@rtc_candidate T o).
Proof. destruct o; [by apply moves_ret|apply moves_throw]. Qed.

(** [setRemoteDescription(d)] on the current connection, then [ontrack]. *)
Lemma moves_setRemoteDescription r k d :
  (forall l id pc pc', inv p l -> current_is l id pc -> pc_setRemote d pc = Ok pc' ->
     nsteps r k (nstate_of_pc pc) (nstate_of_pc pc')) ->
  moves p r k (fun _ => True) (@setRemoteDescription T d).
Proof.
  intros HR. unfold setRemoteDescription.
  eapply moves_bind; [apply moves_on_current|intros _ _].
  - intros pc pc' E. apply (pc_setRemote_shape _ _ _ E).
  - intros l id pc pc' Hi Hcur E. split; [|by eapply HR].
    destruct (pc_setRemote_shape _ _ _ E) as (Hid & Hl & Hs).
    eapply inv_set_current; [done|done|by rewrite Hid; apply Hcur|done|].
    intros Hd d' Hd'. rewrite Hl in Hd'. destruct Hi as (_ & _ & _ & Hr).
    eapply Hr; [done|apply Hcur|done].
  - destruct (sdp_stream d); [|apply moves_skip]. by apply moves_set_react.
Qed.

(** The ["offer"] case: a patient applies the offer and sets its answer. *)
Lemma moves_dispatch_offer m :
  msg_wf m -> sig_type m = "offer"%string ->
  moves p (arole_of p) TOffer (fun _ => True) (dispatch p userName m).
Proof.
  intros Hwf Ho. unfold dispatch. rewrite (proj2 (String.eqb_eq _ _) Ho).
  destruct (role_is p "patient") eqn:Hr; [|apply moves_skip].
  assert (Hd : role_is p "doctor" = false) by (eapply role_is_other; [done|discriminate]).
  replace (arole_of p) with Responder by (unfold arole_of; by rewrite Hd, Hr).
  eapply moves_bind; [apply moves_current_pc|intros _ _].
  eapply moves_bind; [apply moves_rtc_description|intros d Hsd].
  destruct (Hwf d Hsd) as [Hk _]. specialize (Hk Ho).
  eapply moves_bind; [apply moves_setRemoteDescription|intros _ _].
  { intros l id pc pc' Hi Hcur E. apply (setRemote_offer_step pc d); [|done|done].
    intros d' Hd'. destruct Hi as (_ & _ & _ & Hrole). eapply Hrole; [done|apply Hcur|done]. }
  eapply moves_bind; [apply moves_current_pc|intros pc _].
  eapply moves_bind; [apply moves_lift|intros a Ha].
  eapply moves_bind; [apply moves_on_current|intros _ _]; [| |apply moves_tr].
  - intros q q' E. apply (pc_setLocal_shape _ _ _ E).
  - intros l id q q' Hi Hcur E.
    pose proof (pc_createAnswer_kind _ _ Ha) as Hka.
    split; [|by eapply setLocal_answer_step].
    destruct (pc_setLocal_shape _ _ _ E) as (Hid & Hl & Hs).
    eapply inv_set_current; [done|done|by rewrite Hid; apply Hcur| |].
    + intros Hst. specialize (Hs Hst). congruence.
    + intros _ d' Hd'. congruence.
Qed.

(** The ["answer"] case: the doctor applies the answer. *)
Lemma moves_dispatch_answer m :
  msg_wf m -> sig_type m = "answer"%string ->
  moves p (arole_of p) TAnswer (fun _ => True) (dispatch p userName m).
Proof.
  intros Hwf Ha. unfold dispatch.
  replace (String.eqb (sig_type m) "offer") with false by (by rewrite Ha).
  rewrite (proj2 (String.eqb_eq _ _) Ha).
  destruct (role_is p "doctor") eqn:Hr; [|apply moves_skip].
  replace (arole_of p) with Initiator by (unfold arole_of; by rewrite Hr).
  eapply moves_bind; [apply moves_current_pc|intros _ _].
  eapply moves_bind; [apply moves_rtc_description|intros d Hsd].
  destruct (Hwf d Hsd) as [_ Hk]. specialize (Hk Ha).
  apply moves_setRemoteDescription.
  intros l id pc pc' Hi Hcur E. apply (setRemote_answer_step pc d); [|done|done].
  destruct Hi as (_ & _ & Hhlo & _). eapply Hhlo, Hcur.
Qed.

(** Any other type: an ICE candidate is added to the current connection,
    which keeps its state and descriptions; anything else is ignored. *)
Lemma moves_dispatch_other r k m :
  String.eqb (sig_type m) "offer" = false -> String.eqb (sig_type m) "answer" = false ->
  moves p r k (fun _ => True) (dispatch p userName m).
Proof.
  intros Ho Ha. unfold dispatch. rewrite Ho, Ha.
  destruct (String.eqb _ "ice-candidate"); [|apply moves_skip].
  apply moves_try; [|intros; apply moves_skip].
  eapply moves_bind; [apply moves_current_pc|intros _ _].
  eapply moves_bind; [apply moves_rtc_candidate|intros c _].
  apply moves_on_current.
  - intros q q' E. apply (addIce_same _ _ _ E).
  - intros l id q q' Hi Hcur E. destruct (addIce_same _ _ _ E) as (Hn & Hid & Hs & Hl).
    rewrite Hn. split; [|reflexivity].
    eapply inv_set_current; [done|done|by rewrite Hid; apply Hcur| |].
    + rewrite Hs, Hl. destruct Hi as (_ & _ & Hhlo & _). eapply Hhlo, Hcur.
    + rewrite Hl. intros Hd d' Hd'. destruct Hi as (_ & _ & _ & Hrole).
      eapply Hrole; [done|apply Hcur|done].
Qed.

Lemma moves_handleSignalingMessage m :
  msg_wf m ->
  moves p (arole_of p) (trigger_of (Message m)) (fun _ => True)
    (handleSignalingMessage p userName m).
Proof.
  intros Hwf. unfold handleSignalingMessage.
  apply moves_try; [|intros; apply moves_skip].
  case_decide; [apply moves_skip|].
  eapply moves_bind; [|intros _ _].
  { unfold update_remote_user. case_match; [by apply moves_set_react|apply moves_skip]. }
  cbn [trigger_of].
  destruct (String.eqb_spec (sig_type m) "offer") as [Ho|Ho]; [by apply moves_dispatch_offer|].
  destruct (String.eqb_spec (sig_type m) "answer") as [Ha|Ha]; [by apply moves_dispatch_answer|].
  apply moves_dispatch_other; by apply String.eqb_neq.
Qed.

End Handler.

(** ** Frame lemmas *)

Lemma abs_frame l l' :
  mounted l' = mounted l -> error (ui l') = error (ui l) ->
  awaiting_media l' = awaiting_media l -> awaiting_connect l' = awaiting_connect l ->
  peerConnection l' = peerConnection l -> pcs l' = pcs l -> abs l' = abs l.
Proof. intros Hm He Ha Hc Hp Hs. unfold abs, abs_with, abs_pc. by rewrite Hm, He, Ha, Hc, Hp, Hs. Qed.

Lemma inv_frame p l l' :
  peerConnection l' = peerConnection l -> pcs l' = pcs l -> inv p l -> inv p l'.
Proof. intros Hp Hs. unfold inv. by rewrite Hp, Hs. Qed.

(** A step that does not touch what the abstraction reads. *)
Ltac frame :=
  split; [eapply inv_frame; [reflexivity|reflexivity|eassumption]
         |apply abs_frame; reflexivity].

Lemma stop_all_frame ls l :
  let l' := stop_all ls l in
  mounted l' = mounted l /\ ui l' = ui l /\ awaiting_media l' = awaiting_media l /\
  awaiting_connect l' = awaiting_connect l /\ peerConnection l' = peerConnection l /\
  pcs l' = pcs l.
Proof.
  cbv zeta. destruct ls as [s|]; [|done]. cbn. generalize (ms_tracks s). intros xs.
  revert l. induction xs as [|x xs IH]; intros l; [done|]. cbn.
  destruct (IH (stop_one l x)) as (A & B & C & D & E & F). rewrite A, B, C, D, E, F.
  unfold stop_one. by destruct (tracks l !! x).
Qed.

(** Closing the current connection discards the instance, or changes
    nothing the abstraction sees. *)
Lemma close_current_refines p l :
  inv p l -> inv p (close_current l) /\ nsteps (arole_of p) TTeardown (abs l) (abs (close_current l)).
Proof.
  intros Hi. unfold close_current.
  destruct (peerConnection l) as [id|] eqn:Ec; [|split; [done|reflexivity]].
  destruct (pcs l !! id) as [pc|] eqn:Ep; [|split; [done|reflexivity]].
  assert (Hcur : current_is l id pc) by (split_and!; [done|done|by eapply Hi]).
  split.
  - destruct Hi as (Hc & Hid & Hhlo & Hrole).
    eapply inv_set_current; [split_and!; eauto|done|apply Hcur|cbn|cbn].
    + intros Hs. by eapply Hhlo.
    + intros Hd d Hd'. by eapply Hrole.
  - unfold abs at 2, abs_pc. rewrite abs_with_set_pcs. cbn. rewrite Ec, lookup_insert_eq.
    unfold nstate_of_pc at 1. cbn.
    unfold abs, abs_with, abs_pc. rewrite Ec, Ep. repeat case_match; try reflexivity;
      apply nsteps_one; constructor.
Qed.

(** ** [startCall] on a granted stream *)

Lemma abs_with_failed l a :
  mounted l = true -> is_Some (error (ui l)) -> abs_with l a = Some Failed.
Proof. intros Hm He. unfold abs_with. rewrite Hm. cbn. by rewrite bool_decide_eq_true_2. Qed.

Lemma nsteps_to_failed r k l a :
  may_fail k = true -> mounted l = true ->
  nsteps r k (abs_with l (Some a)) (Some Failed).
Proof.
  intros Hk Hm. unfold abs_with. rewrite Hm. cbn.
  case_bool_decide; [reflexivity|]. case_match; by apply nsteps_fail.
Qed.

Lemma nstate_new_pc xs sid id :
  nstate_of_pc (add_tracks xs sid (new_peer id)) = Some SignalingConnected.
Proof.
  destruct (add_tracks_state xs sid (new_peer id)) as (A & B & _).
  unfold nstate_of_pc. rewrite add_tracks_closed, A, B by done. reflexivity.
Qed.

(** From the moment the awaited callback was cleared, [startCall] moves a
    waiting instance to [SignalingConnected] (and the doctor on to
    [OfferSent]), or to [Failed] when the offer cannot be sent. *)
Lemma startCall_refines {T} `{SignalingTransport T} p userName l (t : T) s :
  inv p l ->
  let l' := (startCall p userName (Some s) (l, t)).1.1 in
  inv p l' /\ nsteps (arole_of p) TReady (abs_with l (Some AwaitingLocalMedia)) (abs l').
Proof.
  intros Hi. cbv zeta. rewrite startCall_run. cbv zeta.
  set (id := fresh l). set (pc1 := add_tracks (ms_tracks s) (ms_id s) (new_peer id)).
  assert (Hid1 : pc_id pc1 = id) by (unfold pc1; by rewrite add_tracks_id).
  assert (Hst1 : pc_state pc1 = Stable /\ pc_local pc1 = None)
    by (unfold pc1; destruct (add_tracks_state (ms_tracks s) (ms_id s) (new_peer id)) as (A & B & _);
        by rewrite A, B).
  assert (Hi2 : inv p (set_pcs (<[id := pc1]> (pcs (with_new_pc l))) (with_new_pc l))).
  { eapply (inv_install p l id pc1 (Some id)); [done|by left|done| | |done|].
    - intros Hs. destruct Hst1 as [Hs' _]. congruence.
    - intros _ d Hd. destruct Hst1 as [_ Hl]. congruence.
    - cbn. by rewrite insert_insert_eq. }
  destruct (role_is p "doctor") eqn:Hd.
  - replace (arole_of p) with Initiator by (unfold arole_of; by rewrite Hd).
    set (pc3 := with_state HaveLocalOffer (Some (mk_sdp SdpOffer id (pc_stream pc1)))
                  (pc_remote pc1) pc1).
    set (l3 := set_pcs (<[id := pc3]> (pcs (set_pcs (<[id := pc1]> (pcs (with_new_pc l)))
                                                (with_new_pc l))))
                 (set_pcs (<[id := pc1]> (pcs (with_new_pc l))) (with_new_pc l))).
    assert (Hi3 : inv p l3).
    { eapply (inv_install p l id pc3 (Some id)); [done|by left|done| | |done|].
      - intros _. by eexists.
      - by rewrite Hd.
      - cbn. by rewrite !insert_insert_eq. }
    assert (Habs3 : abs l3 = abs_with l (Some OfferSent)).
    { assert (Hn : nstate_of_pc pc3 = Some OfferSent)
        by (unfold nstate_of_pc, pc3, pc1; cbn; by rewrite add_tracks_closed).
      unfold abs, abs_pc. cbn. rewrite lookup_insert_eq, Hn. reflexivity. }
    destruct (ws_send _ _ t) as [t' [[]|e]]; cbn [fst].
    + split; [done|]. rewrite Habs3. apply abs_with_mono.
      eapply nsteps_two; constructor.
    + destruct (mounted l3) eqn:Hm.
      * split; [eapply inv_frame; [| |exact Hi3]; reflexivity|].
        unfold abs. rewrite (abs_with_failed (set_ui _ l3)); [|exact Hm|cbn; by eexists].
        by apply nsteps_to_failed.
      * split; [done|]. rewrite Habs3. unfold abs_with. cbn in Hm. rewrite Hm. reflexivity.
  - split; [done|]. unfold abs, abs_pc. cbn. rewrite lookup_insert_eq.
    change (abs_with (set_pcs _ _) ?a) with (abs_with l a). unfold pc1. rewrite nstate_new_pc.
    apply abs_with_mono. apply nsteps_one. constructor.
Qed.

(** ** Each event of a tab *)

Lemma abs_set_same l id pc pc' :
  pcs l !! id = Some pc -> nstate_of_pc pc' = nstate_of_pc pc ->
  abs (set_pcs (<[id := pc']> (pcs l)) l) = abs l.
Proof.
  intros Hp Hn. unfold abs, abs_pc. rewrite abs_with_set_pcs. cbn.
  destruct (peerConnection l) as [j|]; [|done].
  destruct (decide (j = id)) as [->|Hne]; [by rewrite lookup_insert_eq, Hp, Hn|].
  by rewrite lookup_insert_ne.
Qed.

Lemma pc_gather_shape pc c pc' :
  pc_gather pc = Some (c, pc') ->
  pc_id pc' = pc_id pc /\ pc_state pc' = pc_state pc /\ pc_local pc' = pc_local pc /\
  nstate_of_pc pc' = nstate_of_pc pc.
Proof.
  unfold pc_gather. destruct (pc_closed pc) eqn:Ec; [done|].
  destruct (pc_local pc) eqn:El; intros E; simplify_eq. split_and!; try done.
  unfold nstate_of_pc. cbn. by rewrite Ec, El.
Qed.

Section Events.
Context {T : Type} `{SignalingTransport T} (p : props) (userName : string).

Lemma toggle_refines k l (t : T) :
  inv p l -> inv p (exec (toggle k) (l, t)).1 /\ abs (exec (toggle k) (l, t)).1 = abs l.
Proof.
  intros Hi. destruct (localStream (ui l)) as [s|] eqn:E.
  - unfold exec. rewrite (toggle_run k l t s E). cbn [fst]. rewrite flip_kind_set.
    destruct k, (mounted l); frame.
  - destruct k; unfold exec, toggle, toggleAudio, toggleVideo; js_unfold; rewrite E; by split.
Qed.

Lemma ice_gathered_refines id l (t : T) :
  inv p l -> inv p (exec (ice_gathered p id) (l, t)).1 /\
  abs (exec (ice_gathered p id) (l, t)).1 = abs l.
Proof.
  intros Hi. unfold exec, ice_gathered. cbv [mbind js_bind get].
  destruct (pcs l !! id) as [pc|] eqn:Ep; [|by split].
  destruct (pc_gather pc) as [[c pc']|] eqn:Eg; [|by split].
  destruct (pc_gather_shape _ _ _ Eg) as (Hid & Hs & Hl & Hn).
  assert (Hid0 : pc_id pc = id) by (by eapply Hi).
  unfold store_pc, upd, modify. cbn. rewrite Hid, Hid0.
  destruct (ws_send _ _ t) as [t1 r1]. cbn. split.
  - destruct Hi as (Hc & Hids & Hhlo & Hrole).
    eapply (inv_install p l id pc' (peerConnection l)); [split_and!; eauto|by right|congruence| | |done|done].
    + rewrite Hs, Hl. by eapply Hhlo.
    + rewrite Hl. intros Hd d Hd'. by eapply Hrole.
  - by eapply abs_set_same.
Qed.

(** Closing the current connection after stopping the tracks. *)
Lemma teardown_refines ls l :
  inv p l ->
  inv p (close_current (stop_all ls l)) /\
  nsteps (arole_of p) TTeardown (abs l) (abs (close_current (stop_all ls l))).
Proof.
  intros Hi. destruct (stop_all_frame ls l) as (A & B & C & D & E & F).
  assert (Hi0 : inv p (stop_all ls l)) by (eapply inv_frame; [exact E|exact F|done]).
  assert (Habs : abs (stop_all ls l) = abs l) by (apply abs_frame; rewrite ?B; done).
  rewrite <- Habs. by apply close_current_refines.
Qed.

Lemma endCall_refines l (t : T) :
  inv p l ->
  inv p (exec (endCall p) (l, t)).1 /\
  nsteps (arole_of p) TTeardown (abs l) (abs (exec (endCall p) (l, t)).1).
Proof.
  intros Hi. destruct (teardown_refines (localStream (ui l)) l Hi) as [Hi' Hs].
  unfold exec. rewrite endCall_run, cleanup_run. cbv zeta.
  destruct (ws_unsubscribe _ t) as [t1 [?|e]]; [|done].
  destruct (ws_disconnect t1) as [t2 [?|e]]; [|done].
  set (L := close_current (stop_all (localStream (ui l)) l)) in *.
  cbn. split; [eapply inv_frame; [reflexivity|reflexivity|exact Hi']|].
  by rewrite (abs_frame L (set_nav (Some (dashboard p)) L)) by reflexivity.
Qed.

Lemma unmount_refines l (t : T) :
  inv p l ->
  inv p (exec (unmount p) (l, t)).1 /\
  nsteps (arole_of p) TTeardown (abs l) (abs (exec (unmount p) (l, t)).1).
Proof.
  intros Hi. destruct (teardown_refines None l Hi) as [Hi' _].
  assert (Hl' : (exec (unmount p) (l, t)).1 = set_mounted false (close_current l)).
  { unfold exec, unmount. cbv [mbind js_bind js_try]. rewrite cleanup_run. cbv zeta.
    cbn [stop_all]. destruct (ws_unsubscribe _ t) as [t1 [?|e]]; [|done].
    destruct (ws_disconnect t1) as [t2 [?|e]]; done. }
  rewrite Hl'. split; [by eapply inv_frame; [..|exact Hi']|].
  apply nsteps_one. constructor.
Qed.

(** An event that ends with an error shown (when mounted). *)
Lemma nsteps_failed_after r k l0 a l' :
  may_fail k = true -> mounted l' = mounted l0 ->
  (mounted l0 = true -> is_Some (error (ui l'))) ->
  nsteps r k (abs_with l0 (Some a)) (abs l').
Proof.
  intros Hk Hm He. destruct (mounted l0) eqn:Hm0.
  - unfold abs. rewrite (abs_with_failed l'); [by apply nsteps_to_failed|congruence|by apply He].
  - unfold abs, abs_with. rewrite Hm, Hm0. reflexivity.
Qed.

Lemma mounted_if_set_ui l x : mounted (if mounted l then set_ui x l else l) = mounted l.
Proof. by destruct (mounted l) eqn:E. Qed.

Lemma error_if_set_ui l m :
  mounted l = true -> is_Some (error (ui (if mounted l then set_ui (set_error (Some m) (ui l)) l else l))).
Proof. intros E. rewrite E. cbn. by eexists. Qed.

Lemma abs_with_frame l l' a :
  mounted l' = mounted l -> error (ui l') = error (ui l) ->
  awaiting_media l' = awaiting_media l -> awaiting_connect l' = awaiting_connect l ->
  abs_with l' a = abs_with l a.
Proof. intros Hm He Ha Hc. unfold abs_with. by rewrite Hm, He, Ha, Hc. Qed.

Lemma retry_refines l (t : T) :
  inv p l -> mounted l = true -> is_Some (error (ui l)) ->
  inv p (exec (retryCall p) (l, t)).1 /\
  nsteps (arole_of p) TRetry (abs l) (abs (exec (retryCall p) (l, t)).1).
Proof.
  intros Hi Hm He. unfold abs at 1. rewrite abs_with_failed by done.
  unfold exec, retryCall, request_begin, request_failed, set_react. js_unfold.
  destruct (insecure p); js_unfold; repeat (cbn; rewrite Hm);
    (split; [by eapply inv_frame; [| |exact Hi]|]).
  - unfold abs. rewrite abs_with_failed; [reflexivity|done|cbn; by eexists].
  - unfold abs, abs_with. cbn. rewrite Hm. apply nsteps_one. constructor.
Qed.

Lemma inv_empty l : peerConnection l = None -> pcs l = ∅ -> inv p l.
Proof.
  intros Hc Hs. unfold inv. rewrite Hc, Hs. split_and!; [done|..]; intros *; rewrite ?lookup_empty; done.
Qed.

Lemma mount_refines (t : T) :
  let l' := (exec (mount_effect p) (init_local, t)).1 in
  inv p l' /\ nsteps (arole_of p) TStart (Some Idle) (abs l').
Proof.
  cbv zeta. unfold exec, mount_effect, initializeCall, request_begin, request_failed, init_failed,
    set_react, upd.
  destruct (params_missing p); js_unfold; [|destruct (insecure p); js_unfold];
    (split; [by apply inv_empty|]); cbn.
  - by apply nsteps_fail.
  - by apply nsteps_fail.
  - apply nsteps_one. constructor.
Qed.

(** [requestMediaPermissions()] after the browser answers. *)
Lemma request_resume_run o l (t : T) :
  match request_resume o (l, t) with
  | ((l2, t2), r) =>
      t2 = t /\ mounted l2 = mounted l /\ awaiting_media l2 = awaiting_media l /\
      awaiting_connect l2 = awaiting_connect l /\ peerConnection l2 = peerConnection l /\
      pcs l2 = pcs l /\
      match o with
      | Granted => error (ui l2) = error (ui l) /\ exists s, r = Ok (Some s)
      | Denied _ => r = Ok None /\ (mounted l = true -> is_Some (error (ui l2)))
      end
  end.
Proof.
  destruct o; unfold request_resume, acquire, alloc, request_failed, set_react, upd; js_unfold;
    destruct (mounted l) eqn:Hm; repeat (cbn; rewrite Hm); cbn; split_and!; eauto; done.
Qed.

Lemma abs_clear_media l k :
  awaiting_media l = Some k ->
  abs l = abs_with (set_awaiting_media None l) (Some AwaitingLocalMedia).
Proof. intros E. unfold abs, abs_with. cbn. rewrite E. by repeat case_match. Qed.

Lemma abs_clear_connect l s :
  awaiting_connect l = Some s ->
  abs l = abs_with (set_awaiting_connect None l) (Some AwaitingLocalMedia).
Proof. intros E. unfold abs, abs_with. cbn. rewrite E, orb_true_r. by repeat case_match. Qed.

Lemma media_resolved_refines o l (t : T) k :
  inv p l -> awaiting_media l = Some k ->
  inv p (exec (media_resolved p userName o) (l, t)).1 /\
  nsteps (arole_of p) TReady (abs l) (abs (exec (media_resolved p userName o) (l, t)).1).
Proof.
  intros Hi Ea. rewrite (abs_clear_media l k Ea).
  unfold exec, media_resolved. cbv [mbind js_bind get]. rewrite Ea, upd_run.
  set (l1 := set_awaiting_media None l).
  assert (Hi1 : inv p l1) by (eapply inv_frame; [reflexivity|reflexivity|exact Hi]).
  pose proof (request_resume_run o l1 t) as HR.
  destruct (request_resume o (l1, t)) as [[l2 t2] r] eqn:E.
  destruct HR as (-> & Hm & Ha & Hc & Hp & Hs & Ho).
  assert (Hi2 : inv p l2) by (eapply inv_frame; [exact Hp|exact Hs|exact Hi1]).
  destruct o as [|err].
  - destruct Ho as [He [s ->]].
    rewrite <- (abs_with_frame l1 l2) by done.
    destruct k.
    + unfold initializeCall_resume, init_failed, js_try, set_react, upd. destruct (insecure p).
      * js_unfold. split; [destruct (mounted l2); by eapply inv_frame; [| |exact Hi2]|].
        apply nsteps_failed_after; [done|by rewrite mounted_if_set_ui|].
        intros Hm2. by apply error_if_set_ui.
      * cbv [mbind js_bind]. rewrite tr_run.
        destruct (ws_connect t) as [t' [[]|e]]; js_unfold.
        -- split; [by eapply inv_frame; [| |exact Hi2]|].
           unfold abs, abs_with. cbn. rewrite Hm, He, Ha, Hc. by repeat case_match.
        -- split; [destruct (mounted l2); by eapply inv_frame; [| |exact Hi2]|].
           apply nsteps_failed_after; [done|by rewrite mounted_if_set_ui|].
           intros Hm2. by apply error_if_set_ui.
    + cbn. by apply startCall_refines.
  - destruct Ho as [-> He].
    assert (Hf : nsteps (arole_of p) TReady (abs_with l1 (Some AwaitingLocalMedia)) (abs l2))
      by (by apply nsteps_failed_after).
    destruct k; cbn; [unfold initializeCall_resume, js_try; cbn|]; by split.
Qed.

Lemma onConnected_refines l (t : T) s :
  inv p l -> awaiting_connect l = Some s -> (forall r, (ws_subscribe r t).2 = Ok tt) ->
  inv p (exec (onConnected p userName) (l, t)).1 /\
  nsteps (arole_of p) TReady (abs l) (abs (exec (onConnected p userName) (l, t)).1).
Proof.
  intros Hi Ec Hsub. rewrite (abs_clear_connect l s Ec).
  unfold exec, onConnected. cbv [mbind js_bind get]. rewrite Ec, upd_run, tr_run.
  specialize (Hsub (js_str (p_roomId p))).
  destruct (ws_subscribe _ t) as [t' r]. cbn in Hsub. subst r. cbn.
  apply startCall_refines. by eapply inv_frame; [| |exact Hi].
Qed.

End Events.

(** ** Every event *)

Section Main.
Context {T : Type} `{SignalingTransport T} (p : props) (userName : string).

Lemma event_refines e l (t : T) :
  inv p l -> enabled e l = true -> event_ok e t ->
  inv p (exec (run_event p userName e) (l, t)).1 /\
  nsteps (arole_of p) (trigger_of e) (abs l) (abs (exec (run_event p userName e) (l, t)).1).
Proof.
  intros Hi He Hok. destruct e as [| | | | |o| |m|id]; cbn [run_event trigger_of enabled event_ok] in *.
  - destruct (toggle_refines p Audio l t Hi) as [Hi' Ha]. cbn [toggle] in Hi', Ha. split; [done|]. by rewrite Ha.
  - destruct (toggle_refines p Video l t Hi) as [Hi' Ha]. cbn [toggle] in Hi', Ha. split; [done|]. by rewrite Ha.
  - by apply endCall_refines.
  - apply andb_true_iff in He as [Hm He]. apply bool_decide_eq_true in He.
    by apply retry_refines.
  - by apply unmount_refines.
  - apply bool_decide_eq_true in He. destruct He as [k Ek].
    by eapply media_resolved_refines.
  - apply bool_decide_eq_true in He. destruct He as [s Es].
    by eapply onConnected_refines.
  - pose proof (moves_handleSignalingMessage p userName m Hok l t Hi) as Hm.
    unfold exec. destruct (handleSignalingMessage p userName m (l, t)) as [[l' t'] [?|?]];
      cbn; naive_solver.
  - destruct (ice_gathered_refines p id l t Hi) as [Hi' Ha]. split; [done|]. by rewrite Ha.
Qed.

(** Every reachable state satisfies the type invariant, and its
    abstraction lies in the lane of the tab's role. *)
Lemma reachable_inv_lane s :
  reachable p userName s -> inv p s.1 /\ in_lane (arole_of p) (abs s.1).
Proof.
  induction 1 as [t|[l t] e Hr [IHi IHl] He Hok].
  - destruct (mount_refines p t) as [Hi Hs]. split; [done|].
    eapply nsteps_in_lane; [|exact Hs]. split; intros [?|?]; congruence.
  - destruct (event_refines e l t IHi He Hok) as [Hi Hs]. split; [done|].
    by eapply nsteps_in_lane.
Qed.

(** C3: the type invariant of the call component.  In every state the
    page can reach, [peerConnection.current] names a stored
    [RTCPeerConnection], every stored connection carries its own id, a
    connection in [have-local-offer] holds a local offer, and a tab that
    is not the doctor's never holds a local offer. *)
Theorem reachable_inv s : reachable p userName s -> inv p s.1.
Proof. intros Hr. apply (reachable_inv_lane s Hr). Qed.

(** C2: [VideoCall.jsx] refines the negotiation state machine of the
    specification (section 4.3).  Mounting moves a new instance from
    [Idle] to [AwaitingLocalMedia] or [Failed]; afterwards every event the
    page offers moves the abstract state only along the specification's
    transitions for that event's trigger: media and the connect callback
    lead from [AwaitingLocalMedia] to [SignalingConnected] (and the doctor
    on to [OfferSent]) or to [Failed]; an offer takes a patient from
    [SignalingConnected] through [OfferReceived] to [AnswerSent]; an
    answer takes the doctor from [OfferSent] to [Connected]; ICE
    candidates, mute and camera change nothing; Retry leads from [Failed]
    back to [AwaitingLocalMedia]; End Call and unmounting discard the
    instance.  A message never makes the call fail.  In every reachable
    state the abstract state is in the tab's lane: only the doctor's tab
    is ever [OfferSent] or [Connected], only the patient's
    [OfferReceived] or [AnswerSent]. *)
Theorem negotiation_refinement :
  (forall t : T, nsteps (arole_of p) TStart (abs init_local)
                   (abs (exec (mount_effect p) (init_local, t)).1)) /\
  (forall s e, reachable p userName s -> enabled e s.1 = true -> event_ok e s.2 ->
   nsteps (arole_of p) (trigger_of e) (abs s.1) (abs (exec (run_event p userName e) s).1)) /\
  (forall s, reachable p userName s -> in_lane (arole_of p) (abs s.1)).
Proof.
  split; [|split].
  - intros t. apply (mount_refines p t).
  - intros [l t] e Hr He Hok. apply event_refines; [|done|done].
    apply (reachable_inv_lane (l, t) Hr).
  - intros s Hr. apply (reachable_inv_lane s Hr).
Qed.

End Main.

(** ** Witnesses: the doctor's tab of a call on [localhost] *)

Definition wit_props : props :=
  mk_props (Some "42") (Some "doctor") (Some "3") (Some "Doc") "http:" "localhost".

Definition wit_mounted : local * WebSocketService.st :=
  exec (mount_effect wit_props)
    (init_local, (WebSocketService.init_service, WebSocketService.init_net)).

Lemma reachable_inv_witness :
  let s1 := exec (run_event wit_props "Doc" (MediaResolved Granted)) wit_mounted in
  reachable wit_props "Doc" s1 /\ inv wit_props s1.1.
Proof.
  cbv zeta.
  assert (Hr : reachable wit_props "Doc"
                 (exec (run_event wit_props "Doc" (MediaResolved Granted)) wit_mounted)).
  { apply reach_step; [apply reach_mount | vm_compute; reflexivity | exact I]. }
  split; [exact Hr|]. exact (reachable_inv wit_props "Doc" _ Hr).
Defined.

Lemma negotiation_refinement_witness :
  reachable wit_props "Doc" wit_mounted /\
  enabled (MediaResolved Granted) wit_mounted.1 = true /\
  abs wit_mounted.1 = Some AwaitingLocalMedia /\
  nsteps Initiator TReady (abs wit_mounted.1)
    (abs (exec (run_event wit_props "Doc" (MediaResolved Granted)) wit_mounted).1).
Proof.
  assert (Hr : reachable wit_props "Doc" wit_mounted) by apply reach_mount.
  split; [exact Hr|]. split; [vm_compute; reflexivity|]. split; [vm_compute; reflexivity|].
  exact (proj1 (proj2 (negotiation_refinement wit_props "Doc")) wit_mounted
           (MediaResolved Granted) Hr eq_refl I).
Defined.
