(* ===== verification/Auth.v ===== *)
(** * Authentication and access control

    [src/src/context/AuthContext.js]: the [AuthProvider]'s state ([user],
    [loading], [error]) and the [token] it keeps in [localStorage]; its
    operations [checkAuth] (run once when the provider mounts,
    [provider_mount], split at its [await] of the validation request),
    [login], [register] and [logout]; and [useAuth], which throws outside
    a provider.  [src/src/components/ProtectedRoute.jsx], [AuthRedirect]
    and the route table of [src/src/App.jsx], and the handlers of
    [src/src/components/Navbar.jsx] decide what a user sees and where the
    app navigates.  The REST answers ([axios]) are inputs: [AxOk data]
    for a 2xx response, [AxErr m] for a rejected request.  Route matching
    ([react-router]'s [<Routes>]) is modelled for the table's shapes only:
    literal segments (compared case-insensitively, as [matchPath] does
    by default) and [:param] segments, the query string ignored.
    [resolve] takes the first matching route; [ranked_resolve] ranks the
    matches by [computeScore] as [matchRoutes] does, and [resolve_ranked]
    shows the two agree on [App]'s table.  The Navbar's controls
    ([nav_click]) are shown only to an authenticated user, the menu's
    only while it is open ([nav_enabled]). *)

From Stdlib Require Import Ascii.
From S2P Require Import Prelude.

(** The user object the backend returns ([response.data] or the
    [userData] given to [login]); a missing field is [None]. *)
Record user := mk_user {
  u_id : option string;
  u_username : option string;
  u_roles : option (list string);
  u_token : option string;
  u_success : option bool
}.

Record auth := mk_auth {
  a_user : option user;
  a_loading : bool;
  a_error : option string;
  (** [localStorage.getItem('token')] *)
  a_token : option string;
  (** [checkAuth] awaits the validation of this token *)
  a_validating : option string
}.

Definition set_user (x : option user) (s : auth) : auth :=
  mk_auth x (a_loading s) (a_error s) (a_token s) (a_validating s).
Definition set_loading (x : bool) (s : auth) : auth :=
  mk_auth (a_user s) x (a_error s) (a_token s) (a_validating s).
Definition set_auth_error (x : option string) (s : auth) : auth :=
  mk_auth (a_user s) (a_loading s) x (a_token s) (a_validating s).
Definition set_token (x : option string) (s : auth) : auth :=
  mk_auth (a_user s) (a_loading s) (a_error s) x (a_validating s).
Definition set_validating (x : option string) (s : auth) : auth :=
  mk_auth (a_user s) (a_loading s) (a_error s) (a_token s) x.

(** An [axios] request: [AxOk data] for a 2xx response, [AxErr m] for a
    rejected one, [m] being [err.response?.data?.message]. *)
Inductive axios_result (A : Type) :=
| AxOk (data : A)
| AxErr (m : option string).
Arguments AxOk {A} data.
Arguments AxErr {A} m.

(** [localStorage.setItem] stores [String(value)]: [undefined] becomes
    the string ["undefined"]. *)
Definition storage_string (o : option string) : string :=
  match o with Some s => s | None => "undefined" end.

(** [useState(null)], [useState(true)], [useState(null)], with what the
    browser's storage holds. *)
Definition init_auth (stored : option string) : auth := mk_auth None true None stored None.

(** [isAuthenticated: !!user]. *)
Definition isAuthenticated (s : auth) : bool := bool_decide (is_Some (a_user s)).

(** [user?.roles?.includes(r)]. *)
Definition has_role (u : option user) (r : string) : bool :=
  match u with
  | Some u => match u_roles u with Some rs => bool_decide (r ∈ rs) | None => false end
  | None => false
  end.

Definition ROLE_DOCTOR : string := "ROLE_DOCTOR".
Definition ROLE_PATIENT : string := "ROLE_PATIENT".

(** ** [AuthProvider] *)

(** [checkAuth()] up to the [await]: with a stored token, the validation
    request is sent; without one, [setLoading(false)]. *)
Definition checkAuth_begin : js auth unit :=
  s ← get;
  if truthy (a_token s) then modify (set_validating (a_token s))
  else modify (set_loading false).

(** The validation request settles: [setUser(response.data)] when
    [response.data.success], otherwise (or when the request was rejected)
    [localStorage.removeItem('token')]; then [setLoading(false)]. *)
Definition checkAuth_resolve (o : axios_result user) : js auth unit :=
  s ← get;
  match a_validating s with
  | None => skip
  | Some _ =>
      modify (set_validating None) ;;
      (match o with
       | AxOk data =>
           if u_success data is Some true then modify (set_user (Some data))
           else modify (set_token None)
       | AxErr _ => modify (set_token None)
       end) ;;
      modify (set_loading false)
  end.

(** [login(userData)]; nothing in its [try] block throws
    ([localStorage.setItem] of a short string), so its [catch] is not
    modelled. *)
Definition login (userData : option user) : js auth bool :=
  match userData with
  | Some u =>
      if truthy (u_token u) then
        modify (set_token (u_token u)) ;;
        modify (set_user (Some u)) ;;
        modify (set_auth_error None) ;;
        mret true
      else mret false
  | None => mret false
  end.

(** [register(userData)]: [Some b] is the boolean the promise resolves
    to, [None] is [undefined]: a 2xx response whose [data] is falsy
    ([AxOk None]) reaches the end of the function without a [return]. *)
Definition register (o : axios_result (option user)) : js auth (option bool) :=
  match o with
  | AxOk (Some data) =>
      modify (set_token (Some (storage_string (u_token data)))) ;;
      modify (set_user (Some data)) ;;
      modify (set_auth_error None) ;;
      mret (Some true)
  | AxOk None => mret None
  | AxErr m =>
      modify (set_auth_error (Some (or_default m "Registration failed"))) ;;
      mret (Some false)
  end.

(** [logout()]. *)
Definition logout : js auth unit :=
  modify (set_token None) ;; modify (set_user None) ;; modify (set_auth_error None).

(** The provider's mount effect: [useEffect(() => { checkAuth(); }, [])]. *)
Definition provider_mount : js auth unit := checkAuth_begin.

(** [useAuth()]: the value of the nearest [AuthProvider], or an [Error]
    outside of one. *)
Definition useAuth (ctx : option auth) : js unit auth :=
  match ctx with
  | Some a => mret a
  | None => throw (mk_error "Error" "useAuth must be used within an AuthProvider")
  end.

(** ** What a route renders *)

Inductive page :=
| LandingPage | PatientLogin | PatientRegister | DoctorLogin | DoctorRegister
| DoctorDashboard | PatientDashboard | Appointments | MedicalRecords | AddMedicalRecord
| VideoCall.

#[export] Instance page_eq_dec : EqDecision page.
Proof. solve_decision. Defined.

Inductive view :=
| Spinner
| Redirect (to : string)
| Show (p : page).

#[export] Instance view_eq_dec : EqDecision view.
Proof. solve_decision. Defined.

(** [<ProtectedRoute roles={roles}>{children}</ProtectedRoute>]. *)
Definition protectedRoute (roles : option (list string)) (children : page) (s : auth) : view :=
  if a_loading s then Spinner
  else if negb (isAuthenticated s) then Redirect "/"
  else match roles with
       | Some rs => if existsb (has_role (a_user s)) rs then Show children else Redirect "/"
       | None => Show children
       end.

(** [AuthRedirect]. *)
Definition authRedirect (s : auth) : view :=
  if isAuthenticated s then
    if has_role (a_user s) ROLE_DOCTOR then Redirect "/doctor-dashboard"
    else if has_role (a_user s) ROLE_PATIENT then Redirect "/patient-dashboard"
    else Show LandingPage
  else Show LandingPage.

(** A segment of a route's path: a literal or a [:param]. *)
Inductive seg := Lit (s : string) | Param.

(** The [<Routes>] of [App]: path, the roles of its [ProtectedRoute] (if
    any) and the page. *)
Definition routes : list (list seg * option (list string) * page) :=
  [([], None, LandingPage);
   ([Lit "patient-login"], None, PatientLogin);
   ([Lit "patient-register"], None, PatientRegister);
   ([Lit "doctor-login"], None, DoctorLogin);
   ([Lit "doctor-register"], None, DoctorRegister);
   ([Lit "doctor-dashboard"], Some [ROLE_DOCTOR], DoctorDashboard);
   ([Lit "patient-dashboard"], Some [ROLE_PATIENT], PatientDashboard);
   ([Lit "appointments"], Some [ROLE_DOCTOR; ROLE_PATIENT], Appointments);
   ([Lit "medical-records"], Some [ROLE_DOCTOR; ROLE_PATIENT], MedicalRecords);
   ([Lit "add-medical-record"; Param], Some [ROLE_DOCTOR], AddMedicalRecord);
   ([Lit "medical-records"; Lit "edit"; Param], Some [ROLE_DOCTOR], AddMedicalRecord);
   ([Lit "video-call"; Param], None, VideoCall)].

(** The pathname of a URL given to [navigate]: what precedes [?]. *)
Definition pathname (url : string) : string := default ""%string (head (split_on "?"%char url)).

(** Its non-empty segments. *)
Definition segments (path : string) : list string :=
  filter (fun x => x <> ""%string) (split_on "/"%char path).

Fixpoint seg_match (pat : list seg) (xs : list string) : bool :=
  match pat, xs with
  | [], [] => true
  | Lit a :: pat', x :: xs' => bool_decide (toLowerCase a = toLowerCase x) && seg_match pat' xs'
  | Param :: pat', _ :: xs' => seg_match pat' xs'
  | _, _ => false
  end.

(** What the app renders at [url]: [None] when no route matches (an
    empty page).  A route without [ProtectedRoute] renders its page
    directly. *)
Definition resolve (url : string) (s : auth) : option view :=
  match list_find (fun r => seg_match r.1.1 (segments (pathname url)) = true) routes with
  | Some (_, (_, Some rs, pg)) => Some (protectedRoute (Some rs) pg s)
  | Some (_, (_, None, pg)) => Some (Show pg)
  | None => None
  end.

(** *** [react-router]'s ranking of routes

    [<Routes>] does not take the first route that matches: [matchRoutes]
    flattens the routes into branches, [rankRouteBranches] sorts them by
    descending [computeScore] (sibling routes of equal score in
    declaration order, [Array.prototype.sort] being stable), and the
    first branch that matches wins.  [resolve] takes the first matching
    route of the table; [resolve_ranked] shows that on [routes] this is
    the same. *)

Definition route : Type := list seg * option (list string) * page.

(** [computeScore]: one per segment of the path split at ["/"], plus 10
    per static segment, 3 per [:param] and 1 per empty segment; the
    leading ["/"] gives an empty first segment, and ["/"] splits into two
    empty segments. *)
Definition seg_score (x : seg) : nat := match x with Lit _ => 10 | Param => 3 end.

Definition route_score (pat : list seg) : nat :=
  match pat with
  | [] => 4
  | _ => 2 + length pat + sum_list_with seg_score pat
  end.

(** The first route of highest score. *)
Fixpoint best_route (rs : list route) : option route :=
  match rs with
  | [] => None
  | r :: rs' =>
      match best_route rs' with
      | Some b => if route_score b.1.1 <=? route_score r.1.1 then Some r else Some b
      | None => Some r
      end
  end.

Definition ranked_match (rs : list route) (xs : list string) : option route :=
  best_route (filter (fun r : route => seg_match r.1.1 xs = true) rs).

Definition ranked_resolve (url : string) (s : auth) : option view :=
  match ranked_match routes (segments (pathname url)) with
  | Some (_, Some rs, pg) => Some (protectedRoute (Some rs) pg s)
  | Some (_, None, pg) => Some (Show pg)
  | None => None
  end.

(** Whether some path matches both patterns, decided segment by segment. *)
Fixpoint overlap (p q : list seg) : bool :=
  match p, q with
  | [], [] => true
  | Lit a :: p', Lit b :: q' => bool_decide (toLowerCase a = toLowerCase b) && overlap p' q'
  | _ :: p', _ :: q' => overlap p' q'
  | _, _ => false
  end.

(** No two routes of the table match the same path. *)
Fixpoint disjoint_table (rs : list route) : bool :=
  match rs with
  | [] => true
  | r :: rs' => forallb (fun r' : route => negb (overlap r.1.1 r'.1.1)) rs' && disjoint_table rs'
  end.

(** ** [Navbar] *)

(** The navbar's state ([anchorEl] set: the menu is open) and the
    provider's; a handler returns where it navigates, if anywhere. *)
Definition nav_st : Type := bool * auth.

(** [handleClose()]. *)
Definition handleClose : js nav_st unit := modify (fun '(_, a) => (false, a)).

Definition on_auth {A} (c : js auth A) : js nav_st A :=
  fun '(m, a) => let '(a', r) := c a in ((m, a'), r).

(** [handleLogout()]. *)
Definition handleLogout : js nav_st (option string) :=
  handleClose ;; on_auth logout ;; mret (Some "/").

(** [handleDashboard()]. *)
Definition handleDashboard : js nav_st (option string) :=
  handleClose ;;
  '(_, a) ← get;
  mret (if has_role (a_user a) ROLE_DOCTOR then Some "/doctor-dashboard"
        else if has_role (a_user a) ROLE_PATIENT then Some "/patient-dashboard"
        else None).

(** [user.username] in a template literal. *)
Definition username_str (u : option user) : string :=
  match u with
  | Some u => match u_username u with Some n => n | None => "undefined" end
  | None => "undefined"
  end.

(** [handleViewProfile()]. *)
Definition handleViewProfile : js nav_st (option string) :=
  handleClose ;;
  '(_, a) ← get;
  mret (if has_role (a_user a) ROLE_DOCTOR then Some ("/doctor-profile/" +:+ username_str (a_user a))
        else if has_role (a_user a) ROLE_PATIENT
        then Some ("/patient-profile/" +:+ username_str (a_user a))
        else None).

(** The chip's label: [`${doctor ? 'Dr. ' : ''}${user?.username || ''}`]. *)
Definition navbar_label (a : auth) : string :=
  (if has_role (a_user a) ROLE_DOCTOR then "Dr. " else "") +:+
  or_default (a_user a ≫= u_username) "".

(** [handleMenu(event)]: the avatar button anchors the menu. *)
Definition handleMenu : js nav_st unit := modify (fun '(_, a) => (true, a)).

(** The Navbar's controls: the chip, the four buttons and the avatar of
    the toolbar, and the menu's two items and its backdrop ([onClose]). *)
Inductive nav_control :=
| Chip | CalendarButton | RecordsButton | DashboardButton | LogoutButton | AvatarButton
| MenuDashboard | MenuLogout | MenuBackdrop.

(** A click on a control, and where it navigates. *)
Definition nav_click (c : nav_control) : js nav_st (option string) :=
  match c with
  | Chip => handleViewProfile
  | CalendarButton => mret (Some "/appointments")
  | RecordsButton => mret (Some "/medical-records")
  | DashboardButton | MenuDashboard => handleDashboard
  | LogoutButton | MenuLogout => handleLogout
  | AvatarButton => handleMenu ;; mret None
  | MenuBackdrop => handleClose ;; mret None
  end.

(** The controls on screen: none when [!isAuthenticated] (the Navbar
    returns [null]), the menu's only while it is open
    ([open={Boolean(anchorEl)}]). *)
Definition nav_enabled (c : nav_control) (st : nav_st) : bool :=
  isAuthenticated st.2 &&
  match c with MenuDashboard | MenuLogout | MenuBackdrop => st.1 | _ => true end.

(** ** Lemmas *)

Lemma resolve_some url s v :
  resolve url s = Some v ->
  exists pat roles pg, (pat, roles, pg) ∈ routes /\
    v = match roles with Some rs => protectedRoute (Some rs) pg s | None => Show pg end.
Proof.
  unfold resolve. destruct (list_find _ routes) as [[i [[pat [rs|]] pg]]|] eqn:E; intros H;
    try discriminate; injection H as <-;
    apply list_find_Some in E as (Hi & _ & _); apply list_elem_of_lookup_2 in Hi; eauto.
Qed.

Lemma protectedRoute_show rs pg pg' s :
  protectedRoute (Some rs) pg s = Show pg' ->
  pg' = pg /\ a_loading s = false /\ isAuthenticated s = true /\
  existsb (has_role (a_user s)) rs = true.
Proof.
  unfold protectedRoute.
  destruct (a_loading s), (isAuthenticated s), (existsb _ rs); simpl; intros H;
    simplify_eq; done.
Qed.

Lemma show_cases url s pg :
  resolve url s = Some (Show pg) ->
  exists pat roles, (pat, roles, pg) ∈ routes /\
    match roles with
    | Some rs => a_loading s = false /\ isAuthenticated s = true /\
                 existsb (has_role (a_user s)) rs = true
    | None => True
    end.
Proof.
  intros H. apply resolve_some in H as (pat & roles & pg0 & Hin & Hv).
  destruct roles as [rs|].
  - symmetry in Hv. apply protectedRoute_show in Hv as (-> & ?). by exists pat, (Some rs).
  - injection Hv as ->. by exists pat, None.
Qed.

(** C21: access control.  A page behind a [ProtectedRoute] is shown only
    once loading is over, to an authenticated user holding one of the
    route's roles: the doctor's pages to [ROLE_DOCTOR], the patient's
    dashboard to [ROLE_PATIENT], the shared pages to either.  Without a
    user, only the public pages can be shown, and the video call page is
    one of them: it has no [ProtectedRoute]. *)
Theorem access_control url s pg :
  resolve url s = Some (Show pg) ->
  ((pg = DoctorDashboard \/ pg = AddMedicalRecord) -> has_role (a_user s) ROLE_DOCTOR = true) /\
  (pg = PatientDashboard -> has_role (a_user s) ROLE_PATIENT = true) /\
  ((pg = Appointments \/ pg = MedicalRecords) ->
     has_role (a_user s) ROLE_DOCTOR || has_role (a_user s) ROLE_PATIENT = true) /\
  (isAuthenticated s = false ->
     pg ∈ [LandingPage; PatientLogin; PatientRegister; DoctorLogin; DoctorRegister; VideoCall]).
Proof.
  intros H. apply show_cases in H as (pat & roles & Hin & Hr).
  apply list_elem_of_In in Hin. simpl in Hin.
  repeat destruct Hin as [Hin|Hin]; try contradiction; injection Hin as <- <- <-;
    cbn [existsb] in Hr; rewrite ?orb_false_r in Hr;
    repeat split; intros; try (destruct_and?; congruence); try (intuition congruence);
    set_solver.
Qed.

Lemma access_control_witness :
  let s := mk_auth (Some (mk_user (Some "7") (Some "bob") (Some [ROLE_DOCTOR]) (Some "t") None))
             false None (Some "t") None in
  resolve "/doctor-dashboard" s = Some (Show DoctorDashboard) /\
  has_role (a_user s) ROLE_DOCTOR = true.
Proof.
  cbv zeta. split; [vm_compute; reflexivity|].
  apply (access_control "/doctor-dashboard" _ DoctorDashboard); [vm_compute; reflexivity|by left].
Defined.

Lemma pathname_prefix pre n :
  has_char "?" pre = false -> exists x, pathname (pre +:+ n) = pre +:+ x.
Proof.
  unfold pathname. induction pre as [|a pre IH]; intros Hf; simpl.
  - exists (default ""%string (head (split_on "?" n))). done.
  - simpl in Hf. apply orb_false_iff in Hf as [Ha Hf]. destruct (IH Hf) as [x Hx].
    rewrite Ha.
    destruct (split_on "?" (pre +:+ n)) as [|y ys] eqn:E;
      [by apply split_on_nonempty in E|].
    simpl in *. subst. by exists x.
Qed.

(** C24: [handleViewProfile] navigates to [/doctor-profile/<username>] or
    [/patient-profile/<username>], and [App] has no route for either
    (the profile routes are commented out): the page is empty. *)
Theorem viewProfile_unrouted m a :
  forall url, (handleViewProfile (m, a)).2 = Ok (Some url) -> resolve url a = None.
Proof.
  intros url. unfold handleViewProfile. js_unfold.
  destruct (has_role _ ROLE_DOCTOR); [|destruct (has_role _ ROLE_PATIENT)];
    intros H; simplify_eq.
  - destruct (pathname_prefix "/doctor-profile/" (username_str (a_user a))) as [x Hx];
      [reflexivity|].
    unfold resolve. rewrite Hx. unfold segments. cbn [split_on String.append].
    by destruct (split_on "/" x).
  - destruct (pathname_prefix "/patient-profile/" (username_str (a_user a))) as [x Hx];
      [reflexivity|].
    unfold resolve. rewrite Hx. unfold segments. cbn [split_on String.append].
    by destruct (split_on "/" x).
Qed.

Lemma viewProfile_unrouted_witness :
  let a := mk_auth (Some (mk_user (Some "7") (Some "bob") (Some [ROLE_DOCTOR]) (Some "t") None))
             false None (Some "t") None in
  (handleViewProfile (true, a)).2 = Ok (Some "/doctor-profile/bob") /\
  resolve "/doctor-profile/bob" a = None.
Proof.
  cbv zeta. split; [vm_compute; reflexivity|].
  apply (viewProfile_unrouted true). vm_compute. reflexivity.
Defined.

(** C25: [checkAuth] always ends loading; the user is authenticated
    afterwards exactly when a stored token was validated with [success];
    a stored token that fails validation is removed. *)
Theorem checkAuth_outcome stored o :
  let s := exec (checkAuth_begin ;; checkAuth_resolve o) (init_auth stored) in
  a_loading s = false /\
  (isAuthenticated s = true <->
     truthy stored = true /\ exists d, o = AxOk d /\ u_success d = Some true) /\
  (truthy stored = true -> isAuthenticated s = false -> a_token s = None).
Proof.
  cbv zeta. unfold checkAuth_begin, checkAuth_resolve, init_auth.
  destruct stored as [t|]; cbn [truthy]; [destruct (negb (t =? "")%string) eqn:Ht|];
    [destruct o as [d|m]; [destruct (u_success d) as [[]|] eqn:Es|]| |]; js_unfold;
    rewrite ?Ht, ?Es; repeat split; try done; try (intros Hx;
    repeat match goal with
    | Hy : _ /\ _ |- _ => destruct Hy
    | Hy : ex _ |- _ => destruct Hy
    end; simplify_eq; solve [eauto | congruence | naive_solver]).
  all: eexists; split; [reflexivity|done].
Qed.

Lemma checkAuth_outcome_witness :
  truthy (Some "old") = true /\
  isAuthenticated (exec (checkAuth_begin ;; checkAuth_resolve (AxErr None)) (init_auth (Some "old"))) = false /\
  a_token (exec (checkAuth_begin ;; checkAuth_resolve (AxErr None)) (init_auth (Some "old"))) = None.
Proof.
  split; [reflexivity|]. split; [reflexivity|].
  exact (proj2 (proj2 (checkAuth_outcome (Some "old") (AxErr None))) eq_refl eq_refl).
Defined.

(** C26: a stale validation overrides a fresh login.  If the user logs
    in while [checkAuth] is still validating an old token and that
    validation then fails, [localStorage.removeItem('token')] deletes the
    new token: the page shows the user as logged in while no token is
    stored for the next request or reload. *)
Theorem stale_validation_drops_token old u m :
  truthy (Some old) = true -> truthy (u_token u) = true ->
  let s := exec (checkAuth_begin ;; login (Some u) ;; checkAuth_resolve (AxErr m))
                (init_auth (Some old)) in
  a_user s = Some u /\ a_token s = None.
Proof.
  intros Ho Hu. cbv zeta. unfold checkAuth_begin, checkAuth_resolve, login, init_auth.
  js_unfold. rewrite Ho. js_unfold. rewrite Hu. js_unfold. done.
Qed.

Lemma stale_validation_drops_token_witness :
  let u := mk_user (Some "7") (Some "bob") (Some [ROLE_PATIENT]) (Some "new") None in
  truthy (Some "old") = true /\ truthy (u_token u) = true /\
  (let s := exec (checkAuth_begin ;; login (Some u) ;; checkAuth_resolve (AxErr None))
                 (init_auth (Some "old")) in
   a_user s = Some u /\ a_token s = None).
Proof.
  cbv zeta. split; [reflexivity|]. split; [reflexivity|].
  apply stale_validation_drops_token; reflexivity.
Defined.

(** [login] succeeds exactly when [userData.token] is truthy, and
    then stores the token and authenticates the user; otherwise nothing
    changes.  [logout] afterwards always leaves no user and no token. *)
Theorem login_then_logout s u :
  let '(s1, r) := login (Some u) s in
  r = Ok (truthy (u_token u)) /\
  (truthy (u_token u) = true -> isAuthenticated s1 = true /\ a_token s1 = u_token u) /\
  (truthy (u_token u) = false -> s1 = s) /\
  isAuthenticated (exec logout s1) = false /\ a_token (exec logout s1) = None.
Proof. unfold login, logout. destruct (truthy (u_token u)); js_unfold; done. Qed.

Lemma login_then_logout_witness :
  let u := mk_user (Some "7") (Some "bob") (Some [ROLE_PATIENT]) (Some "tok") None in
  truthy (u_token u) = true /\ isAuthenticated (exec (login (Some u)) (init_auth None)) = true.
Proof.
  cbv zeta. split; [reflexivity|].
  pose proof (login_then_logout (init_auth None)
                (mk_user (Some "7") (Some "bob") (Some [ROLE_PATIENT]) (Some "tok") None)) as H.
  unfold exec. destruct (login _ _) as [s1 r]. cbn [fst].
  exact (proj1 (proj1 (proj2 H) eq_refl)).
Defined.

(** C27: [register] resolves to [undefined], not [false], when the
    backend answers 2xx with an empty body, and leaves the state as it
    was; when the body has no [token], the string ["undefined"] is stored
    as the token. *)
Theorem register_result s data :
  register (AxOk None) s = (s, Ok None) /\
  (u_token data = None ->
   a_token (exec (register (AxOk (Some data))) s) = Some "undefined"%string /\
   (register (AxOk (Some data)) s).2 = Ok (Some true)).
Proof. split; [reflexivity|]. intros Ht. unfold register. js_unfold. by rewrite Ht. Qed.

Lemma register_result_witness :
  u_token (mk_user (Some "7") (Some "bob") None None None) = None /\
  a_token (exec (register (AxOk (Some (mk_user (Some "7") (Some "bob") None None None))))
             (init_auth None)) = Some "undefined"%string.
Proof.
  split; [reflexivity|].
  exact (proj1 (proj2 (register_result (init_auth None) (mk_user (Some "7") (Some "bob") None None None))
                  eq_refl)).
Defined.

(** ** First match and ranked match *)

Lemma overlap_sound p q xs :
  seg_match p xs = true -> seg_match q xs = true -> overlap p q = true.
Proof.
  revert q xs. induction p as [|[a|] p IH]; intros [|[b|] q] [|x xs]; cbn;
    rewrite ?andb_true_iff, ?bool_decide_eq_true; try done; try naive_solver.
  intros [Ha Hp] [Hb Hq]. split; [congruence|]. eauto.
Qed.

Section Ranking.
Variable table : list route.
Hypothesis Hdisj : disjoint_table table = true.

(** With pairwise disjoint patterns, a path matches at most one route, so
    the first match is the only one, hence the best ranked. *)
Lemma first_match_ranked xs :
  snd <$> list_find (fun r : route => seg_match r.1.1 xs = true) table = ranked_match table xs.
Proof.
  unfold ranked_match. induction table as [|r rs IH]; [done|].
  cbn [disjoint_table] in Hdisj. apply andb_true_iff in Hdisj as [Hr Hrs].
  cbn [list_find]. case_decide as Hm.
  - rewrite filter_cons_True by done.
    assert (filter (fun r' : route => seg_match r'.1.1 xs = true) rs = []) as ->.
    { destruct (filter _ rs) as [|r' l] eqn:Ef; [done|]. exfalso.
      assert (Hin : r' ∈ filter (fun r' : route => seg_match r'.1.1 xs = true) rs)
        by (rewrite Ef; left).
      apply list_elem_of_filter in Hin as [Hm' Hin].
      apply forallb_forall with (x := r') in Hr; [|by apply list_elem_of_In].
      by rewrite (overlap_sound _ _ xs Hm Hm') in Hr. }
    done.
  - rewrite filter_cons_False by done. rewrite <- (IH Hrs).
    by destruct (list_find _ rs) as [[i r']|].
Qed.

End Ranking.

(** The route table of [App] has no overlapping routes. *)
Lemma routes_disjoint : disjoint_table routes = true.
Proof. vm_compute. reflexivity. Qed.


(** ** The Navbar's targets *)

Lemma resolve_shown url rs pg a :
  resolve url a = Some (protectedRoute (Some rs) pg a) ->
  a_loading a = false -> isAuthenticated a = true -> existsb (has_role (a_user a)) rs = true ->
  resolve url a = Some (Show pg).
Proof. intros -> Hl Ha Hr. unfold protectedRoute. by rewrite Hl, Ha, Hr. Qed.

Lemma logout_shows_landing m a :
  match handleLogout (m, a) with
  | (st', Ok (Some url)) => exists pg, resolve url st'.2 = Some (Show pg)
  | (_, Ok None) => True
  | (_, Thrown _) => False
  end.
Proof. by exists LandingPage. Qed.

Lemma dashboard_shown m a :
  a_loading a = false -> isAuthenticated a = true ->
  has_role (a_user a) ROLE_DOCTOR || has_role (a_user a) ROLE_PATIENT = true ->
  match handleDashboard (m, a) with
  | (st', Ok (Some url)) => exists pg, resolve url st'.2 = Some (Show pg)
  | (_, Ok None) => True
  | (_, Thrown _) => False
  end.
Proof.
  intros Hl Ha Hr. unfold handleDashboard, handleClose. js_unfold.
  destruct (has_role _ ROLE_DOCTOR) eqn:Ed; cbn in Hr; [|rewrite Hr].
  - exists DoctorDashboard.
    apply (resolve_shown _ [ROLE_DOCTOR]); [reflexivity|done|done|]. cbn. by rewrite Ed.
  - exists PatientDashboard.
    apply (resolve_shown _ [ROLE_PATIENT]); [reflexivity|done|done|]. cbn. by rewrite Hr.
Qed.

(** C23: the Navbar and the route table agree.  For a user who holds
    [ROLE_DOCTOR] or [ROLE_PATIENT], once loading is over, every control
    the Navbar shows, except the profile chip, either leaves the page
    where it is or navigates to a URL at which [App] shows a page to the
    user in the state after the click: Calendar and Medical Records to
    the shared pages, Dashboard to the role's dashboard, Logout (which
    clears the user) to the landing page.  No control throws. *)
Theorem navbar_targets_shown c st :
  nav_enabled c st = true -> a_loading st.2 = false ->
  has_role (a_user st.2) ROLE_DOCTOR || has_role (a_user st.2) ROLE_PATIENT = true ->
  c <> Chip ->
  match nav_click c st with
  | (st', Ok (Some url)) => exists pg, resolve url st'.2 = Some (Show pg)
  | (_, Ok None) => True
  | (_, Thrown _) => False
  end.
Proof.
  destruct st as [m a]. intros Hen Hl Hr Hc. apply andb_true_iff in Hen as [Ha _].
  cbn [fst snd] in *.
  assert (Hshared : existsb (has_role (a_user a)) [ROLE_DOCTOR; ROLE_PATIENT] = true)
    by (cbn; by rewrite orb_false_r).
  destruct c; cbn [nav_click]; try done; try by destruct Hc.
  all: try (by apply dashboard_shown); try (by apply logout_shows_landing).
  - exists Appointments. by apply (resolve_shown _ [ROLE_DOCTOR; ROLE_PATIENT]).
  - exists MedicalRecords. by apply (resolve_shown _ [ROLE_DOCTOR; ROLE_PATIENT]).
Qed.

Definition patient_auth : auth :=
  mk_auth (Some (mk_user (Some "7") (Some "bob") (Some [ROLE_PATIENT]) (Some "t") None))
    false None (Some "t") None.

Lemma navbar_targets_shown_witness :
  nav_enabled MenuDashboard (true, patient_auth) = true /\
  nav_click MenuDashboard (true, patient_auth) =
    ((false, patient_auth), Ok (Some "/patient-dashboard")) /\
  match nav_click MenuDashboard (true, patient_auth) with
  | (st', Ok (Some url)) => exists pg, resolve url st'.2 = Some (Show pg)
  | (_, Ok None) => True
  | (_, Thrown _) => False
  end.
Proof.
  split; [reflexivity|]. split; [reflexivity|].
  apply navbar_targets_shown; [reflexivity | reflexivity | reflexivity | discriminate].
Defined.
