(* ===== verification/Appointments.v ===== *)
(** * Appointments: data, REST answers, and the calendar page

    The appointment objects the backend returns, as the three pages that
    show them read them ([src/src/pages/Appointments.jsx],
    [DoctorDashboard.jsx], [PatientDashboard.jsx]), with the medical
    records the dashboards show (diagnosis, medications, vital signs);
    the answers of
    [fetch] as inputs of the handlers; and the [Appointments] calendar
    page: [fetchAppointments], run by the mount effect [calendar_mount]
    (endpoint chosen by role, each appointment
    turned into a one-hour calendar event) and [eventStyleGetter].
    Instants are milliseconds since the epoch ([Z]); [new Date(s)] of a
    string is the parameter [parse_date] of the sections that need it
    ([None] is an invalid date, whose arithmetic gives [NaN]).  Integers
    are printed as [Number.prototype.toString] does ([z_digits],
    [z_to_string]). *)

From Stdlib Require Import ZArith Ascii.
From S2P Require Import Prelude Auth.

(** A medical record as the record dialogs read it; numbers of the vital
    signs are kept as the text JSX renders for them. *)
Record medication := mk_medication {
  med_name : option string; med_dosage : option string;
  med_frequency : option string; med_duration : option string
}.

Record vital_signs := mk_vitals {
  vs_temperature : option string; vs_systolic : option string; vs_diastolic : option string;
  vs_heartRate : option string; vs_respiratoryRate : option string
}.

Record medical_record := mk_record {
  mr_id : option string;
  mr_createdAt : option string;
  mr_diagnosis : option string;
  mr_symptoms : option string;
  mr_notes : option string;
  mr_medications : option (list medication);
  mr_vitalSigns : option vital_signs
}.

(** An appointment; [ap_id] is [`${appointment.id}`], a missing field is
    [None]; [medicalRecords] may also be [null] (the inner [None]). *)
Record appointment := mk_appt {
  ap_id : string;
  ap_status : option string;
  ap_startTime : option string;
  ap_date : option string;
  ap_time : option string;
  ap_doctorId : option string;
  ap_patientName : option string;
  ap_doctorName : option string;
  ap_reason : option string;
  ap_durationInMinutes : option Z;
  ap_medicalRecords : option (option (list medical_record))
}.

(** [{...appointment, doctorName: n}] and [{...appointment, medicalRecords: r}]. *)
Definition with_doctorName (n : string) (a : appointment) : appointment :=
  mk_appt (ap_id a) (ap_status a) (ap_startTime a) (ap_date a) (ap_time a) (ap_doctorId a)
    (ap_patientName a) (Some n) (ap_reason a) (ap_durationInMinutes a) (ap_medicalRecords a).
Definition with_records (r : option (list medical_record)) (a : appointment) : appointment :=
  mk_appt (ap_id a) (ap_status a) (ap_startTime a) (ap_date a) (ap_time a) (ap_doctorId a)
    (ap_patientName a) (ap_doctorName a) (ap_reason a) (ap_durationInMinutes a) (Some r).

(** What [await fetch(url, ...)] gives the code: a response with [ok]
    and its parsed JSON body or its text, or a rejected promise (network
    failure). *)
Inductive fetch_result (A : Type) :=
| FOk (body : A)
| FNotOk (text : string)
| FReject (e : js_error).
Arguments FOk {A} body.
Arguments FNotOk {A} text.
Arguments FReject {A} e.

(** A JSON body that may not be an array ([Array.isArray]). *)
Inductive json_list (A : Type) := JArray (xs : list A) | JNotArray.
Arguments JArray {A} xs.
Arguments JNotArray {A}.

(** [new Error(m)], thrown and caught in the same handler. *)
Definition error (m : string) : js_error := mk_error "Error" m.

(** [Number.prototype.toString] for the integers the code prints: the
    decimal digits of [n] before [acc], at most [fuel] of them. *)
Fixpoint z_digits (fuel : nat) (n : Z) (acc : string) : string :=
  match fuel with
  | O => acc
  | S f => let acc' := String (Ascii.ascii_of_nat (48 + Z.to_nat (n mod 10))) acc in
           if (n <? 10)%Z then acc' else z_digits f (n / 10)%Z acc'
  end.

(** 64 digits cover every integer below [10^64], far beyond the years,
    months, days and ids the code prints. *)
Definition z_to_string (z : Z) : string :=
  if (z <? 0)%Z then String "-"%char (z_digits 64 (- z)%Z EmptyString)
  else z_digits 64 z EmptyString.

(** ** [Appointments.jsx] *)

Record calendar_event := mk_event {
  ev_id : string;
  ev_title : string;
  ev_start : option Z;
  ev_end : option Z;
  ev_status : option string
}.

Record calendar_page := mk_calendar {
  cal_appointments : list calendar_event;
  cal_loading : bool;
  cal_error : option string
}.

Definition init_calendar : calendar_page := mk_calendar [] true None.

(** [`${x}`] of an optional string: [undefined] prints as ["undefined"]. *)
Definition tmpl (o : option string) : string := match o with Some s => s | None => "undefined" end.

(** The event title of line 67. *)
Definition event_title (a : appointment) : string :=
  (if truthy (ap_patientName a) then "Patient: " +:+ tmpl (ap_patientName a) else "") +:+
  (if truthy (ap_doctorName a) then " Doctor: Dr. " +:+ tmpl (ap_doctorName a) else "") +:+
  " - " +:+ tmpl (ap_reason a).

Section Calendar.
Context (parse_date : string -> option Z).

(** [new Date(appointment.startTime)]: [undefined] is an invalid date. *)
Definition date_of (o : option string) : option Z := o ≫= parse_date.

Definition to_event (a : appointment) : calendar_event :=
  let start := date_of (ap_startTime a) in
  mk_event (ap_id a) (event_title a) start ((fun t => t + 3600000)%Z <$> start) (ap_status a).

(** The endpoint chosen by [user.roles.includes]: reading [roles] of a
    user without roles throws. *)
Definition calendar_endpoint (u : user) : result string :=
  match u_roles u with
  | None => Thrown (type_error "Cannot read properties of undefined (reading 'includes')")
  | Some rs =>
      Ok (if bool_decide (ROLE_DOCTOR ∈ rs) then "appointments/doctor/name/" +:+ tmpl (u_username u)
          else if bool_decide (ROLE_PATIENT ∈ rs)
          then "appointments/patient/name/" +:+ tmpl (u_username u)
          else "appointments")
  end.

(** [fetchAppointments()] of the calendar: [srv url] is the answer to
    [fetch(url)]. *)
Definition calendar_fetch (u : user) (srv : string -> fetch_result (list appointment)) :
  js calendar_page unit :=
  js_try
    (match calendar_endpoint u with
     | Thrown e => throw e
     | Ok endpoint =>
         match srv ("http://localhost:8080/" +:+ endpoint) with
         | FOk data =>
             modify (fun c => mk_calendar (to_event <$> data) (cal_loading c) (cal_error c))
         | FNotOk _ => throw (error "Failed to fetch appointments")
         | FReject e => throw e
         end
     end)
    (fun _ => modify (fun c => mk_calendar (cal_appointments c) (cal_loading c)
                                 (Some "Failed to load appointments"))) ;;
  modify (fun c => mk_calendar (cal_appointments c) false (cal_error c)).

(** The page's mount effect: [useEffect(() => { fetchAppointments(); }, [])]. *)
Definition calendar_mount (u : user) (srv : string -> fetch_result (list appointment)) :
  js calendar_page unit :=
  calendar_fetch u srv.

End Calendar.

(** [eventStyleGetter(event).style.backgroundColor]. *)
Definition event_color (status : option string) : string :=
  match status with
  | Some "CONFIRMED" => "#4caf50"
  | Some "CANCELLED" => "#f44336"
  | Some "COMPLETED" => "#9e9e9e"
  | Some "PENDING" => "#ff9800"
  | _ => "#3174ad"
  end%string.

(** [getStatusColor(status)] of both dashboards (the same code). *)
Definition getStatusColor (status : option string) : string :=
  match status with
  | Some "CONFIRMED" => "success"
  | Some "CANCELLED" => "error"
  | Some "COMPLETED" => "info"
  | _ => "warning"
  end%string.

(** [appointment.medicalRecords && appointment.medicalRecords.length > 0]. *)
Definition has_records (a : appointment) : bool :=
  match ap_medicalRecords a with Some (Some (_ :: _)) => true | _ => false end.

(** [appointment.status === s]. *)
Definition status_is (s : string) (a : appointment) : bool := bool_decide (ap_status a = Some s).

(** [user.id || user.username], printed in a template literal. *)
Definition id_or_username (u : user) : string :=
  if truthy (u_id u) then tmpl (u_id u) else tmpl (u_username u).

(** [encodeURIComponent(s)] on the UTF-8 bytes of [s]: the unreserved
    characters [A-Z a-z 0-9 - _ . ! ~ * ' ( )] are kept, every other byte
    becomes [%XX] (upper-case hexadecimal). *)
Definition unreserved (c : ascii) : bool :=
  let n := nat_of_ascii c in
  ((48 <=? n) && (n <=? 57)) || ((65 <=? n) && (n <=? 90)) || ((97 <=? n) && (n <=? 122)) ||
  has_char c "-_.!~*'()".

Definition hex_digit (n : nat) : ascii :=
  if n <? 10 then ascii_of_nat (48 + n) else ascii_of_nat (55 + n).

Fixpoint encodeURIComponent (s : string) : string :=
  match s with
  | EmptyString => EmptyString
  | String c r =>
      if unreserved c then String c (encodeURIComponent r)
      else String "%" (String (hex_digit (nat_of_ascii c / 16))
                         (String (hex_digit (nat_of_ascii c mod 16)) (encodeURIComponent r)))
  end.

(** The URL of [handleJoinVideoCall(appointment)] on a dashboard whose
    role is [role]. *)
Definition join_url (role : string) (u : user) (a : appointment) : string :=
  "/video-call/" +:+ ap_id a +:+ "?role=" +:+ role +:+ "&userId=" +:+ id_or_username u +:+
  "&userName=" +:+ encodeURIComponent (tmpl (u_username u)).

(** ** Properties *)

(** C40: the calendar's [fetchAppointments] always ends loading.  A user
    without [roles] makes it fail before any request; otherwise it asks
    the endpoint of the user's role and, on an [ok] answer, shows one
    event per appointment, each lasting exactly one hour (whatever the
    appointment's [durationInMinutes]); a failure sets the banner and
    keeps the events. *)
Theorem calendar_fetch_spec parse_date u srv c :
  let '(c', r) := calendar_fetch parse_date u srv c in
  r = Ok tt /\ cal_loading c' = false /\
  match calendar_endpoint u with
  | Ok ep =>
      match srv ("http://localhost:8080/" +:+ ep) with
      | FOk data =>
          cal_appointments c' = to_event parse_date <$> data /\ cal_error c' = cal_error c /\
          Forall (fun e => ev_end e = (fun t => t + 3600000)%Z <$> ev_start e) (cal_appointments c')
      | _ => cal_appointments c' = cal_appointments c /\ cal_error c' = Some "Failed to load appointments"
      end
  | Thrown _ => cal_appointments c' = cal_appointments c /\ cal_error c' = Some "Failed to load appointments"
  end.
Proof.
  unfold calendar_fetch. js_unfold.
  destruct (calendar_endpoint u) as [ep|e]; js_unfold; [|done].
  destruct (srv _) as [data|t|e]; js_unfold; [|done|done].
  split_and!; try done. apply Forall_forall. intros ev Hev.
  apply list_elem_of_fmap in Hev as (a & -> & _). done.
Qed.

(** ** Printing integers *)

(** The digit loop writes in front of its accumulator. *)
Lemma z_digits_acc f n acc : z_digits f n acc = z_digits f n "" +:+ acc.
Proof.
  revert n acc. induction f as [|f IH]; intros n acc; [done|]. cbn [z_digits].
  destruct (n <? 10)%Z; [done|].
  rewrite (IH _ (String _ acc)), (IH _ (String _ "")), string_app_assoc. done.
Qed.

(** The last digit of [n] and the digits of [n / 10] before it. *)
Lemma z_digits_step f n :
  (10 <= n)%Z ->
  z_digits (S f) n "" =
  z_digits f (n / 10)%Z "" +:+ String (Ascii.ascii_of_nat (48 + Z.to_nat (n mod 10))) "".
Proof.
  intros Hn. cbn [z_digits]. replace (n <? 10)%Z with false by lia. apply z_digits_acc.
Qed.
