(* ===== verification/DoctorDash.v ===== *)
(** * The doctor's dashboard: [src/src/pages/DoctorDashboard.jsx]

    The page's state (its [useState] hooks) as a record; its handlers
    [fetchAppointments] (the doctor's appointments, then each one's
    medical records), [handleStatusUpdate], [handleViewRecord] and
    [handleJoinVideoCall]; the mount effect [mount_effect]; and the row
    of buttons each appointment gets.
    The backend's answers are the section's parameters: [srv_appts url],
    [srv_records url] and [srv_update method url] answer the [fetch] of
    that URL; [api] is [process.env.REACT_APP_API_URL]. *)

From Stdlib Require Import ZArith Ascii.
From S2P Require Import Prelude Auth Appointments.

Module Doctor.

Record dash := mk_dash {
  d_appointments : list appointment;
  d_loading : bool;
  d_error : option string;
  d_selectedRecord : option medical_record;
  d_openRecordDialog : bool;
  d_videoCallError : string
}.

Definition init_dash : dash := mk_dash [] true None None false "".

Definition set_appointments (x : list appointment) (d : dash) : dash :=
  mk_dash x (d_loading d) (d_error d) (d_selectedRecord d) (d_openRecordDialog d) (d_videoCallError d).
Definition set_loading (x : bool) (d : dash) : dash :=
  mk_dash (d_appointments d) x (d_error d) (d_selectedRecord d) (d_openRecordDialog d) (d_videoCallError d).
Definition set_error (x : option string) (d : dash) : dash :=
  mk_dash (d_appointments d) (d_loading d) x (d_selectedRecord d) (d_openRecordDialog d) (d_videoCallError d).
Definition open_record (r : medical_record) (d : dash) : dash :=
  mk_dash (d_appointments d) (d_loading d) (d_error d) (Some r) true (d_videoCallError d).

(** The record dialog's [onClose] and its Close button:
    [setOpenRecordDialog(false)]. *)
Definition close_record : js dash unit :=
  modify (fun d => mk_dash (d_appointments d) (d_loading d) (d_error d) (d_selectedRecord d)
                     false (d_videoCallError d)).

(** The video-call error dialog's [onClose] and its OK button:
    [setVideoCallError('')]. *)
Definition dismiss_video_error : js dash unit :=
  modify (fun d => mk_dash (d_appointments d) (d_loading d) (d_error d) (d_selectedRecord d)
                     (d_openRecordDialog d) "").

(** The buttons of an appointment's row (its record cell and its actions
    cell). *)
Inductive action := ViewRecord | AddRecord | Confirm | Cancel | Complete | JoinCall.

#[export] Instance action_eq_dec : EqDecision action.
Proof. solve_decision. Defined.

Definition row_actions (a : appointment) : list action :=
  (if has_records a then [ViewRecord] else if status_is "CONFIRMED" a then [AddRecord] else []) ++
  (if status_is "PENDING" a then [Confirm; Cancel] else []) ++
  (if status_is "CONFIRMED" a then [Complete; JoinCall] else []).

Section Handlers.
Context (api : option string) (u : user)
  (srv_appts : string -> fetch_result (list appointment))
  (srv_records : string -> fetch_result (option (list medical_record)))
  (srv_update : string -> string -> fetch_result unit).

Definition records_url (id : string) : string :=
  tmpl api +:+ "/medical-records/appointment/" +:+ id.

(** One appointment of the [Promise.all]: its records when the answer
    is [ok], [[]] otherwise (a rejected fetch included). *)
Definition with_fetched_records (a : appointment) : appointment :=
  match srv_records (records_url (ap_id a)) with
  | FOk r => with_records r a
  | _ => with_records (Some []) a
  end.

(** [fetchAppointments()]. *)
Definition fetchAppointments : js dash unit :=
  js_try
    (match srv_appts (tmpl api +:+ "/appointments/doctor/name/" +:+ tmpl (u_username u)) with
     | FOk data => modify (set_appointments (with_fetched_records <$> data))
     | FNotOk _ => throw (error "Failed to fetch appointments")
     | FReject e => throw e
     end)
    (fun _ => modify (set_error (Some "Failed to load appointments"))) ;;
  modify (set_loading false).

(** The page's mount effect: [useEffect(() => { fetchAppointments(); }, [])]. *)
Definition mount_effect : js dash unit := fetchAppointments.

(** The request of [handleStatusUpdate(id, status)]: method and URL. *)
Definition status_request (id status : string) : string * string :=
  (if String.eqb (toLowerCase status) "cancel" then "PUT" else "POST",
   tmpl api +:+ "/appointments/" +:+ id +:+ "/" +:+ toLowerCase status).

(** [handleStatusUpdate(appointmentId, status)]. *)
Definition handleStatusUpdate (id status : string) : js dash unit :=
  js_try
    (let '(m, url) := status_request id status in
     match srv_update m url with
     | FOk _ => fetchAppointments
     | FNotOk _ => throw (error "Failed to update appointment status")
     | FReject e => throw e
     end)
    (fun _ => modify (set_error (Some "Failed to update appointment status"))).

(** [handleViewRecord(appointmentId)]. *)
Definition handleViewRecord (id : string) : js dash unit :=
  js_try
    (match srv_records (records_url id) with
     | FOk (Some (r :: _)) => modify (open_record r)
     | FOk _ => modify (set_error (Some "No medical records found for this appointment"))
     | FNotOk _ => throw (error "Failed to fetch medical record")
     | FReject e => throw e
     end)
    (fun _ => modify (set_error (Some "Failed to load medical record"))).

(** What a click on a row's button does: a handler, or a navigation. *)
Definition click (act : action) (a : appointment) : js dash (option string) :=
  match act with
  | ViewRecord => handleViewRecord (ap_id a) ;; mret None
  | AddRecord => mret (Some ("/add-medical-record/" +:+ ap_id a))
  | Confirm => handleStatusUpdate (ap_id a) "CONFIRM" ;; mret None
  | Cancel => handleStatusUpdate (ap_id a) "CANCEL" ;; mret None
  | Complete => handleStatusUpdate (ap_id a) "COMPLETE" ;; mret None
  | JoinCall => mret (Some (join_url "doctor" u a))
  end.

End Handlers.

(** ** Properties *)

Section Proofs.
Context (api : option string) (u : user)
  (srv_appts : string -> fetch_result (list appointment))
  (srv_records : string -> fetch_result (option (list medical_record)))
  (srv_update : string -> string -> fetch_result unit).

Lemma status_is_distinct a : status_is "PENDING" a = true -> status_is "CONFIRMED" a = false.
Proof.
  unfold status_is. rewrite !bool_decide_eq_true, bool_decide_eq_false. congruence.
Qed.

Lemma fetch_ok d : (fetchAppointments api u srv_appts srv_records d).2 = Ok tt.
Proof. unfold fetchAppointments. js_unfold. by destruct (srv_appts _). Qed.

(** C28: the buttons of a row follow the appointment's status: Confirm
    and Cancel only while [PENDING], Complete and Start Video Call only
    once [CONFIRMED], View Record exactly when records exist, Add Record
    for a confirmed appointment without records. *)
Theorem doctor_row_actions a :
  (JoinCall ∈ row_actions a <-> status_is "CONFIRMED" a = true) /\
  (Complete ∈ row_actions a <-> status_is "CONFIRMED" a = true) /\
  (Confirm ∈ row_actions a <-> status_is "PENDING" a = true) /\
  (Cancel ∈ row_actions a <-> status_is "PENDING" a = true) /\
  (ViewRecord ∈ row_actions a <-> has_records a = true) /\
  (AddRecord ∈ row_actions a <-> has_records a = false /\ status_is "CONFIRMED" a = true).
Proof.
  unfold row_actions.
  destruct (has_records a), (status_is "PENDING" a) eqn:Hp, (status_is "CONFIRMED" a) eqn:Hc;
    try (rewrite status_is_distinct in Hc by done; discriminate);
    cbn [app]; repeat split; try intro; try done; try set_solver; by destruct_and?.
Qed.

(** C29: [handleStatusUpdate] sends [POST .../confirm], [PUT .../cancel]
    or [POST .../complete]; when the backend accepts, the list is fetched
    again, otherwise only the error banner changes. *)
Theorem handleStatusUpdate_spec id st d :
  (status_request api id "CONFIRM" = ("POST", tmpl api +:+ "/appointments/" +:+ id +:+ "/confirm") /\
   status_request api id "CANCEL" = ("PUT", tmpl api +:+ "/appointments/" +:+ id +:+ "/cancel") /\
   status_request api id "COMPLETE" = ("POST", tmpl api +:+ "/appointments/" +:+ id +:+ "/complete"))%string /\
  handleStatusUpdate api u srv_appts srv_records srv_update id st d =
  match srv_update (status_request api id st).1 (status_request api id st).2 with
  | FOk _ => fetchAppointments api u srv_appts srv_records d
  | _ => (set_error (Some "Failed to update appointment status") d, Ok tt)
  end.
Proof.
  split; [split_and!; reflexivity|]. unfold handleStatusUpdate, js_try. destruct (status_request api id st) as [m url].
  cbn [fst snd]. destruct (srv_update m url); [|js_unfold; done|js_unfold; done].
  pose proof (fetch_ok d) as Hf.
  destruct (fetchAppointments _ _ _ _ d) as [d' r]. cbn in Hf. by subst r.
Qed.

(** C30: [fetchAppointments] always ends loading.  On an [ok] answer the
    list is the doctor's appointments in the backend's order, each with
    the records the backend returned for it, or none when that request
    failed; on a failure the banner says so and the list is kept. *)
Theorem doctor_fetch_spec d :
  let '(d', r) := fetchAppointments api u srv_appts srv_records d in
  r = Ok tt /\ d_loading d' = false /\
   match srv_appts (tmpl api +:+ "/appointments/doctor/name/" +:+ tmpl (u_username u)) with
  | FOk data =>
      d_appointments d' = with_fetched_records api srv_records <$> data /\ d_error d' = d_error d /\
      Forall2 (fun a a' => ap_id a' = ap_id a /\
                 ap_medicalRecords a' =
                   Some (match srv_records (records_url api (ap_id a)) with
                         | FOk r => r | _ => Some [] end)) data (d_appointments d')
  | _ => d_appointments d' = d_appointments d /\ d_error d' = Some "Failed to load appointments"
  end.
Proof.
  unfold fetchAppointments. js_unfold.
  destruct (srv_appts _) as [data|t|e]; js_unfold; [|done|done].
  split_and!; try done. cbn.
  induction data as [|a data IH]; constructor; [|done].
  unfold with_fetched_records. by destruct (srv_records _).
Qed.

End Proofs.

End Doctor.
