(* ===== verification/PatientDash.v ===== *)
(** * The patient's dashboard: [src/src/pages/PatientDashboard.jsx]

    The page's state (its [useState] hooks) as a record, and its handlers:
    [fetchAppointments] (the patient's appointments, sorted, each
    completed with its doctor's name and its medical records),
    [fetchDoctors], [handleBookingSubmit] (with its validation),
    [handleCancelAppointment], [handleViewRecord], [handleJoinVideoCall],
    [canCancelAppointment], [handleBookAppointment], the mount effect
    ([mount_effect], both fetches), the booking dialog's
    handlers, the dialogs' close actions and the row of buttons of an
    appointment; and how the booking's date is printed ([pad2]) and a
    time field read ([js_number]), with the lemmas that printed digits
    read back.

    The environment is the section's parameters: [api_base_url] is the
    [API_BASE_URL] imported from [../config] (not in the repository);
    [api_base_urll] is the value of the identifier [API_BASE_URLL] that
    line 62 reads, [None] when no such binding exists (a
    [ReferenceError]), which is the case in this repository;
    [parse_date], [set_hours] and [local_ymd] are [new Date(s)],
    [Date.prototype.setHours(h, m, 0, 0)] and the local calendar date of
    an instant; the [srv_*] functions answer the [fetch]es. *)

From Stdlib Require Import ZArith Ascii.
From S2P Require Import Prelude Auth Appointments.

Module Patient.

(** [bookingData]. *)
Record booking := mk_booking {
  b_doctorId : string;
  b_date : option Z;
  b_time : string;
  b_reason : string
}.

Definition empty_booking : booking := mk_booking "" None "" "".

(** A doctor as the backend sends it and as [fetchDoctors] formats it. *)
Record doctor_raw := mk_doctor_raw {
  dr_id : option string; dr__id : option string; dr_fullName : option string;
  dr_username : option string; dr_specialty : option string; dr_speciality : option string
}.

Record doctor := mk_doctor {
  doc__id : option string; doc_fullName : option string;
  doc_username : option string; doc_specialty : string
}.

(** The body of the booking request. *)
Record appointment_data := mk_appointment_data {
  ad_patientId : string; ad_doctorId : string; ad_time : string; ad_date : string;
  ad_durationInMinutes : Z; ad_reason : string; ad_status : string
}.

Record dash := mk_dash {
  p_appointments : list appointment;
  p_loading : bool;
  p_error : option string;
  p_openBooking : bool;
  p_doctors : list doctor;
  p_successMessage : string;
  p_booking : booking;
  p_selectedRecord : option medical_record;
  p_openRecordDialog : bool;
  p_videoCallError : string;
  p_bookingValidationError : string;
  (** a [setTimeout] that will clear the success message is pending *)
  p_successTimer : bool
}.

Definition init_dash : dash :=
  mk_dash [] true None false [] "" empty_booking None false "" "" false.

Definition upd_appointments (x : list appointment) (d : dash) : dash :=
  mk_dash x (p_loading d) (p_error d) (p_openBooking d) (p_doctors d) (p_successMessage d)
    (p_booking d) (p_selectedRecord d) (p_openRecordDialog d) (p_videoCallError d) (p_bookingValidationError d)
    (p_successTimer d).
Definition upd_loading (x : bool) (d : dash) : dash :=
  mk_dash (p_appointments d) x (p_error d) (p_openBooking d) (p_doctors d) (p_successMessage d)
    (p_booking d) (p_selectedRecord d) (p_openRecordDialog d) (p_videoCallError d) (p_bookingValidationError d)
    (p_successTimer d).
Definition upd_error (x : option string) (d : dash) : dash :=
  mk_dash (p_appointments d) (p_loading d) x (p_openBooking d) (p_doctors d) (p_successMessage d)
    (p_booking d) (p_selectedRecord d) (p_openRecordDialog d) (p_videoCallError d) (p_bookingValidationError d)
    (p_successTimer d).
Definition upd_openBooking (x : bool) (d : dash) : dash :=
  mk_dash (p_appointments d) (p_loading d) (p_error d) x (p_doctors d) (p_successMessage d)
    (p_booking d) (p_selectedRecord d) (p_openRecordDialog d) (p_videoCallError d) (p_bookingValidationError d)
    (p_successTimer d).
Definition upd_doctors (x : list doctor) (d : dash) : dash :=
  mk_dash (p_appointments d) (p_loading d) (p_error d) (p_openBooking d) x (p_successMessage d)
    (p_booking d) (p_selectedRecord d) (p_openRecordDialog d) (p_videoCallError d) (p_bookingValidationError d)
    (p_successTimer d).
Definition upd_successMessage (x : string) (d : dash) : dash :=
  mk_dash (p_appointments d) (p_loading d) (p_error d) (p_openBooking d) (p_doctors d) x
    (p_booking d) (p_selectedRecord d) (p_openRecordDialog d) (p_videoCallError d) (p_bookingValidationError d)
    (p_successTimer d).
Definition upd_booking (x : booking) (d : dash) : dash :=
  mk_dash (p_appointments d) (p_loading d) (p_error d) (p_openBooking d) (p_doctors d)
    (p_successMessage d) x (p_selectedRecord d) (p_openRecordDialog d) (p_videoCallError d)
    (p_bookingValidationError d) (p_successTimer d).
Definition open_record (r : medical_record) (d : dash) : dash :=
  mk_dash (p_appointments d) (p_loading d) (p_error d) (p_openBooking d) (p_doctors d)
    (p_successMessage d) (p_booking d) (Some r) true (p_videoCallError d) (p_bookingValidationError d)
    (p_successTimer d).
Definition upd_validation (x : string) (d : dash) : dash :=
  mk_dash (p_appointments d) (p_loading d) (p_error d) (p_openBooking d) (p_doctors d)
    (p_successMessage d) (p_booking d) (p_selectedRecord d) (p_openRecordDialog d) (p_videoCallError d) x
    (p_successTimer d).
Definition upd_openRecordDialog (x : bool) (d : dash) : dash :=
  mk_dash (p_appointments d) (p_loading d) (p_error d) (p_openBooking d) (p_doctors d)
    (p_successMessage d) (p_booking d) (p_selectedRecord d) x (p_videoCallError d)
    (p_bookingValidationError d) (p_successTimer d).
Definition upd_videoCallError (x : string) (d : dash) : dash :=
  mk_dash (p_appointments d) (p_loading d) (p_error d) (p_openBooking d) (p_doctors d)
    (p_successMessage d) (p_booking d) (p_selectedRecord d) (p_openRecordDialog d) x
    (p_bookingValidationError d) (p_successTimer d).
Definition upd_timer (x : bool) (d : dash) : dash :=
  mk_dash (p_appointments d) (p_loading d) (p_error d) (p_openBooking d) (p_doctors d)
    (p_successMessage d) (p_booking d) (p_selectedRecord d) (p_openRecordDialog d) (p_videoCallError d)
    (p_bookingValidationError d) x.

(** [Number(s)] for the strings a time field holds: a string of decimal
    digits is its value, [""] is [0], anything else is [NaN] ([None]). *)
Fixpoint digits_value (s : string) (acc : Z) : option Z :=
  match s with
  | EmptyString => Some acc
  | String c r =>
      let n := nat_of_ascii c in
      if (48 <=? n)%nat && (n <=? 57)%nat then digits_value r (acc * 10 + Z.of_nat (n - 48))%Z
      else None
  end.

Definition js_number (s : string) : option Z := digits_value s 0%Z.

(** [String(n).padStart(2, '0')], [NaN] printing as ["NaN"]. *)
Definition pad2 (o : option Z) : string :=
  match o with
  | Some n => let s := z_to_string n in
              if (String.length s <? 2)%nat then "0" +:+ s else s
  | None => "NaN"
  end.

(** [fetchDoctors]'s formatting of one doctor. *)
Definition format_doctor (x : doctor_raw) : doctor :=
  mk_doctor (if truthy (dr_id x) then dr_id x else dr__id x)
    (if truthy (dr_fullName x) then dr_fullName x else dr_username x)
    (dr_username x)
    (if truthy (dr_specialty x) then tmpl (dr_specialty x)
     else if truthy (dr_speciality x) then tmpl (dr_speciality x) else "General Medicine").

(** [Array.prototype.sort(compare)]: a stable sort ([compare a b < 0]
    puts [a] first; [NaN] and [0] keep the original order). *)
Fixpoint insert_by {A} (cmp : A -> A -> option Z) (x : A) (ys : list A) : list A :=
  match ys with
  | [] => [x]
  | y :: ys' =>
      match cmp x y with
      | Some c => if (c <? 0)%Z then x :: ys else y :: insert_by cmp x ys'
      | None => y :: insert_by cmp x ys'
      end
  end.

Definition js_sort {A} (cmp : A -> A -> option Z) (xs : list A) : list A :=
  foldl (fun acc x => insert_by cmp x acc) [] xs.

Section Handlers.
Context (api_base_url : string) (api_base_urll : option string) (u : user)
  (parse_date : string -> option Z)
  (set_hours : Z -> option Z -> option Z -> option Z)
  (local_ymd : Z -> Z * Z * Z)
  (srv_appts : string -> fetch_result (json_list appointment))
  (srv_doctor : string -> fetch_result (option string))
  (srv_records : string -> fetch_result (option (list medical_record)))
  (srv_doctors : string -> fetch_result (list doctor_raw))
  (srv_book : appointment_data -> fetch_result unit)
  (srv_cancel : string -> fetch_result unit).

(** [new Date(a.startTime || `${a.date}T${a.time}`)]. *)
Definition appointment_date (a : appointment) : option Z :=
  if truthy (ap_startTime a) then parse_date (tmpl (ap_startTime a))
  else parse_date (tmpl (ap_date a) +:+ "T" +:+ tmpl (ap_time a)).

(** The comparator of line 97: [dateA - dateB], [NaN] if either is
    invalid. *)
Definition by_date (a b : appointment) : option Z :=
  da ← appointment_date a; db ← appointment_date b; Some (da - db)%Z.

(** One appointment of the first [Promise.all]: the doctor's [username]
    or ['Unknown Doctor'] ([srv_doctor] answers [doctorData.username]). *)
Definition with_doctor (a : appointment) : appointment :=
  match srv_doctor (api_base_url +:+ "/doctor/" +:+ tmpl (ap_doctorId a)) with
  | FOk n => with_doctorName (or_default n "Unknown Doctor") a
  | _ => with_doctorName "Unknown Doctor" a
  end.

(** One appointment of the second [Promise.all]. *)
Definition with_fetched_records (a : appointment) : appointment :=
  match srv_records (api_base_url +:+ "/medical-records/appointment/" +:+ ap_id a) with
  | FOk r => with_records r a
  | _ => with_records (Some []) a
  end.

Definition reference_error (x : string) : js_error :=
  mk_error "ReferenceError" (x +:+ " is not defined").

(** [fetchAppointments()]: line 62 reads [API_BASE_URLL]. *)
Definition fetchAppointments : js dash unit :=
  js_try
    (modify (upd_loading true) ;;
     modify (upd_error None) ;;
     base ← (match api_base_urll with
             | Some b => mret b
             | None => throw (reference_error "API_BASE_URLL")
             end);
     match srv_appts (base +:+ "/appointments/patient/name/" +:+ tmpl (u_username u)) with
     | FOk (JArray data) =>
         let sorted := js_sort by_date data in
         modify (upd_appointments (with_fetched_records <$> (with_doctor <$> sorted))) ;;
         modify (upd_error None)
     | FOk JNotArray => throw (error "Invalid appointments data format")
     | FNotOk text => throw (error ("Failed to fetch appointments: " +:+ text))
     | FReject e => throw e
     end)
    (fun err => modify (upd_error (Some (or_default (Some (err_message err))
                                          "Failed to load appointments"))) ;;
                modify (upd_appointments [])) ;;
  modify (upd_loading false).

(** [fetchDoctors()]. *)
Definition fetchDoctors : js dash unit :=
  js_try
    (match srv_doctors (api_base_url +:+ "/doctor") with
     | FOk data => modify (upd_doctors (format_doctor <$> data))
     | FNotOk _ => throw (error "Failed to fetch doctors")
     | FReject e => throw e
     end)
    (fun _ => modify (upd_error (Some "Failed to load doctors"))).

(** The page's mount effect: [fetchAppointments(); fetchDoctors();], two
    requests not awaited.  [fetchAppointments] settles first: in this
    repository its [ReferenceError] is thrown before its first [await];
    with [API_BASE_URLL] bound, this is the schedule where its answer
    arrives first. *)
Definition mount_effect : js dash unit := fetchAppointments ;; fetchDoctors.

(** The [hour] and [minute] of [bookingData.time.split(':').map(Number)]. *)
Definition hour_minute (time : string) : option Z * option Z :=
  match split_on ":" time with
  | h :: m :: _ => (js_number h, js_number m)
  | h :: [] => (js_number h, None)
  | [] => (None, None)
  end.

(** [`${year}-${month}-${day}`] of the selected instant. *)
Definition formatted_date (t : option Z) : string :=
  match t with
  | Some t => let '(y, m, d) := local_ymd t in
              z_to_string y +:+ "-" +:+ pad2 (Some m) +:+ "-" +:+ pad2 (Some d)
  | None => "NaN-NaN-NaN"
  end.

(** JavaScript's [<] on numbers that may be [NaN]. *)
Definition lt_num (a b : option Z) : bool :=
  match a, b with Some x, Some y => (x <? y)%Z | _, _ => false end.
Definition ge_num (a b : option Z) : bool :=
  match a, b with Some x, Some y => (y <=? x)%Z | _, _ => false end.

(** [handleBookingSubmit()] at time [now]. *)
Definition handleBookingSubmit (now : Z) : js dash unit :=
  modify (upd_validation "") ;;
  js_try
    ('d ← get;
     let b := p_booking d in
     match b_date b with
     | None => modify (upd_validation "Please select both date and time.")
     | Some date =>
       if String.eqb (b_time b) "" then modify (upd_validation "Please select both date and time.")
       else if String.eqb (b_doctorId b) "" then modify (upd_validation "Please select a doctor.")
       else
         let '(hour, minute) := hour_minute (b_time b) in
         let selected := set_hours date hour minute in
         if lt_num selected (Some (now + 5 * 60000)%Z) then
           modify (upd_validation "Appointment must be at least 5 minutes in the future.")
         else if lt_num hour (Some 9%Z) || ge_num hour (Some 17%Z) then
           modify (upd_validation "Appointments must be between 9:00 AM and 5:00 PM.")
         else
           let data := mk_appointment_data (tmpl (u_username u)) (b_doctorId b) (b_time b)
                         (formatted_date selected) 30 (b_reason b) "PENDING" in
           modify (upd_loading true) ;;
           match srv_book data with
           | FOk _ =>
               modify (upd_openBooking false) ;;
               modify (upd_successMessage "Appointment booked successfully!") ;;
               modify (upd_booking empty_booking) ;;
               fetchAppointments ;;
               modify (upd_timer true)
           | FNotOk text => throw (error (or_default (Some text) "Failed to book appointment"))
           | FReject e => throw e
           end
     end)
    (fun err => modify (upd_error (Some (or_default (Some (err_message err))
                                          "Failed to book appointment")))) ;;
  modify (upd_loading false).

(** The [setTimeout] of the booking fires. *)
Definition success_timeout : js dash unit :=
  modify (upd_successMessage "") ;; modify (upd_timer false).

(** [handleCancelAppointment(appointmentId)]. *)
Definition handleCancelAppointment (id : string) : js dash unit :=
  js_try
    (match srv_cancel (api_base_url +:+ "/appointments/" +:+ id +:+ "/cancel") with
     | FOk _ =>
         fetchAppointments ;;
         modify (upd_successMessage "Appointment cancelled successfully")
     | FNotOk _ => throw (error "Failed to cancel appointment")
     | FReject e => throw e
     end)
    (fun _ => modify (upd_error (Some "Failed to cancel appointment"))).

(** [handleViewRecord(appointmentId)]. *)
Definition handleViewRecord (id : string) : js dash unit :=
  js_try
    (match srv_records (api_base_url +:+ "/medical-records/appointment/" +:+ id) with
     | FOk (Some (r :: _)) => modify (open_record r)
     | FOk _ => modify (upd_error (Some "No medical records found for this appointment"))
     | FNotOk _ => throw (error "Failed to fetch medical record")
     | FReject e => throw e
     end)
    (fun _ => modify (upd_error (Some "Failed to load medical record"))).

(** [canCancelAppointment(appointment)] at time [now]. *)
Definition canCancelAppointment (now : Z) (a : appointment) : bool :=
  if status_is "CANCELLED" a || status_is "COMPLETED" a then false
  else lt_num (Some now) ((fun t => t - 3600000)%Z <$> date_of parse_date (ap_startTime a)).

(** [handleBookAppointment(doctor)]. *)
Definition handleBookAppointment (doc : option doctor) : js dash unit :=
  match doc with
  | Some dc =>
      if truthy (doc__id dc) then
        modify (upd_booking (mk_booking (tmpl (doc__id dc)) None "" "")) ;;
        modify (upd_openBooking true)
      else skip
  | None => skip
  end.

(** The Book Appointment button of the header: [setOpenBooking(true)]. *)
Definition open_booking : js dash unit := modify (upd_openBooking true).

(** The record dialog's [onClose] and its Close button. *)
Definition close_record : js dash unit := modify (upd_openRecordDialog false).

(** The video-call error dialog's [onClose] and its OK button. *)
Definition dismiss_video_error : js dash unit := modify (upd_videoCallError "").

(** The booking dialog: closing it or pressing Cancel, and its fields. *)
Definition close_booking : js dash unit :=
  modify (upd_openBooking false) ;; modify (upd_booking empty_booking).

Definition select_doctor (v : string) : js dash unit :=
  modify (fun d => upd_booking (mk_booking v (b_date (p_booking d)) (b_time (p_booking d))
                                 (b_reason (p_booking d))) d).

(** The date picker, the time [<Select>] and the reason field:
    [setBookingData({ ...bookingData, f: v })]. *)
Definition select_date (v : option Z) : js dash unit :=
  modify (fun d => upd_booking (mk_booking (b_doctorId (p_booking d)) v (b_time (p_booking d))
                                 (b_reason (p_booking d))) d).

Definition select_time (v : string) : js dash unit :=
  modify (fun d => upd_booking (mk_booking (b_doctorId (p_booking d)) (b_date (p_booking d)) v
                                 (b_reason (p_booking d))) d).

Definition set_reason (v : string) : js dash unit :=
  modify (fun d => upd_booking (mk_booking (b_doctorId (p_booking d)) (b_date (p_booking d))
                                 (b_time (p_booking d)) v) d).

(** [disabled={!doctorId || !date || !time || !reason}] of the Book
    button. *)
Definition submit_disabled (b : booking) : bool :=
  String.eqb (b_doctorId b) "" || negb (bool_decide (is_Some (b_date b))) ||
  String.eqb (b_time b) "" || String.eqb (b_reason b) "".

(** The values of the time [<Select>] and the labels shown for them. *)
Definition time_options : list (string * string) :=
  [("09:00", "09:00 AM"); ("10:00", "10:00 AM"); ("11:00", "11:00 AM"); ("12:00", "12:00 AM");
   ("14:00", "02:00 PM"); ("15:00", "03:00 PM"); ("16:00", "04:00 PM")].

Inductive action := ViewRecord | CancelAppointment | JoinCall.

#[export] Instance action_eq_dec : EqDecision action.
Proof. solve_decision. Defined.

(** The buttons of an appointment's row at time [now]. *)
Definition row_actions (now : Z) (a : appointment) : list action :=
  (if has_records a then [ViewRecord] else []) ++
  (if canCancelAppointment now a then [CancelAppointment] else []) ++
  (if status_is "CONFIRMED" a then [JoinCall] else []).

(** [handleJoinVideoCall(appointment)]. *)
Definition handleJoinVideoCall (a : appointment) : string := join_url "patient" u a.

End Handlers.

(** A concrete environment for the witnesses. *)
Definition ex_user : user := mk_user (Some "11") (Some "pat") (Some [ROLE_PATIENT]) (Some "t") None.
Definition ex_set_hours (date : Z) (h m : option Z) : option Z :=
  match h, m with Some h, Some m => Some (date + h * 3600000 + m * 60000)%Z | _, _ => None end.
Definition ex_appt : appointment :=
  mk_appt "5" (Some "CONFIRMED") (Some "2026-11-10T10:00") None None (Some "3") None None
    (Some "checkup") (Some 30%Z) None.
Definition ex_dash : dash := upd_booking (mk_booking "3" (Some 0%Z) "10:00" "checkup") init_dash.

(** ** Printing and reading numbers *)

Definition digit_char (d : Z) : Ascii.ascii := Ascii.ascii_of_nat (48 + Z.to_nat d).

Lemma digits_value_app s1 s2 acc :
  digits_value (s1 +:+ s2) acc = digits_value s1 acc ≫= digits_value s2.
Proof.
  revert acc. induction s1 as [|c s1 IH]; intros acc; [done|].
  change (digits_value (String c (s1 +:+ s2)) acc = digits_value (String c s1) acc ≫= digits_value s2).
  cbn [digits_value]. by case_match.
Qed.

Lemma digits_value_digit d s acc :
  (0 <= d < 10)%Z -> digits_value (String (digit_char d) s) acc = digits_value s (acc * 10 + d)%Z.
Proof.
  intros Hd. unfold digit_char. cbn [digits_value].
  rewrite Ascii.nat_ascii_embedding by lia.
  replace ((48 <=? 48 + Z.to_nat d) && (48 + Z.to_nat d <=? 57))%nat with true
    by (symmetry; apply andb_true_iff; split; apply Nat.leb_le; lia).
  rewrite Nat.add_comm, Nat.add_sub, Z2Nat.id by lia. done.
Qed.

Lemma digit_char_not_dash d : (0 <= d < 10)%Z -> Ascii.eqb (digit_char d) "-" = false.
Proof.
  intros Hd. apply Ascii.eqb_neq. intros He. apply (f_equal Ascii.nat_of_ascii) in He.
  unfold digit_char in He. rewrite Ascii.nat_ascii_embedding in He by lia.
  change (Ascii.nat_of_ascii "-") with 45%nat in He. lia.
Qed.

(** One digit for a number below 10. *)
Lemma z_digits_one f n : (0 <= n < 10)%Z -> z_digits (S f) n "" = String (digit_char n) "".
Proof. intros Hn. cbn [z_digits]. rewrite Z.mod_small by lia. by replace (n <? 10)%Z with true by lia. Qed.

(** [fuel] digits print every number below [10^fuel], and they read back. *)
Lemma z_digits_value f n :
  (0 <= n < 10 ^ Z.of_nat (S f))%Z -> digits_value (z_digits (S f) n "") 0 = Some n.
Proof.
  revert n. induction f as [|f IH]; intros n Hn.
  - change (10 ^ Z.of_nat 1)%Z with 10%Z in Hn.
    rewrite z_digits_one by lia. by rewrite digits_value_digit by lia.
  - destruct (Z.ltb_spec n 10) as [Hs|Hs].
    + rewrite z_digits_one by lia. by rewrite digits_value_digit by lia.
    + rewrite Nat2Z.inj_succ, Z.pow_succ_r in Hn by lia.
      pose proof (Z.div_mod n 10). pose proof (Z.mod_pos_bound n 10).
      assert (Hq : (0 <= n / 10 < 10 ^ Z.of_nat (S f))%Z)
        by (split; [apply Z.div_pos | apply Z.div_lt_upper_bound]; lia).
      rewrite z_digits_step by lia. rewrite digits_value_app, (IH _ Hq).
      cbn [mbind option_bind]. fold (digit_char (n mod 10)).
      rewrite digits_value_digit by lia. cbn. f_equal. lia.
Qed.

Lemma z_digits_no_dash f n acc :
  has_char "-" acc = false -> has_char "-" (z_digits f n acc) = false.
Proof.
  revert n acc. induction f as [|f IH]; intros n acc Ha; [done|]. cbn [z_digits].
  fold (digit_char (n mod 10)).
  assert (has_char "-" (String (digit_char (n mod 10)) acc) = false).
  { cbn. rewrite digit_char_not_dash; [done|]. pose proof (Z.mod_pos_bound n 10). lia. }
  case_match; auto.
Qed.

Lemma z_to_string_value z : (0 <= z < 10 ^ 64)%Z -> js_number (z_to_string z) = Some z.
Proof.
  intros Hz. unfold js_number, z_to_string. replace (z <? 0)%Z with false by lia.
  by apply (z_digits_value 63).
Qed.

Lemma z_to_string_no_dash z : (0 <= z)%Z -> has_char "-" (z_to_string z) = false.
Proof.
  intros Hz. unfold z_to_string. replace (z <? 0)%Z with false by lia.
  by apply z_digits_no_dash.
Qed.

Lemma pad2_no_dash n : (0 <= n)%Z -> has_char "-" (pad2 (Some n)) = false.
Proof.
  intros Hn. unfold pad2, z_to_string. replace (n <? 0)%Z with false by lia.
  pose proof (z_digits_no_dash 64 n "" eq_refl). case_match; [|done].
  change (has_char "-" (String "0" (z_digits 64 n "")) = false). by cbn [has_char].
Qed.

(** [String(n).padStart(2, '0')] of a number below 100: two digits that
    read back as [n]. *)
Lemma pad2_value n :
  (0 <= n < 100)%Z -> String.length (pad2 (Some n)) = 2%nat /\ js_number (pad2 (Some n)) = Some n.
Proof.
  intros Hn. unfold pad2, z_to_string, js_number. replace (n <? 0)%Z with false by lia.
  destruct (Z.ltb_spec n 10).
  - rewrite z_digits_one by lia. cbn -[digit_char digits_value].
    change ("0" +:+ String (digit_char n) "") with (String (digit_char 0) (String (digit_char n) "")).
    split; [done|]. rewrite !digits_value_digit by lia. done.
  - assert (Hv : digits_value (z_digits 64 n "") 0 = Some n) by (apply (z_digits_value 63); lia).
    assert (Hq : (0 <= n / 10 < 10)%Z) by (split; [apply Z.div_pos | apply Z.div_lt_upper_bound]; lia).
    rewrite z_digits_step, z_digits_one in * by lia.
    cbn -[digit_char digits_value]. split; [done|]. exact Hv.
Qed.

(** ** Properties *)

Section Proofs.
Context (api_base_url : string) (u : user)
  (parse_date : string -> option Z)
  (set_hours : Z -> option Z -> option Z -> option Z)
  (local_ymd : Z -> Z * Z * Z)
  (srv_appts : string -> fetch_result (json_list appointment))
  (srv_doctor : string -> fetch_result (option string))
  (srv_records : string -> fetch_result (option (list medical_record)))
  (srv_book : appointment_data -> fetch_result unit).

Abbreviation fetch urll :=
  (fetchAppointments api_base_url urll u parse_date srv_appts srv_doctor srv_records).

(** The page after [fetchAppointments] in this repository. *)
Definition fetch_failed (d : dash) : dash :=
  upd_loading false (upd_appointments []
    (upd_error (Some "API_BASE_URLL is not defined") (upd_error None (upd_loading true d)))).

Lemma fetch_none d : fetch None d = (fetch_failed d, Ok tt).
Proof. reflexivity. Qed.

(** C32: the patient's [fetchAppointments] always fails in this
    repository: line 62 reads [API_BASE_URLL], which is not defined, so
    whatever the backend holds the list is emptied and the banner shows
    "API_BASE_URLL is not defined"; the other fields are untouched. *)
Theorem patient_fetch_always_fails d :
  let '(d', r) :=
    fetchAppointments api_base_url None u parse_date srv_appts srv_doctor srv_records d in
  r = Ok tt /\ p_appointments d' = [] /\
  p_error d' = Some "API_BASE_URLL is not defined"%string /\ p_loading d' = false /\
  p_booking d' = p_booking d /\ p_doctors d' = p_doctors d /\
  p_successMessage d' = p_successMessage d.
Proof. rewrite fetch_none. done. Qed.

Lemma insert_by_perm {A} (cmp : A -> A -> option Z) x ys : insert_by cmp x ys ≡ₚ x :: ys.
Proof.
  induction ys as [|y ys IH]; simpl; [done|].
  destruct (cmp x y) as [c|]; [destruct (c <? 0)%Z|]; [done| |];
    rewrite IH; apply Permutation_swap.
Qed.

Lemma js_sort_perm {A} (cmp : A -> A -> option Z) xs : js_sort cmp xs ≡ₚ xs.
Proof.
  unfold js_sort. rewrite <- (app_nil_l xs) at 2. generalize (@nil A) as acc.
  induction xs as [|x xs IH]; intros acc; simpl; [by rewrite app_nil_r|].
  rewrite IH, insert_by_perm. simpl. by rewrite Permutation_middle.
Qed.

(** were [API_BASE_URLL] bound (to [b]), a successful fetch would
    show every appointment of the answer exactly once (a permutation of
    it, sorted by date), each with its doctor's name and its records, and
    clear the banner. *)
Theorem patient_fetch_with_binding b d data :
  srv_appts (b +:+ "/appointments/patient/name/" +:+ tmpl (u_username u)) = FOk (JArray data) ->
  let '(d', r) := fetch (Some b) d in
  r = Ok tt /\ p_error d' = None /\ p_loading d' = false /\
  p_appointments d' ≡ₚ
    with_fetched_records api_base_url srv_records <$>
      (with_doctor api_base_url srv_doctor <$> data).
Proof.
  intros Hs. unfold fetchAppointments. js_unfold. rewrite Hs. js_unfold.
  split_and!; try done. by rewrite js_sort_perm.
Qed.

Abbreviation submit urll now :=
  (handleBookingSubmit api_base_url urll u parse_date set_hours local_ymd srv_appts srv_doctor
     srv_records srv_book now).

(** C33: a booking is only ever accepted for a slot the dialog allows: a
    doctor chosen, a date and a time given, a start at least five minutes
    after [now] and an hour between 9:00 and 17:00 (whenever the hour and
    the start are numbers; a time that is not [HH:MM] would give [NaN],
    which both checks let through). *)
Theorem booking_accepted_only_valid urll now d :
  p_successMessage d <> "Appointment booked successfully!"%string ->
  p_successMessage (exec (submit urll now) d) = "Appointment booked successfully!"%string ->
  let b := p_booking d in
  b_doctorId b <> ""%string /\ b_time b <> ""%string /\
  exists date, b_date b = Some date /\
  (forall h, (hour_minute (b_time b)).1 = Some h -> (9 <= h < 17)%Z) /\
  (forall t, set_hours date (hour_minute (b_time b)).1 (hour_minute (b_time b)).2 = Some t ->
     (now + 300000 <= t)%Z).
Proof.
  intros Hbefore Hafter. unfold exec, handleBookingSubmit in Hafter. js_unfold.
  destruct d as [aps ld er ob ds sm [did [date|] time reason] sr ord bve tm]; simpl in *;
    [|js_unfold; simpl in Hafter; congruence].
  destruct (String.eqb_spec time "") as [->|Ht]; [js_unfold; simpl in Hafter; congruence|].
  destruct (String.eqb_spec did "") as [->|Hd]; [js_unfold; simpl in Hafter; congruence|].
  destruct (hour_minute time) as [h m] eqn:Ehm. cbn [fst snd].
  destruct (lt_num (set_hours date h m) _) eqn:E5; [js_unfold; simpl in Hafter; congruence|].
  destruct (lt_num h (Some 9%Z) || ge_num h (Some 17%Z)) eqn:Ehour;
    [js_unfold; simpl in Hafter; congruence|].
  split_and!; try done. exists date. split; [done|]. split.
  - intros h' ->. simpl in Ehour. apply orb_false_iff in Ehour as [H9 H17].
    apply Z.ltb_ge in H9. apply Z.leb_gt in H17. lia.
  - intros t Ht'. rewrite Ht' in E5. simpl in E5. apply Z.ltb_ge in E5. lia.
Qed.

(** in this repository a successful booking ends with two banners:
    "Appointment booked successfully!" and, from the [fetchAppointments]
    it triggers, "API_BASE_URLL is not defined", with the appointment
    list emptied. *)
Theorem booked_then_banner now d date h m t :
  let b := p_booking d in
  b_date b = Some date -> b_doctorId b <> ""%string -> b_time b <> ""%string ->
  hour_minute (b_time b) = (Some h, Some m) -> set_hours date (Some h) (Some m) = Some t ->
  (now + 300000 <= t)%Z -> (9 <= h < 17)%Z -> (forall x, srv_book x = FOk tt) ->
  let d' := exec (submit None now) d in
  p_successMessage d' = "Appointment booked successfully!"%string /\
  p_error d' = Some "API_BASE_URLL is not defined"%string /\ p_appointments d' = [] /\
  p_openBooking d' = false /\ p_booking d' = empty_booking /\ p_loading d' = false.
Proof.
  cbv zeta. intros Hd Hdoc Ht Hhm Hs H5 Hh Hbook. unfold exec, handleBookingSubmit. js_unfold.
  destruct d as [aps ld er ob ds sm [did date' time reason] sr ord bve tm]; simpl in *.
  subst date'. rewrite (proj2 (String.eqb_neq _ _) Ht), (proj2 (String.eqb_neq _ _) Hdoc), Hhm.
  cbn [fst snd]. rewrite Hs. simpl.
  replace (t <? now + 5 * 60000)%Z with false by (symmetry; apply Z.ltb_ge; lia).
  replace (h <? 9)%Z with false by (symmetry; apply Z.ltb_ge; lia).
  replace (17 <=? h)%Z with false by (symmetry; apply Z.leb_gt; lia).
  simpl. rewrite Hbook. js_unfold. done.
Qed.

(** C35: a patient may cancel an appointment exactly when it is neither
    cancelled nor completed and its [startTime] is a valid date more than
    one hour ahead; an appointment known only by [date] and [time] (what
    [handleBookingSubmit] sends) never gets a Cancel button. *)
Theorem canCancel_spec now a :
  (CancelAppointment ∈ row_actions parse_date now a <-> canCancelAppointment parse_date now a = true) /\
  (canCancelAppointment parse_date now a = true <->
   ap_status a <> Some "CANCELLED" /\ ap_status a <> Some "COMPLETED" /\
   exists s t, ap_startTime a = Some s /\ parse_date s = Some t /\ (now < t - 3600000)%Z).
Proof.
  split.
  - unfold row_actions. rewrite !elem_of_app.
    destruct (has_records a), (canCancelAppointment _ now a), (status_is "CONFIRMED" a);
      cbn [app]; set_solver.
  - unfold canCancelAppointment, status_is, date_of.
    destruct (bool_decide_reflect (ap_status a = Some "CANCELLED")),
      (bool_decide_reflect (ap_status a = Some "COMPLETED")); cbn [orb]; [naive_solver..|].
    destruct (ap_startTime a) as [st|]; cbn; [|naive_solver].
    destruct (parse_date st) as [t|] eqn:E; cbn; [|naive_solver].
    rewrite Z.ltb_lt. naive_solver.
Qed.

End Proofs.

Lemma patient_fetch_with_binding_witness :
  (fun _ => FOk (JArray [ex_appt])) ("http://api/appointments/patient/name/" +:+ tmpl (u_username ex_user))
    = FOk (JArray [ex_appt]) /\
  let '(d', r) := fetchAppointments "http://api" (Some "http://api") ex_user (fun _ => Some 0%Z)
                    (fun _ => FOk (JArray [ex_appt])) (fun _ => FOk (Some "house"))
                    (fun _ => FOk (Some [])) init_dash in
  r = Ok tt /\ p_error d' = None /\ p_loading d' = false /\
  p_appointments d' ≡ₚ
    with_fetched_records "http://api" (fun _ => FOk (Some [])) <$>
      (with_doctor "http://api" (fun _ => FOk (Some "house")) <$> [ex_appt]).
Proof.
  split; [reflexivity|].
  exact (patient_fetch_with_binding "http://api" ex_user (fun _ => Some 0%Z)
           (fun _ => FOk (JArray [ex_appt])) (fun _ => FOk (Some "house"))
           (fun _ => FOk (Some [])) "http://api" init_dash [ex_appt] eq_refl).
Defined.

Lemma booking_accepted_only_valid_witness :
  let sub := handleBookingSubmit "http://api" None ex_user (fun _ => Some 0%Z) ex_set_hours
               (fun _ => (2026, 11, 10)%Z) (fun _ => FOk (JArray [])) (fun _ => FOk None)
               (fun _ => FOk None) (fun _ => FOk tt) 0%Z in
  p_successMessage ex_dash <> "Appointment booked successfully!"%string /\
  p_successMessage (exec sub ex_dash) = "Appointment booked successfully!"%string /\
  (let b := p_booking ex_dash in
   b_doctorId b <> ""%string /\ b_time b <> ""%string /\
   exists date, b_date b = Some date /\
   (forall h, (hour_minute (b_time b)).1 = Some h -> (9 <= h < 17)%Z) /\
   (forall t, ex_set_hours date (hour_minute (b_time b)).1 (hour_minute (b_time b)).2 = Some t ->
      (0 + 300000 <= t)%Z)).
Proof.
  cbv zeta. split; [vm_compute; discriminate|]. split; [vm_compute; reflexivity|].
  apply (booking_accepted_only_valid "http://api" ex_user (fun _ => Some 0%Z) ex_set_hours
           (fun _ => (2026, 11, 10)%Z) (fun _ => FOk (JArray [])) (fun _ => FOk None)
           (fun _ => FOk None) (fun _ => FOk tt) None 0%Z ex_dash);
    vm_compute; [discriminate|reflexivity].
Defined.

Lemma booked_then_banner_witness :
  let d' := exec (handleBookingSubmit "http://api" None ex_user (fun _ => Some 0%Z) ex_set_hours
               (fun _ => (2026, 11, 10)%Z) (fun _ => FOk (JArray [])) (fun _ => FOk None)
               (fun _ => FOk None) (fun _ => FOk tt) 0%Z) ex_dash in
  p_successMessage d' = "Appointment booked successfully!"%string /\
  p_error d' = Some "API_BASE_URLL is not defined"%string /\ p_appointments d' = [] /\
  p_openBooking d' = false /\ p_booking d' = empty_booking /\ p_loading d' = false.
Proof.
  apply (booked_then_banner "http://api" ex_user (fun _ => Some 0%Z) ex_set_hours
           (fun _ => (2026, 11, 10)%Z) (fun _ => FOk (JArray [])) (fun _ => FOk None)
           (fun _ => FOk None) (fun _ => FOk tt) 0%Z ex_dash 0%Z 10%Z 0%Z 36000000%Z);
    try (vm_compute; reflexivity); try (vm_compute; discriminate); try lia; done.
Defined.

(** ** The booking's date *)

(** C34: bounds of the date sent with a booking.  For a selected instant
    whose local year, month ([getMonth() + 1]) and day are below
    [10^64], [100] and [100], [formattedDate] is the three fields joined
    by ["-"], month and day printed with exactly two digits, and each
    field reads back as the number it prints: the 64 digits of
    [z_to_string] are enough, and [padStart(2, '0')] never loses or adds
    a digit below 100. *)
Theorem formatted_date_fields (local_ymd : Z -> Z * Z * Z) t y m d :
  local_ymd t = (y, m, d) -> (0 <= y < 10 ^ 64)%Z -> (0 <= m < 100)%Z -> (0 <= d < 100)%Z ->
  split_on "-" (formatted_date local_ymd (Some t)) = [z_to_string y; pad2 (Some m); pad2 (Some d)] /\
  js_number (z_to_string y) = Some y /\
  String.length (pad2 (Some m)) = 2%nat /\ js_number (pad2 (Some m)) = Some m /\
  String.length (pad2 (Some d)) = 2%nat /\ js_number (pad2 (Some d)) = Some d.
Proof.
  intros Ht Hy Hm Hd. unfold formatted_date. rewrite Ht.
  change (z_to_string y +:+ "-" +:+ pad2 (Some m) +:+ "-" +:+ pad2 (Some d)) with
    (z_to_string y +:+ String "-" (pad2 (Some m) +:+ String "-" (pad2 (Some d)))).
  rewrite split_on_app_sep, split_on_app_sep, split_on_no_sep
    by (apply z_to_string_no_dash || apply pad2_no_dash; lia).
  destruct (pad2_value m Hm), (pad2_value d Hd).
  split_and!; try done. by apply z_to_string_value.
Qed.

Lemma formatted_date_fields_witness :
  formatted_date (fun _ => (2026, 11, 9)%Z) (Some 0%Z) = "2026-11-09"%string /\
  split_on "-" (formatted_date (fun _ => (2026, 11, 9)%Z) (Some 0%Z)) =
    [z_to_string 2026; pad2 (Some 11%Z); pad2 (Some 9%Z)] /\
  js_number (pad2 (Some 9%Z)) = Some 9%Z.
Proof.
  split; [vm_compute; reflexivity|].
  destruct (formatted_date_fields (fun _ => (2026, 11, 9)%Z) 0 2026 11 9) as (H1 & _ & _ & _ & _ & H2);
    [reflexivity | lia | lia | lia |].
  split; [exact H1 | exact H2].
Defined.

End Patient.
