(* ===== verification/Views.v ===== *)
(** * What the dashboards and the calendar page show

    The JSX that [src/src/pages/PatientDashboard.jsx],
    [DoctorDashboard.jsx] and [Appointments.jsx] return, as functions from
    the page's state to what the user sees: the spinner while loading, the
    welcome line, the alerts, the appointments table (its header, one row
    per appointment with the texts of its cells, its status chip and its
    buttons, or the row saying there are none), and the dialogs (booking,
    medical record, video-call error).  Markup, styling and layout are not
    kept, only the texts, options and buttons the user can see or use.

    The browser's formatting is a parameter of the section: [locale_date]
    and [locale_time] are [toLocaleDateString()] and the two
    [toLocaleTimeString] calls of a valid instant, [format_date] the
    pages' [formatDate]; an invalid date prints as ["Invalid Date"]. *)

From Stdlib Require Import ZArith.
From S2P Require Import Prelude Auth Appointments DoctorDash PatientDash.

(** [toLocaleDateString] and [toLocaleTimeString] of a [Date] that may be
    invalid. *)
Definition invalid_or (f : Z -> string) (t : option Z) : string :=
  match t with Some t => f t | None => "Invalid Date" end.

(** A number rendered by JSX: [undefined] renders nothing. *)
Definition jsx_num (o : option Z) : string :=
  match o with Some z => z_to_string z | None => "" end.

(** [{s && <Alert>{s}</Alert>}] for an optional string. *)
Definition alert (o : option string) : option string := if truthy o then o else None.

(** The body of an appointments table. *)
Inductive table_body (R : Type) :=
| EmptyRow (colSpan : nat) (text : string)
| Rows (rows : list R).
Arguments EmptyRow {R} colSpan text.
Arguments Rows {R} rows.

(** ** The medical record dialog (the same content on both dashboards) *)

Record record_view := mk_record_view {
  rv_createdAt : string;
  rv_diagnosis : string;
  rv_symptoms : string;
  rv_notes : string;
  (** the Medications section, when shown: one line per medication *)
  rv_medications : option (list string);
  (** the Vital Signs section, when shown: its four lines *)
  rv_vitals : option (list string)
}.

(** [• {med.name} - {med.dosage}, {med.frequency}, {med.duration}]. *)
Definition medication_line (m : medication) : string :=
  "• " +:+ jsx_text (med_name m) +:+ " - " +:+ jsx_text (med_dosage m) +:+ ", " +:+
  jsx_text (med_frequency m) +:+ ", " +:+ jsx_text (med_duration m).

Definition vital_lines (v : vital_signs) : list string :=
  ["Temperature: " +:+ jsx_text (vs_temperature v) +:+ "°C";
   "Blood Pressure: " +:+ jsx_text (vs_systolic v) +:+ "/" +:+ jsx_text (vs_diastolic v) +:+ " mmHg";
   "Heart Rate: " +:+ jsx_text (vs_heartRate v) +:+ " bpm";
   "Respiratory Rate: " +:+ jsx_text (vs_respiratoryRate v) +:+ " breaths/min"].

Section Views.
Context (parse_date : string -> option Z)
  (locale_date locale_time locale_time_full : Z -> string)
  (format_date : option string -> string).

(** The dialog's subtitle and content for the selected record. *)
Definition record_view_of (r : medical_record) : record_view :=
  mk_record_view (format_date (mr_createdAt r)) (jsx_text (mr_diagnosis r))
    (or_default (mr_symptoms r) "Not specified") (or_default (mr_notes r) "No notes")
    (match mr_medications r with
     | Some (_ :: _ as ms) => Some (medication_line <$> ms)
     | _ => None
     end)
    (vital_lines <$> mr_vitalSigns r).

(** The record dialog: [None] when closed; when open, its content if a
    record is selected. *)
Definition record_dialog (open : bool) (sel : option medical_record) : option (option record_view) :=
  if open then Some (record_view_of <$> sel) else None.

(** [{s && ...}] and [open={!!s}] for a string state: shown when it is not
    empty (the success alert, the booking's validation alert, the
    video-call error dialog). *)
Definition when_nonempty (s : string) : option string :=
  if String.eqb s "" then None else Some s.

(** ** The patient's dashboard *)

Record patient_row_view := mk_patient_row {
  pr_key : string;
  pr_doctor : string;
  pr_date : string;
  pr_time : string;
  pr_duration : string;
  pr_reason : string;
  (** the status chip: label and colour *)
  pr_chip : string * string;
  pr_buttons : list Patient.action
}.

(** [appointment.startTime ? new Date(appointment.startTime)
    : new Date(`${appointment.date}T${appointment.time}`)]. *)
Definition patient_row_date (a : appointment) : option Z :=
  if truthy (ap_startTime a) then date_of parse_date (ap_startTime a)
  else parse_date (tmpl (ap_date a) +:+ "T" +:+ tmpl (ap_time a)).

(** [getStatusColor] of [PatientDashboard.jsx], the same switch as the
    doctor's. *)
Definition patient_status_color (status : option string) : string :=
  match status with
  | Some "CONFIRMED" => "success"
  | Some "CANCELLED" => "error"
  | Some "COMPLETED" => "info"
  | _ => "warning"
  end%string.

Definition patient_row (now : Z) (a : appointment) : patient_row_view :=
  let t := patient_row_date a in
  mk_patient_row (ap_id a)
    ("Dr. " +:+ or_default (ap_doctorName a) "Loading...")
    (invalid_or locale_date t) (invalid_or locale_time t)
    (jsx_num (ap_durationInMinutes a) +:+ " minutes") (jsx_text (ap_reason a))
    (jsx_text (ap_status a), patient_status_color (ap_status a))
    (Patient.row_actions parse_date now a).

(** An entry of the doctor [<Select>]: its value and label, or the
    disabled "No doctors available". *)
Inductive doctor_item := DoctorItem (value : option string) (label : string) | NoDoctors.

(** [doctor.id || doctor._id]: the formatted doctors have no [id]. *)
Definition doctor_item_of (dc : Patient.doctor) : doctor_item :=
  DoctorItem (Patient.doc__id dc)
    ("Dr. " +:+ jsx_text (if truthy (Patient.doc_username dc) then Patient.doc_username dc
                          else Patient.doc_fullName dc) +:+ " - " +:+ Patient.doc_specialty dc).

Definition doctor_items (ds : list Patient.doctor) : list doctor_item :=
  match ds with [] => [NoDoctors] | _ => doctor_item_of <$> ds end.

Record booking_view := mk_booking_view {
  bv_alert : option string;
  bv_doctor : string;
  bv_doctor_error : bool;
  bv_doctor_items : list doctor_item;
  bv_date : option Z;
  bv_time : string;
  bv_time_options : list (string * string);
  bv_reason : string;
  bv_submit_disabled : bool
}.

Definition booking_dialog (d : Patient.dash) : option booking_view :=
  let b := Patient.p_booking d in
  let v := Patient.p_bookingValidationError d in
  if Patient.p_openBooking d then
    Some (mk_booking_view (when_nonempty v) (Patient.b_doctorId b)
            (String.eqb (Patient.b_doctorId b) "" && negb (String.eqb v ""))
            (doctor_items (Patient.p_doctors d)) (Patient.b_date b) (Patient.b_time b)
            Patient.time_options (Patient.b_reason b) (Patient.submit_disabled b))
  else None.

Record patient_page := mk_patient_page {
  pp_welcome : string;
  pp_error : option string;
  pp_success : option string;
  pp_head : list string;
  pp_body : table_body patient_row_view;
  pp_booking : option booking_view;
  pp_record : option (option record_view);
  pp_video_error : option string
}.

Definition patient_head : list string :=
  ["Doctor"; "Date"; "Time"; "Duration"; "Reason"; "Status"; "Medical Record"; "Actions"].

(** The page at time [now]; [None] is the spinner of [if (loading)]. *)
Definition patient_page_view (u : user) (now : Z) (d : Patient.dash) : option patient_page :=
  if Patient.p_loading d then None
  else Some (mk_patient_page ("Welcome, " +:+ jsx_text (u_username u))
               (alert (Patient.p_error d)) (when_nonempty (Patient.p_successMessage d))
               patient_head
               (match Patient.p_appointments d with
                | [] => EmptyRow 7 "No appointments found"
                | xs => Rows (patient_row now <$> xs)
                end)
               (booking_dialog d)
               (record_dialog (Patient.p_openRecordDialog d) (Patient.p_selectedRecord d))
               (when_nonempty (Patient.p_videoCallError d))).

(** ** The doctor's dashboard *)

Record doctor_row_view := mk_doctor_row {
  dr_key : string;
  dr_patient : string;
  dr_date : string;
  dr_time : string;
  dr_reason : string;
  dr_chip : string * string;
  dr_buttons : list Doctor.action
}.

(** [new Date(appointment.startTime)] in both date cells. *)
Definition doctor_row (a : appointment) : doctor_row_view :=
  let t := date_of parse_date (ap_startTime a) in
  mk_doctor_row (ap_id a) (or_default (ap_patientName a) "Unknown Patient")
    (invalid_or locale_date t) (invalid_or locale_time_full t) (jsx_text (ap_reason a))
    (jsx_text (ap_status a), getStatusColor (ap_status a)) (Doctor.row_actions a).

Record doctor_page := mk_doctor_page {
  dp_welcome : string;
  dp_error : option string;
  dp_head : list string;
  dp_body : table_body doctor_row_view;
  dp_record : option (option record_view);
  dp_video_error : option string
}.

Definition doctor_head : list string :=
  ["Patient Name"; "Date"; "Time"; "Reason"; "Status"; "Medical Record"; "Actions"].

Definition doctor_page_view (u : user) (d : Doctor.dash) : option doctor_page :=
  if Doctor.d_loading d then None
  else Some (mk_doctor_page ("Welcome, Dr. " +:+ jsx_text (u_username u))
               (alert (Doctor.d_error d)) doctor_head
               (match Doctor.d_appointments d with
                | [] => EmptyRow 7 "No appointments found"
                | xs => Rows (doctor_row <$> xs)
                end)
               (record_dialog (Doctor.d_openRecordDialog d) (Doctor.d_selectedRecord d))
               (when_nonempty (Doctor.d_videoCallError d))).

End Views.

(** ** The calendar page *)

Record calendar_view := mk_calendar_view {
  cv_error : option string;
  (** the events given to [<Calendar>], each with the background colour
      [eventStyleGetter] gives it *)
  cv_events : list (calendar_event * string);
  cv_views : list string;
  cv_defaultView : string
}.

Definition calendar_page_view (c : calendar_page) : option calendar_view :=
  if cal_loading c then None
  else Some (mk_calendar_view (alert (cal_error c))
               ((fun e => (e, event_color (ev_status e))) <$> cal_appointments c)
               ["month"; "week"; "day"] "week").

(** ** Properties *)

Section Props.
Context (parse_date : string -> option Z)
  (locale_date locale_time locale_time_full : Z -> string)
  (format_date : option string -> string).

(** C37: the patient's empty table is one column short.  Once loaded, a
    patient with no appointments sees a table of eight columns whose only
    row, "No appointments found", spans seven ([colSpan={7}]); the
    doctor's table has seven columns and its empty row spans all of
    them. *)
Theorem empty_table_colspan u now (d : Patient.dash) (dd : Doctor.dash) :
  Patient.p_loading d = false -> Patient.p_appointments d = [] ->
  Doctor.d_loading dd = false -> Doctor.d_appointments dd = [] ->
  (exists pg, patient_page_view parse_date locale_date locale_time format_date u now d = Some pg /\
     pp_body pg = EmptyRow 7 "No appointments found" /\ length (pp_head pg) = 8) /\
  (exists pg, doctor_page_view parse_date locale_date locale_time_full format_date u dd = Some pg /\
     dp_body pg = EmptyRow (length (dp_head pg)) "No appointments found").
Proof.
  intros Hl Ha Hdl Hda. unfold patient_page_view, doctor_page_view.
  rewrite Hl, Ha, Hdl, Hda. split; eexists; split_and!; reflexivity.
Qed.

(** C36: appointments without [startTime] show an invalid date to the
    doctor.  The patient's dashboard books with [date] and [time] only
    ([appointmentData] has no [startTime]).  For such an appointment the
    doctor's row prints ["Invalid Date"] in its Date and Time cells
    ([new Date(undefined)]), while the patient's row reads the date from
    [`${date}T${time}`] and prints it. *)
Theorem booked_dates_shown now a t :
  ap_startTime a = None ->
  parse_date (tmpl (ap_date a) +:+ "T" +:+ tmpl (ap_time a)) = Some t ->
  dr_date (doctor_row parse_date locale_date locale_time_full a) = "Invalid Date"%string /\
  dr_time (doctor_row parse_date locale_date locale_time_full a) = "Invalid Date"%string /\
  pr_date (patient_row parse_date locale_date locale_time now a) = locale_date t /\
  pr_time (patient_row parse_date locale_date locale_time now a) = locale_time t.
Proof.
  intros Hs Ht. unfold doctor_row, patient_row, patient_row_date, date_of. rewrite Hs.
  cbn. rewrite Ht. split_and!; reflexivity.
Qed.

(** The page after [handleViewRecord] on each answer of the records
    request, for either dashboard: the dialog opens on the first
    (most recent) record, or the error alert explains. *)
Definition record_outcome (shown : option (option record_view) * option string -> Prop)
    (answer : fetch_result (option (list medical_record))) : Prop :=
  match answer with
  | FOk (Some (r :: _)) => shown (Some (Some (record_view_of format_date r)), None)
  | FOk _ => shown (None, Some "No medical records found for this appointment"%string)
  | _ => shown (None, Some "Failed to load medical record"%string)
  end.

(** C31: viewing a medical record, on every answer.  From a loaded page
    with no error shown and the dialog closed, [handleViewRecord(id)] on
    either dashboard ends with the record dialog open on the first record
    the backend returns (its date, diagnosis, symptoms or "Not specified",
    notes or "No notes", medications and vital signs), or with the dialog
    closed and the alert "No medical records found for this appointment"
    (no record), or "Failed to load medical record" (a failed or rejected
    request). *)
Theorem view_record_outcome u now base api srvP srvD id (d : Patient.dash) (dd : Doctor.dash) :
  Patient.p_loading d = false -> Patient.p_error d = None -> Patient.p_openRecordDialog d = false ->
  Doctor.d_loading dd = false -> Doctor.d_error dd = None -> Doctor.d_openRecordDialog dd = false ->
  record_outcome (fun '(dlg, err) =>
    (fun pg => (pp_record pg, pp_error pg)) <$>
      patient_page_view parse_date locale_date locale_time format_date u now
        (exec (Patient.handleViewRecord base srvP id) d) = Some (dlg, err))
    (srvP (base +:+ "/medical-records/appointment/" +:+ id)) /\
  record_outcome (fun '(dlg, err) =>
    (fun pg => (dp_record pg, dp_error pg)) <$>
      doctor_page_view parse_date locale_date locale_time_full format_date u
        (exec (Doctor.handleViewRecord api srvD id) dd) = Some (dlg, err))
    (srvD (Doctor.records_url api id)).
Proof.
  intros Hl He Ho Hdl Hde Hdo. unfold record_outcome, Patient.handleViewRecord, Doctor.handleViewRecord.
  split; [destruct (srvP _) as [[[|r rs]|]| |] | destruct (srvD _) as [[[|r rs]|]| |]];
    js_unfold; unfold patient_page_view, doctor_page_view; cbn;
    rewrite ?Hl, ?He, ?Ho, ?Hdl, ?Hde, ?Hdo; reflexivity.
Qed.

End Props.

(** ** Witnesses *)

Definition ex_loaded : Patient.dash := Patient.upd_loading false Patient.init_dash.
Definition ex_doctor_loaded : Doctor.dash := Doctor.set_loading false Doctor.init_dash.
Definition ex_booked : appointment :=
  mk_appt "9" (Some "PENDING") None (Some "2026-11-10") (Some "10:00") (Some "3") (Some "Pat")
    None (Some "checkup") (Some 30%Z) None.
Definition ex_parse (s : string) : option Z :=
  if String.eqb s "2026-11-10T10:00" then Some 1762768800000%Z else None.
Definition ex_record : medical_record :=
  mk_record (Some "r1") (Some "2026-11-10") (Some "flu") (Some "") None None None.

Lemma empty_table_colspan_witness :
  (exists pg, patient_page_view ex_parse z_to_string z_to_string (fun _ => "") Patient.ex_user 0
                ex_loaded = Some pg /\
     pp_body pg = EmptyRow 7 "No appointments found" /\ length (pp_head pg) = 8) /\
  (exists pg, doctor_page_view ex_parse z_to_string z_to_string (fun _ => "") Patient.ex_user
                ex_doctor_loaded = Some pg /\
     dp_body pg = EmptyRow (length (dp_head pg)) "No appointments found").
Proof. apply empty_table_colspan; reflexivity. Defined.

Lemma booked_dates_shown_witness :
  dr_date (doctor_row ex_parse z_to_string z_to_string ex_booked) = "Invalid Date"%string /\
  dr_time (doctor_row ex_parse z_to_string z_to_string ex_booked) = "Invalid Date"%string /\
  pr_date (patient_row ex_parse z_to_string z_to_string 0 ex_booked) = z_to_string 1762768800000 /\
  pr_time (patient_row ex_parse z_to_string z_to_string 0 ex_booked) = z_to_string 1762768800000.
Proof. apply booked_dates_shown; reflexivity. Defined.

Lemma view_record_outcome_witness :
  record_outcome (fun _ => "") (fun '(dlg, err) =>
    (fun pg => (pp_record pg, pp_error pg)) <$>
      patient_page_view ex_parse z_to_string z_to_string (fun _ => "") Patient.ex_user 0
        (exec (Patient.handleViewRecord "http://api" (fun _ => FOk (Some [ex_record])) "9") ex_loaded)
      = Some (dlg, err))
    (FOk (Some [ex_record])) /\
  record_outcome (fun _ => "") (fun '(dlg, err) =>
    (fun pg => (dp_record pg, dp_error pg)) <$>
      doctor_page_view ex_parse z_to_string z_to_string (fun _ => "") Patient.ex_user
        (exec (Doctor.handleViewRecord (Some "http://api") (fun _ => FNotOk "500") "9") ex_doctor_loaded)
      = Some (dlg, err))
    (FNotOk "500").
Proof.
  apply (view_record_outcome ex_parse z_to_string z_to_string z_to_string (fun _ => "")
           Patient.ex_user 0 "http://api" (Some "http://api") (fun _ => FOk (Some [ex_record]))
           (fun _ => FNotOk "500") "9"); reflexivity.
Defined.
