(* ===== verification/CallLink.v ===== *)
(** * From a dashboard to the call: the video-call link

    Both dashboards start a call with [navigate(`/video-call/${id}?role=
    ...&userId=${user.id || user.username}&userName=${encodeURIComponent(
    user.username)}`)] ([Appointments.join_url]); [VideoCall.jsx] reads the
    room from the route parameter ([useParams]) and the rest from
    [useSearchParams].  This file models how the browser parses such a
    URL (the [application/x-www-form-urlencoded] rules of
    [URLSearchParams]: pairs split at [&], name and value at the first
    [=], [+] read as a space, [%XX] decoded) and proves the round trip:
    the call page receives the appointment id, the role, the user's id and
    the user's name, provided the id and the user id need no escaping —
    which [handleJoinVideoCall] does not do for them. *)

From Stdlib Require Import Ascii.
From S2P Require Import Prelude Auth Appointments CallState Lifecycle.

(** ** Decoding *)

Definition hex_value (c : ascii) : option nat :=
  let n := nat_of_ascii c in
  if (48 <=? n) && (n <=? 57) then Some (n - 48)
  else if (65 <=? n) && (n <=? 70) then Some (n - 55)
  else if (97 <=? n) && (n <=? 102) then Some (n - 87)
  else None.

(** Percent-decoding: [%XX] with two hexadecimal digits is the byte
    [XX]; any other character stands for itself. *)
Fixpoint percent_decode (s : string) : string :=
  match s with
  | EmptyString => EmptyString
  | String c r =>
      if Ascii.eqb c "%" then
        match r with
        | String h (String l r') =>
            match hex_value h, hex_value l with
            | Some a, Some b => String (ascii_of_nat (a * 16 + b)) (percent_decode r')
            | _, _ => String c (percent_decode r)
            end
        | _ => String c (percent_decode r)
        end
      else String c (percent_decode r)
  end.

Fixpoint plus_to_space (s : string) : string :=
  match s with
  | EmptyString => EmptyString
  | String c r => String (if Ascii.eqb c "+" then " " else c) (plus_to_space r)
  end.

Definition form_decode (s : string) : string := percent_decode (plus_to_space s).

(** A pair [name=value] split at its first [=]. *)
Fixpoint split_first (c : ascii) (s : string) : string * string :=
  match s with
  | EmptyString => (EmptyString, EmptyString)
  | String a r => if Ascii.eqb a c then (EmptyString, r)
                  else let '(x, y) := split_first c r in (String a x, y)
  end.

(** [new URLSearchParams(query)]: the decoded pairs, in order. *)
Definition search_params (query : string) : list (string * string) :=
  (fun p => let '(n, v) := split_first "=" p in (form_decode n, form_decode v)) <$>
    filter (fun p => p <> ""%string) (split_on "&" query).

(** [searchParams.get(name)]: the first value, or [null]. *)
Definition sp_get (ps : list (string * string)) (name : string) : option string :=
  (fun ip => ip.2.2) <$> list_find (fun p => p.1 = name) ps.

(** The query of a URL given to [navigate]: what follows the first [?]. *)
Definition query_of (url : string) : string := (split_first "?" url).2.

(** What [VideoCall] reads from the URL it is rendered at: [roomId] from
    the route parameter (decoded), the three search parameters; the page's
    protocol and host are those of the window. *)
Definition props_of_url (url protocol hostname : string) : props :=
  let ps := search_params (query_of url) in
  mk_props (percent_decode <$> (segments (pathname url)) !! 1%nat)
    (sp_get ps "role") (sp_get ps "userId") (sp_get ps "userName") protocol hostname.

(** A value [handleJoinVideoCall] puts in the query unescaped is read
    back unchanged when it has no [&], [+], [%] or [#]. *)
Definition query_safe (s : string) : bool :=
  negb (has_char "&" s || has_char "+" s || has_char "%" s || has_char "#" s).

(** A route parameter read back unchanged: non-empty, without [/],
    [?], [%] or [#]. *)
Definition path_safe (s : string) : bool :=
  negb (String.eqb s "" || has_char "/" s || has_char "?" s || has_char "%" s || has_char "#" s).

(** ** Lemmas *)

Lemma hex_value_digit k : k < 16 -> hex_value (hex_digit k) = Some k.
Proof. intros Hk. do 16 (destruct k as [|k]; [reflexivity|]). lia. Qed.

Lemma hex_bounds c : nat_of_ascii c / 16 < 16 /\ nat_of_ascii c mod 16 < 16.
Proof.
  pose proof (Ascii.nat_ascii_bounded c). split.
  - apply Nat.Div0.div_lt_upper_bound. lia.
  - apply Nat.mod_upper_bound. lia.
Qed.

Lemma ascii_div_mod c : ascii_of_nat (nat_of_ascii c / 16 * 16 + nat_of_ascii c mod 16) = c.
Proof.
  rewrite (Nat.mul_comm (_ / 16) 16), <- Nat.div_mod_eq. apply Ascii.ascii_nat_embedding.
Qed.

Lemma percent_decode_encode s : percent_decode (encodeURIComponent s) = s.
Proof.
  induction s as [|c s IH]; [done|]. simpl.
  destruct (unreserved c) eqn:Hu.
  - simpl. destruct (Ascii.eqb_spec c "%") as [->|Hc]; [done|]. by rewrite IH.
  - simpl. pose proof (Ascii.nat_ascii_bounded c) as Hb.
    destruct (hex_bounds c) as [H1 H2]. rewrite !hex_value_digit by done.
    rewrite IH. f_equal.
    exact (ascii_div_mod c).
Qed.

Lemma hex_digit_eqb k c :
  k < 16 -> has_char c "0123456789ABCDEF" = false -> Ascii.eqb (hex_digit k) c = false.
Proof.
  intros Hk H. simpl in H. repeat rewrite orb_false_iff in H.
  do 16 (destruct k as [|k]; [simpl; tauto|]). lia.
Qed.


Lemma plus_to_space_encode s : plus_to_space (encodeURIComponent s) = encodeURIComponent s.
Proof.
  induction s as [|c s IH]; [done|]. simpl.
  pose proof (Ascii.nat_ascii_bounded c) as Hb.
  destruct (unreserved c) eqn:Hu; simpl.
  - destruct (Ascii.eqb_spec c "+") as [->|]; [done|]. by rewrite IH.
  - destruct (hex_bounds c) as [H1 H2].
    rewrite !hex_digit_eqb by done. by rewrite IH.
Qed.

Lemma form_decode_encode s : form_decode (encodeURIComponent s) = s.
Proof. unfold form_decode. by rewrite plus_to_space_encode, percent_decode_encode. Qed.

Lemma encode_no_amp s : has_char "&" (encodeURIComponent s) = false.
Proof.
  induction s as [|c s IH]; [done|]. simpl.
  destruct (unreserved c) eqn:Hu; simpl.
  - rewrite IH, orb_false_r. destruct (Ascii.eqb_spec c "&") as [->|]; [done|done].
  - destruct (hex_bounds c) as [H1 H2]. rewrite !hex_digit_eqb by done. by rewrite IH.
Qed.

Lemma str_app_assoc (a b c : string) : (a +:+ b) +:+ c = a +:+ (b +:+ c).
Proof. induction a as [|x a IH]; [done|]. exact (f_equal (String x) IH). Qed.

Lemma has_char_app c a b : has_char c (a +:+ b) = has_char c a || has_char c b.
Proof.
  induction a as [|x a IH]; [done|].
  change (Ascii.eqb x c || has_char c (a +:+ b) = (Ascii.eqb x c || has_char c a) || has_char c b).
  by rewrite IH, orb_assoc.
Qed.

Lemma split_first_app_sep c a b :
  has_char c a = false -> split_first c (a +:+ String c b) = (a, b).
Proof.
  induction a as [|x a IH]; simpl; intros H.
  - by rewrite Ascii.eqb_refl.
  - apply orb_false_iff in H as [Hx Ha]. by rewrite Hx, IH.
Qed.

Lemma percent_decode_id s : has_char "%" s = false -> percent_decode s = s.
Proof.
  induction s as [|c s IH]; simpl; intros H; [done|].
  apply orb_false_iff in H as [Hc Hs]. by rewrite Hc, IH.
Qed.

Lemma plus_to_space_id s : has_char "+" s = false -> plus_to_space s = s.
Proof.
  induction s as [|c s IH]; simpl; intros H; [done|].
  apply orb_false_iff in H as [Hc Hs]. by rewrite Hc, IH.
Qed.

Lemma form_decode_safe s : query_safe s = true -> form_decode s = s.
Proof.
  unfold query_safe, form_decode. rewrite negb_true_iff, !orb_false_iff. intros [[[_ Hp] Hpc] _].
  by rewrite plus_to_space_id, percent_decode_id.
Qed.

(** A URL [p?q] with no [?] in [p]: its query is [q], its path [p]. *)
Lemma query_of_app p q : has_char "?" p = false -> query_of (p +:+ String "?" q) = q.
Proof. intros H. unfold query_of. by rewrite split_first_app_sep. Qed.

Lemma pathname_app p q : has_char "?" p = false -> pathname (p +:+ String "?" q) = p.
Proof. intros H. unfold pathname. by rewrite split_on_app_sep. Qed.

Lemma query_safe_amp s : query_safe s = true -> has_char "&" s = false.
Proof. unfold query_safe. rewrite negb_true_iff, !orb_false_iff. tauto. Qed.

Lemma segments_video_call i :
  i <> ""%string -> has_char "/" i = false -> segments ("/video-call/" +:+ i) = ["video-call"; i]%string.
Proof.
  intros Hne Hs. unfold segments.
  change ("/video-call/" +:+ i)%string with (""%string +:+ String "/" ("video-call" +:+ String "/" i)).
  rewrite !split_on_app_sep, split_on_no_sep by done.
  rewrite !filter_cons. repeat case_decide; congruence || done.
Qed.

Lemma path_safe_spec s :
  path_safe s = true ->
  s <> ""%string /\ has_char "/" s = false /\ has_char "?" s = false /\ has_char "%" s = false.
Proof.
  unfold path_safe. rewrite negb_true_iff, !orb_false_iff.
  intros [[[[He ?] ?] ?] _]. split_and!; try done. by apply String.eqb_neq.
Qed.

Lemma join_url_shape role u a :
  join_url role u a =
  (("/video-call/" +:+ ap_id a) +:+ String "?"
    (("role=" +:+ role) +:+ String "&"
      (("userId=" +:+ id_or_username u) +:+ String "&"
        ("userName=" +:+ encodeURIComponent (tmpl (u_username u))))))%string.
Proof. unfold join_url. rewrite !str_app_assoc. reflexivity. Qed.

(** C38: the link a dashboard opens for an appointment reaches the call
    page with the appointment's id as [roomId], the dashboard's role, the
    user's id (or username) and name, provided the id is a plain path
    segment and the role and user id contain none of [& + % #]; the page
    then has every parameter it requires. *)
Theorem join_link_roundtrip role u a proto host :
  path_safe (ap_id a) = true -> query_safe role = true -> query_safe (id_or_username u) = true ->
  props_of_url (join_url role u a) proto host =
    mk_props (Some (ap_id a)) (Some role) (Some (id_or_username u)) (Some (tmpl (u_username u)))
      proto host /\
  (role <> ""%string -> id_or_username u <> ""%string ->
   params_missing (props_of_url (join_url role u a) proto host) = false).
Proof.
  intros Hp Hr Hi. apply path_safe_spec in Hp as (Hne & Hsl & Hq & Hpc).
  pose proof (query_safe_amp _ Hr) as Hra. pose proof (query_safe_amp _ Hi) as Hia.
  assert (Hpath : has_char "?" ("/video-call/" +:+ ap_id a) = false) by (rewrite has_char_app; done).
  assert (E : props_of_url (join_url role u a) proto host =
    mk_props (Some (ap_id a)) (Some role) (Some (id_or_username u)) (Some (tmpl (u_username u)))
      proto host).
  { unfold props_of_url. rewrite join_url_shape.
    rewrite query_of_app, pathname_app, segments_video_call by done.
    cbn [lookup list_lookup fmap option_fmap option_map]. rewrite percent_decode_id by done.
    unfold search_params.
    rewrite !split_on_app_sep, split_on_no_sep.
    rewrite !filter_cons, filter_nil. repeat (case_decide; [|by destruct_and?]).
    cbn [fmap list_fmap].
    change ("role=" +:+ role)%string with ("role" +:+ String "=" role)%string.
    change ("userId=" +:+ id_or_username u)%string with ("userId" +:+ String "=" (id_or_username u))%string.
    change ("userName=" +:+ encodeURIComponent (tmpl (u_username u)))%string with
      ("userName" +:+ String "=" (encodeURIComponent (tmpl (u_username u))))%string.
    rewrite !split_first_app_sep by done.
    rewrite (form_decode_safe role Hr), (form_decode_safe _ Hi), form_decode_encode.
    reflexivity.
    all: rewrite has_char_app; first [rewrite Hra | rewrite Hia | rewrite encode_no_amp]; reflexivity. }
  split; [done|]. intros Hr0 Hi0. rewrite E. unfold params_missing. cbn [p_roomId p_role p_userId].
  by rewrite !truthy_some.
Qed.

Lemma join_link_roundtrip_witness :
  path_safe "42" = true /\ query_safe "patient" = true /\
  query_safe (id_or_username (mk_user (Some "11") (Some "Ann Lee") None None None)) = true /\
  props_of_url (join_url "patient" (mk_user (Some "11") (Some "Ann Lee") None None None)
                  (mk_appt "42" None None None None None None None None None None)) "https:" "clinic"
  = mk_props (Some "42") (Some "patient") (Some "11") (Some "Ann Lee") "https:" "clinic".
Proof.
  split; [reflexivity|]. split; [reflexivity|]. split; [reflexivity|].
  exact (proj1 (join_link_roundtrip "patient" (mk_user (Some "11") (Some "Ann Lee") None None None)
                  (mk_appt "42" None None None None None None None None None None) "https:" "clinic"
                  eq_refl eq_refl eq_refl)).
Defined.

